(** * DaliVM: a shallow embedding of the Dalvik emulator and its specification

    The development follows the layout of the Python sources:
    - [Py]           the Python primitives the sources rely on (indexing,
                     slicing, [int.from_bytes], string helpers);
    - [Types]        [dalvik_vm/types.py] and [dalvik_vm/memory.py];
    - [Machine]      [dalvik_vm/vm.py] and the handler monad;
    - [Arithmetic]   [dalvik_vm/opcodes/arithmetic.py];
    - [ArrayOps]     [dalvik_vm/opcodes/array.py];
    - later modules  control flow, invokes, the class loader, the MUTF-8
                     decoder and the slicer.

    Python integers are unbounded and are modelled by [Z]; [//] and [%] are
    floor division and its remainder, which is what [Z.div] and [Z.modulo]
    compute; [<<], [>>], [&], [|], [^] and [~] are the two's-complement
    operations of [Z]. *)

From Stdlib Require Import ZArith Lia Floats.
From Stdlib.Strings Require Import Byte Ascii.
From stdpp Require Import base list gmap strings sorting pretty.

Local Open Scope Z_scope.

(* ===================================================================== *)
(** ** Python primitives *)
(* ===================================================================== *)

Module Py.

(** Exceptions that the modelled code can raise.  [RecursionError] is what
    CPython raises when the interpreter stack is exhausted; [NotModelled]
    marks a handler or hook body that this development does not embed. *)
Inductive exn :=
| IndexError
| TypeError
| ValueError
| OverflowError
| RecursionError
| NotModelled.

Inductive res (A : Type) :=
| Ok (a : A)
| Raise (e : exn).
Arguments Ok {A} a.
Arguments Raise {A} e.

Definition bind {A B} (m : res A) (k : A -> res B) : res B :=
  match m with
  | Ok a => k a
  | Raise e => Raise e
  end.

Definition of_option {A} (e : exn) (o : option A) : res A :=
  match o with
  | Some a => Ok a
  | None => Raise e
  end.

(** [l[i]] for a Python sequence: negative indices count from the end, and
    anything outside [-len, len) raises [IndexError]. *)
Definition index {A} (l : list A) (i : Z) : res A :=
  let n := Z.of_nat (length l) in
  if 0 <=? i then of_option IndexError (l !! Z.to_nat i)
  else if (- n) <=? i then of_option IndexError (l !! Z.to_nat (i + n))
  else Raise IndexError.

(** Bound normalisation of a slice [l[a:b]]. *)
Definition clamp (n i : Z) : Z :=
  if i <? 0 then Z.max 0 (i + n) else Z.min i n.

(** [l[a:b]]: never raises, clips to the sequence. *)
Definition slice {A} (l : list A) (a b : Z) : list A :=
  let n := Z.of_nat (length l) in
  let a' := clamp n a in
  let b' := clamp n b in
  take (Z.to_nat (b' - a')) (drop (Z.to_nat a') l).

Definition byte_val (b : byte) : Z := Z.of_N (Byte.to_N b).

(** The byte with the given value (values are taken modulo 256; used to
    write concrete bytecode). *)
Definition byte_of (z : Z) : byte :=
  match Byte.of_N (Z.to_N (z mod 256)) with
  | Some b => b
  | None => x00
  end.

Definition bytes_of (l : list Z) : list byte := map byte_of l.

(** [int.from_bytes(bs, 'little')]. *)
Fixpoint from_bytes_unsigned (bs : list byte) : Z :=
  match bs with
  | [] => 0
  | b :: r => byte_val b + 256 * from_bytes_unsigned r
  end.

(** [int.from_bytes(bs, 'little', signed=signed)]. *)
Definition from_bytes (bs : list byte) (signed : bool) : Z :=
  let u := from_bytes_unsigned bs in
  let bits := 8 * Z.of_nat (length bs) in
  if signed && negb (bits =? 0) && (2 ^ (bits - 1) <=? u)
  then u - 2 ^ bits
  else u.

End Py.

Export Py.

(** [res] is used through stdpp's monad notations [x ← m; k]. *)
#[global] Instance res_ret : MRet res := fun _ a => Ok a.
#[global] Instance res_bind : MBind res := fun _ _ k m => Py.bind m k.

(* ===================================================================== *)
(** ** [dalvik_vm/types.py] *)
(* ===================================================================== *)

Module Types.

(** The Python values that a register, an array element or a static field
    can hold.  Objects and arrays are mutable and shared, so a value only
    carries a handle into the heap.  A Python [bool] is an [int]. *)
Inductive pyval :=
| VNone
| VInt (n : Z)
| VFloat (f : float)
| VStr (s : string)
| VObj (h : nat)
| VArr (h : nat).

(** [isinstance(v, int)] *)
Definition is_int (v : pyval) : bool :=
  match v with VInt _ => true | _ => false end.

(** [@dataclass class RegisterValue] *)
Record RegisterValue := mkRegisterValue { value : pyval }.

(** [class DalvikObject]; attributes set after construction
    ([_mock_type], [_class_name], ...) live in [attrs]. *)
Record DalvikObject := mkDalvikObject {
  class_name : string;
  fields : gmap Z pyval;
  internal_value : option pyval;
  attrs : gmap string pyval
}.

(** [DalvikObject.__init__] *)
Definition new_DalvikObject (cls : string) : DalvikObject :=
  {| class_name := cls;
     fields := ∅;
     internal_value :=
       if decide (cls = "Ljava/lang/StringBuilder;") then Some (VStr "") else None;
     attrs := ∅ |}.

(** The type descriptor of an array is a type index ([new-array]) or a
    descriptor string (hooks). *)
Inductive type_desc_t :=
| TypeIdx (i : Z)
| TypeName (s : string).

(** [class DalvikArray] *)
Record DalvikArray := mkDalvikArray {
  type_desc : type_desc_t;
  size : Z;
  data : list pyval
}.

(** [DalvikArray.__init__]: [[0] * size] is empty for a negative size. *)
Definition new_DalvikArray (td : type_desc_t) (sz : Z) : DalvikArray :=
  {| type_desc := td; size := sz; data := replicate (Z.to_nat sz) (VInt 0) |}.

(** [class Registers]: [_regs] *)
Abbreviation Registers := (list RegisterValue).

(** [Registers.__init__] *)
Definition new_Registers (count : Z) : Registers :=
  replicate (Z.to_nat count) (mkRegisterValue VNone).

(** [Registers.__getitem__] *)
Definition reg_get (regs : Registers) (idx : Z) : res RegisterValue :=
  Py.index regs idx.

(** [Registers.__setitem__]: the file grows when [idx] is past the end. *)
Definition reg_set (regs : Registers) (idx : Z) (val : RegisterValue) : res Registers :=
  let len := Z.of_nat (length regs) in
  let regs' :=
    if len <=? idx
    then regs ++ replicate (Z.to_nat (idx - len + 1)) (mkRegisterValue VNone)
    else regs in
  let n := Z.of_nat (length regs') in
  if 0 <=? idx then Ok (<[Z.to_nat idx := val]> regs')
  else if (- n) <=? idx then Ok (<[Z.to_nat (idx + n) := val]> regs')
  else Raise IndexError.

(** [Registers.get_int] *)
Definition get_int (regs : Registers) (idx : Z) : res Z :=
  if Z.of_nat (length regs) <=? idx then Ok 0
  else
    reg ← Py.index regs idx;
    match value reg with
    | VInt n => Ok n
    | _ => Ok 0
    end.

End Types.

Export Types.

(* ===================================================================== *)
(** ** [dalvik_vm/memory.py] and [dalvik_vm/vm.py] *)
(* ===================================================================== *)

Module Machine.

(** [class StaticFieldStore] *)
Record StaticFieldStore := mkStore {
  _fields : gmap string (gmap string pyval);
  _initialized_classes : gset string
}.

(** [StaticFieldStore.__init__], also the effect of
    [reset_static_field_store]. *)
Definition new_store : StaticFieldStore :=
  {| _fields := ∅; _initialized_classes := ∅ |}.

(** [StaticFieldStore.get] *)
Definition store_get (st : StaticFieldStore) (cls fld : string) (default : pyval) : pyval :=
  match _fields st !! cls with
  | Some m => match m !! fld with Some v => v | None => default end
  | None => default
  end.

(** [StaticFieldStore.set] *)
Definition store_set (st : StaticFieldStore) (cls fld : string) (v : pyval) : StaticFieldStore :=
  let m := match _fields st !! cls with Some m => m | None => ∅ end in
  {| _fields := <[cls := <[fld := v]> m]> (_fields st);
     _initialized_classes := _initialized_classes st |}.

(** [StaticFieldStore.is_class_initialized] *)
Definition is_class_initialized (st : StaticFieldStore) (cls : string) : bool :=
  bool_decide (cls ∈ _initialized_classes st).

(** [StaticFieldStore.mark_class_initialized] *)
Definition mark_class_initialized (st : StaticFieldStore) (cls : string) : StaticFieldStore :=
  {| _fields := _fields st;
     _initialized_classes := {[cls]} ∪ _initialized_classes st |}.

(** Everything the interpreters share: the heap of arrays and objects
    (a handle is an index; allocation appends), the process-wide static
    field store, and the lines printed so far. *)
Record World := mkWorld {
  arrays : list DalvikArray;
  objects : list DalvikObject;
  store : StaticFieldStore;
  stdout : list string
}.

Definition empty_world : World :=
  {| arrays := []; objects := []; store := new_store; stdout := [] |}.

Definition set_arrays (w : World) (a : list DalvikArray) : World :=
  {| arrays := a; objects := objects w; store := store w; stdout := stdout w |}.
Definition set_objects (w : World) (o : list DalvikObject) : World :=
  {| arrays := arrays w; objects := o; store := store w; stdout := stdout w |}.
Definition set_store (w : World) (s : StaticFieldStore) : World :=
  {| arrays := arrays w; objects := objects w; store := s; stdout := stdout w |}.
Definition print (w : World) (line : string) : World :=
  {| arrays := arrays w; objects := objects w; store := store w;
     stdout := stdout w ++ [line] |}.

(** Allocation of a fresh array, returning its handle. *)
Definition alloc_array (w : World) (a : DalvikArray) : nat * World :=
  (length (arrays w), set_arrays w (arrays w ++ [a])).

Definition alloc_object (w : World) (o : DalvikObject) : nat * World :=
  (length (objects w), set_objects w (objects w ++ [o])).

Abbreviation trace_map_t := (gmap Z (string * Z)).

(** A user hook [hook(method_idx, args)]. *)
Definition user_hook := Z -> list RegisterValue -> World -> res (pyval * World).

(** A method resolver [method_resolver(method_idx)], returning
    [(code, registers_size, trace_map)]. *)
Definition resolver := Z -> res (list byte * Z * trace_map_t).

(** [class DalvikVM].  [trace_map], [silent_mode] and [method_hooks] are
    attributes that callers attach after construction; an absent
    [trace_map] reads as the empty dictionary and an absent [silent_mode]
    as [False].  [class_loader] records whether a loader is attached, the
    loader itself being the one of the analysis; [method_hooks], when
    present, maps a trace string to the name of a hook. *)
Record DalvikVM := mkVM {
  bytecode : list byte;
  strings : gmap Z string;
  registers : Registers;
  pc : Z;
  hook : option user_hook;
  method_resolver : option resolver;
  class_loader : bool;
  finished : bool;
  last_result : option RegisterValue;
  trace_map : trace_map_t;
  silent_mode : bool;
  method_hooks : option (string -> option string)
}.

(** [DalvikVM.__init__] with the default keyword arguments. *)
Definition new_VM (code : list byte) (strs : gmap Z string) (registers_size : Z) : DalvikVM :=
  {| bytecode := code; strings := strs; registers := new_Registers registers_size;
     pc := 0; hook := None; method_resolver := None; class_loader := false;
     finished := false; last_result := None; trace_map := ∅;
     silent_mode := false; method_hooks := None |}.

Definition set_registers (vm : DalvikVM) (r : Registers) : DalvikVM :=
  {| bytecode := bytecode vm; strings := strings vm; registers := r; pc := pc vm;
     hook := hook vm; method_resolver := method_resolver vm;
     class_loader := class_loader vm; finished := finished vm;
     last_result := last_result vm; trace_map := trace_map vm;
     silent_mode := silent_mode vm; method_hooks := method_hooks vm |}.
Definition set_pc (vm : DalvikVM) (p : Z) : DalvikVM :=
  {| bytecode := bytecode vm; strings := strings vm; registers := registers vm; pc := p;
     hook := hook vm; method_resolver := method_resolver vm;
     class_loader := class_loader vm; finished := finished vm;
     last_result := last_result vm; trace_map := trace_map vm;
     silent_mode := silent_mode vm; method_hooks := method_hooks vm |}.
Definition set_finished (vm : DalvikVM) (b : bool) : DalvikVM :=
  {| bytecode := bytecode vm; strings := strings vm; registers := registers vm; pc := pc vm;
     hook := hook vm; method_resolver := method_resolver vm;
     class_loader := class_loader vm; finished := b;
     last_result := last_result vm; trace_map := trace_map vm;
     silent_mode := silent_mode vm; method_hooks := method_hooks vm |}.
Definition set_last_result (vm : DalvikVM) (r : option RegisterValue) : DalvikVM :=
  {| bytecode := bytecode vm; strings := strings vm; registers := registers vm; pc := pc vm;
     hook := hook vm; method_resolver := method_resolver vm;
     class_loader := class_loader vm; finished := finished vm;
     last_result := r; trace_map := trace_map vm;
     silent_mode := silent_mode vm; method_hooks := method_hooks vm |}.
Definition set_trace_map (vm : DalvikVM) (t : trace_map_t) : DalvikVM :=
  {| bytecode := bytecode vm; strings := strings vm; registers := registers vm; pc := pc vm;
     hook := hook vm; method_resolver := method_resolver vm;
     class_loader := class_loader vm; finished := finished vm;
     last_result := last_result vm; trace_map := t;
     silent_mode := silent_mode vm; method_hooks := method_hooks vm |}.
Definition set_class_loader (vm : DalvikVM) (b : bool) : DalvikVM :=
  {| bytecode := bytecode vm; strings := strings vm; registers := registers vm; pc := pc vm;
     hook := hook vm; method_resolver := method_resolver vm;
     class_loader := b; finished := finished vm;
     last_result := last_result vm; trace_map := trace_map vm;
     silent_mode := silent_mode vm; method_hooks := method_hooks vm |}.
Definition set_silent_mode (vm : DalvikVM) (b : bool) : DalvikVM :=
  {| bytecode := bytecode vm; strings := strings vm; registers := registers vm; pc := pc vm;
     hook := hook vm; method_resolver := method_resolver vm;
     class_loader := class_loader vm; finished := finished vm;
     last_result := last_result vm; trace_map := trace_map vm;
     silent_mode := b; method_hooks := method_hooks vm |}.

(** [vm.bytecode[off]] as an integer. *)
Definition code_at (vm : DalvikVM) (off : Z) : res Z :=
  b ← Py.index (bytecode vm) off; Ok (byte_val b).

(** [DalvikVM.read_u16] *)
Definition read_u16 (vm : DalvikVM) (offset : Z) : Z :=
  Py.from_bytes (Py.slice (bytecode vm) offset (offset + 2)) false.

(** [getattr(vm, 'trace_map', {}).get(vm.pc - 1, ('', 0))[0]] *)
Definition trace_str_of (vm : DalvikVM) : string :=
  match trace_map vm !! (pc vm - 1) with
  | Some (s, _) => s
  | None => ""
  end.

(** [vm.registers[idx] = val] *)
Definition write_reg (vm : DalvikVM) (idx : Z) (v : pyval) : res DalvikVM :=
  regs ← reg_set (registers vm) idx (mkRegisterValue v);
  Ok (set_registers vm regs).

End Machine.

Export Machine.

(* ===================================================================== *)
(** ** [dalvik_vm/opcodes/arithmetic.py] *)
(* ===================================================================== *)

Module Arithmetic.

(** *** Python floats *)

(** [float(n)] for an [int]: correctly rounded, [OverflowError] when the
    integer is too large for a double. *)
Definition float_of_int (n : Z) : res float :=
  let f := FloatOps.SF2Prim (SpecFloat.binary_normalize FloatOps.prec FloatOps.emax n 0 false) in
  if PrimFloat.is_infinity f then Raise OverflowError else Ok f.

(** [float(v)].  Parsing a [str] is not embedded. *)
Definition py_float (v : pyval) : res float :=
  match v with
  | VInt n => float_of_int n
  | VFloat f => Ok f
  | VStr _ => Raise NotModelled
  | VNone | VObj _ | VArr _ => Raise TypeError
  end.

(** [x != 0] on a float: false for both zeros, true for NaN. *)
Definition float_nonzero (x : float) : bool := negb (PrimFloat.eqb x PrimFloat.zero).

(** C's [fmod] on finite operands with a non-zero divisor: exact. *)
Definition fmod_finite (a b : float) : float :=
  match FloatOps.Prim2SF a, FloatOps.Prim2SF b with
  | SpecFloat.S754_finite sa ma ea, SpecFloat.S754_finite _ mb eb =>
      let e := Z.min ea eb in
      let A := Z.pos ma * 2 ^ (ea - e) in
      let B := Z.pos mb * 2 ^ (eb - e) in
      let R := A mod B in
      if R =? 0 then (if sa then PrimFloat.opp PrimFloat.zero else PrimFloat.zero)
      else FloatOps.SF2Prim
             (SpecFloat.binary_normalize FloatOps.prec FloatOps.emax
                (if sa then - R else R) e false)
  | SpecFloat.S754_zero _, _ => a
  | _, _ => PrimFloat.nan
  end.

(** [fmod(a, b)] for [b != 0]. *)
Definition fmod (a b : float) : float :=
  if PrimFloat.is_nan a || PrimFloat.is_nan b || PrimFloat.is_infinity a then PrimFloat.nan
  else if PrimFloat.is_infinity b then a
  else fmod_finite a b.

(** [a % b] on floats for [b != 0] (CPython's [float_rem]): the result
    takes the sign of the divisor. *)
Definition float_mod (a b : float) : float :=
  let m := fmod a b in
  if PrimFloat.is_nan m then m
  else if float_nonzero m then
    if Bool.eqb (PrimFloat.ltb b PrimFloat.zero) (PrimFloat.ltb m PrimFloat.zero)
    then m else PrimFloat.add m b
  else if PrimFloat.ltb b PrimFloat.zero then PrimFloat.opp PrimFloat.zero
  else PrimFloat.zero.

(** *** Arithmetic 23x: vAA = vBB op vCC *)

Definition _arith_23x (op_func : Z -> Z -> Z) (vm : DalvikVM) : res DalvikVM :=
  aa ← code_at vm (pc vm);
  bb ← code_at vm (pc vm + 1);
  cc ← code_at vm (pc vm + 2);
  v_b ← get_int (registers vm) bb;
  v_c ← get_int (registers vm) cc;
  let result := op_func v_b v_c in
  vm ← write_reg vm aa (VInt (Z.land result 0xFFFFFFFF));
  Ok (set_pc vm (pc vm + 3)).

(** The [lambda a, b: ...] bodies shared by the integer handlers. *)
Definition op_add (a b : Z) : Z := a + b.
Definition op_sub (a b : Z) : Z := a - b.
Definition op_rsub (a b : Z) : Z := b - a.
Definition op_mul (a b : Z) : Z := a * b.
Definition op_div (a b : Z) : Z := if negb (b =? 0) then a / b else 0.
Definition op_rem (a b : Z) : Z := if negb (b =? 0) then a mod b else 0.
Definition op_and (a b : Z) : Z := Z.land a b.
Definition op_or (a b : Z) : Z := Z.lor a b.
Definition op_xor (a b : Z) : Z := Z.lxor a b.
Definition op_shl (a b : Z) : Z := Z.shiftl a (Z.land b 0x1F).
Definition op_shr (a b : Z) : Z := Z.shiftr a (Z.land b 0x1F).
Definition op_ushr (a b : Z) : Z := Z.shiftr (Z.land a 0xFFFFFFFF) (Z.land b 0x1F).
Definition op_shl_long (a b : Z) : Z := Z.shiftl a (Z.land b 0x3F).
Definition op_shr_long (a b : Z) : Z := Z.shiftr a (Z.land b 0x3F).
Definition op_ushr_long (a b : Z) : Z :=
  Z.shiftr (Z.land a 0xFFFFFFFFFFFFFFFF) (Z.land b 0x3F).

Definition execute_add_int := _arith_23x op_add.
Definition execute_sub_int := _arith_23x op_sub.
Definition execute_mul_int := _arith_23x op_mul.
Definition execute_div_int := _arith_23x op_div.
Definition execute_rem_int := _arith_23x op_rem.
Definition execute_and_int := _arith_23x op_and.
Definition execute_or_int := _arith_23x op_or.
Definition execute_xor_int := _arith_23x op_xor.
Definition execute_shl_int := _arith_23x op_shl.
Definition execute_shr_int := _arith_23x op_shr.
Definition execute_ushr_int := _arith_23x op_ushr.

(** *** Arithmetic 12x 2addr: vA = vA op vB *)

Definition _arith_2addr (op_func : Z -> Z -> Z) (vm : DalvikVM) : res DalvikVM :=
  byte1 ← code_at vm (pc vm);
  let a := Z.land byte1 0xF in
  let b := Z.shiftr byte1 4 in
  v_a ← get_int (registers vm) a;
  v_b ← get_int (registers vm) b;
  let result := op_func v_a v_b in
  let result := if 0x7FFFFFFF <? result then result - 0x100000000 else result in
  vm ← write_reg vm a (VInt result);
  Ok (set_pc vm (pc vm + 1)).

Definition execute_add_int_2addr := _arith_2addr op_add.
Definition execute_sub_int_2addr := _arith_2addr op_sub.
Definition execute_mul_int_2addr := _arith_2addr op_mul.
Definition execute_div_int_2addr := _arith_2addr op_div.
Definition execute_rem_int_2addr := _arith_2addr op_rem.
Definition execute_and_int_2addr := _arith_2addr op_and.
Definition execute_or_int_2addr := _arith_2addr op_or.
Definition execute_xor_int_2addr := _arith_2addr op_xor.
Definition execute_shl_int_2addr := _arith_2addr op_shl.
Definition execute_shr_int_2addr := _arith_2addr op_shr.
Definition execute_ushr_int_2addr := _arith_2addr op_ushr.

(** *** Arithmetic lit16: vA = vB op #+CCCC *)

Definition _arith_lit16 (op_func : Z -> Z -> Z) (vm : DalvikVM) : res DalvikVM :=
  byte1 ← code_at vm (pc vm);
  let a := Z.land byte1 0xF in
  let b := Z.shiftr byte1 4 in
  let lit := Py.from_bytes (Py.slice (bytecode vm) (pc vm + 1) (pc vm + 3)) true in
  v_b ← get_int (registers vm) b;
  let result := op_func v_b lit in
  vm ← write_reg vm a (VInt result);
  Ok (set_pc vm (pc vm + 3)).

Definition execute_add_int_lit16 := _arith_lit16 op_add.
Definition execute_rsub_int := _arith_lit16 op_rsub.
Definition execute_mul_int_lit16 := _arith_lit16 op_mul.
Definition execute_div_int_lit16 := _arith_lit16 op_div.
Definition execute_rem_int_lit16 := _arith_lit16 op_rem.
Definition execute_and_int_lit16 := _arith_lit16 op_and.
Definition execute_or_int_lit16 := _arith_lit16 op_or.
Definition execute_xor_int_lit16 := _arith_lit16 op_xor.

(** *** Arithmetic lit8: vAA = vBB op #+CC *)

Definition _arith_lit8 (op_func : Z -> Z -> Z) (vm : DalvikVM) : res DalvikVM :=
  aa ← code_at vm (pc vm);
  bb ← code_at vm (pc vm + 1);
  let cc := Py.from_bytes (Py.slice (bytecode vm) (pc vm + 2) (pc vm + 3)) true in
  v_b ← get_int (registers vm) bb;
  let result := op_func v_b cc in
  vm ← write_reg vm aa (VInt result);
  Ok (set_pc vm (pc vm + 3)).

Definition execute_add_int_lit8 := _arith_lit8 op_add.
Definition execute_rsub_int_lit8 := _arith_lit8 op_rsub.
Definition execute_mul_int_lit8 := _arith_lit8 op_mul.
Definition execute_div_int_lit8 := _arith_lit8 op_div.
Definition execute_rem_int_lit8 := _arith_lit8 op_rem.
Definition execute_and_int_lit8 := _arith_lit8 op_and.
Definition execute_or_int_lit8 := _arith_lit8 op_or.
Definition execute_xor_int_lit8 := _arith_lit8 op_xor.
Definition execute_shl_int_lit8 := _arith_lit8 op_shl.
Definition execute_shr_int_lit8 := _arith_lit8 op_shr.
Definition execute_ushr_int_lit8 := _arith_lit8 op_ushr.

(** *** long-to-int, the one place that narrows to a signed 32-bit value *)

Definition execute_long_to_int (vm : DalvikVM) : res DalvikVM :=
  byte1 ← code_at vm (pc vm);
  let dst := Z.land byte1 0xF in
  let src := Z.shiftr byte1 4 in
  v ← get_int (registers vm) src;
  let val := Z.land v 0xFFFFFFFF in
  let val := if 0x7FFFFFFF <? val then val - 0x100000000 else val in
  vm ← write_reg vm dst (VInt val);
  Ok (set_pc vm (pc vm + 1)).

(** *** Long arithmetic.  The module binds [execute_add_long] and its
    siblings twice; the later definitions, through these helpers, are the
    ones the dispatch table imports. *)

Definition _arith_long_23x (op_func : Z -> Z -> Z) (vm : DalvikVM) : res DalvikVM :=
  aa ← code_at vm (pc vm);
  bb ← code_at vm (pc vm + 1);
  cc ← code_at vm (pc vm + 2);
  v_b ← get_int (registers vm) bb;
  v_c ← get_int (registers vm) cc;
  let result := op_func v_b v_c in
  vm ← write_reg vm aa (VInt result);
  vm ← write_reg vm (aa + 1) VNone;
  Ok (set_pc vm (pc vm + 3)).

Definition execute_add_long := _arith_long_23x op_add.
Definition execute_sub_long := _arith_long_23x op_sub.
Definition execute_mul_long := _arith_long_23x op_mul.
Definition execute_div_long := _arith_long_23x op_div.
Definition execute_rem_long := _arith_long_23x op_rem.
Definition execute_and_long := _arith_long_23x op_and.
Definition execute_or_long := _arith_long_23x op_or.
Definition execute_xor_long := _arith_long_23x op_xor.
Definition execute_shl_long := _arith_long_23x op_shl_long.
Definition execute_shr_long := _arith_long_23x op_shr_long.
Definition execute_ushr_long := _arith_long_23x op_ushr_long.

Definition _arith_long_2addr (op_func : Z -> Z -> Z) (vm : DalvikVM) : res DalvikVM :=
  byte1 ← code_at vm (pc vm);
  let dst := Z.land byte1 0xF in
  let src := Z.shiftr byte1 4 in
  v_a ← get_int (registers vm) dst;
  v_b ← get_int (registers vm) src;
  let result := op_func v_a v_b in
  vm ← write_reg vm dst (VInt result);
  vm ← write_reg vm (dst + 1) VNone;
  Ok (set_pc vm (pc vm + 1)).

Definition execute_add_long_2addr := _arith_long_2addr op_add.
Definition execute_sub_long_2addr := _arith_long_2addr op_sub.
Definition execute_mul_long_2addr := _arith_long_2addr op_mul.
Definition execute_div_long_2addr := _arith_long_2addr op_div.
Definition execute_rem_long_2addr := _arith_long_2addr op_rem.
Definition execute_and_long_2addr := _arith_long_2addr op_and.
Definition execute_or_long_2addr := _arith_long_2addr op_or.
Definition execute_xor_long_2addr := _arith_long_2addr op_xor.
Definition execute_shl_long_2addr := _arith_long_2addr op_shl_long.
Definition execute_shr_long_2addr := _arith_long_2addr op_shr_long.
Definition execute_ushr_long_2addr := _arith_long_2addr op_ushr_long.

(** *** Float and double arithmetic *)

Definition fop_add (a b : float) : float := PrimFloat.add a b.
Definition fop_sub (a b : float) : float := PrimFloat.sub a b.
Definition fop_mul (a b : float) : float := PrimFloat.mul a b.
Definition fop_div (a b : float) : float :=
  if float_nonzero b then PrimFloat.div a b else PrimFloat.infinity.
Definition fop_rem (a b : float) : float :=
  if float_nonzero b then float_mod a b else PrimFloat.nan.

(** [vm.registers[r].value if vm.registers[r] else 0.0]: a
    [RegisterValue] is always truthy. *)
Definition reg_value (vm : DalvikVM) (r : Z) : res pyval :=
  rv ← reg_get (registers vm) r; Ok (value rv).

Definition _arith_float_23x (op_func : float -> float -> float) (vm : DalvikVM) : res DalvikVM :=
  aa ← code_at vm (pc vm);
  bb ← code_at vm (pc vm + 1);
  cc ← code_at vm (pc vm + 2);
  v_b ← reg_value vm bb;
  v_c ← reg_value vm cc;
  f_b ← py_float v_b;
  f_c ← py_float v_c;
  let result := op_func f_b f_c in
  vm ← write_reg vm aa (VFloat result);
  Ok (set_pc vm (pc vm + 3)).

Definition execute_add_float := _arith_float_23x fop_add.
Definition execute_sub_float := _arith_float_23x fop_sub.
Definition execute_mul_float := _arith_float_23x fop_mul.
Definition execute_div_float := _arith_float_23x fop_div.
Definition execute_rem_float := _arith_float_23x fop_rem.

Definition _arith_float_2addr (op_func : float -> float -> float) (vm : DalvikVM) : res DalvikVM :=
  byte1 ← code_at vm (pc vm);
  let dst := Z.land byte1 0xF in
  let src := Z.shiftr byte1 4 in
  v_a ← reg_value vm dst;
  v_b ← reg_value vm src;
  f_a ← py_float v_a;
  f_b ← py_float v_b;
  let result := op_func f_a f_b in
  vm ← write_reg vm dst (VFloat result);
  Ok (set_pc vm (pc vm + 1)).

Definition execute_add_float_2addr := _arith_float_2addr fop_add.
Definition execute_sub_float_2addr := _arith_float_2addr fop_sub.
Definition execute_mul_float_2addr := _arith_float_2addr fop_mul.
Definition execute_div_float_2addr := _arith_float_2addr fop_div.
Definition execute_rem_float_2addr := _arith_float_2addr fop_rem.

Definition _arith_double_23x (op_func : float -> float -> float) (vm : DalvikVM) : res DalvikVM :=
  aa ← code_at vm (pc vm);
  bb ← code_at vm (pc vm + 1);
  cc ← code_at vm (pc vm + 2);
  v_b ← reg_value vm bb;
  v_c ← reg_value vm cc;
  f_b ← py_float v_b;
  f_c ← py_float v_c;
  let result := op_func f_b f_c in
  vm ← write_reg vm aa (VFloat result);
  vm ← write_reg vm (aa + 1) VNone;
  Ok (set_pc vm (pc vm + 3)).

Definition execute_add_double := _arith_double_23x fop_add.
Definition execute_sub_double := _arith_double_23x fop_sub.
Definition execute_mul_double := _arith_double_23x fop_mul.
Definition execute_div_double := _arith_double_23x fop_div.
Definition execute_rem_double := _arith_double_23x fop_rem.

Definition _arith_double_2addr (op_func : float -> float -> float) (vm : DalvikVM) : res DalvikVM :=
  byte1 ← code_at vm (pc vm);
  let dst := Z.land byte1 0xF in
  let src := Z.shiftr byte1 4 in
  v_a ← reg_value vm dst;
  v_b ← reg_value vm src;
  f_a ← py_float v_a;
  f_b ← py_float v_b;
  let result := op_func f_a f_b in
  vm ← write_reg vm dst (VFloat result);
  vm ← write_reg vm (dst + 1) VNone;
  Ok (set_pc vm (pc vm + 1)).

Definition execute_add_double_2addr := _arith_double_2addr fop_add.
Definition execute_sub_double_2addr := _arith_double_2addr fop_sub.
Definition execute_mul_double_2addr := _arith_double_2addr fop_mul.
Definition execute_div_double_2addr := _arith_double_2addr fop_div.
Definition execute_rem_double_2addr := _arith_double_2addr fop_rem.

End Arithmetic.

Export Arithmetic.

(* ===================================================================== *)
(** ** Python strings *)
(* ===================================================================== *)

(** A Python [str] is modelled by a [string] whose characters are the code
    points below 256; the character classes below are Python's on that
    range. *)
Module PyStr.


Definition code (c : ascii) : Z := Z.of_N (Ascii.N_of_ascii c).

(** [c.isspace()] *)
Definition isspace (c : ascii) : bool :=
  let n := code c in
  ((9 <=? n) && (n <=? 13)) || ((28 <=? n) && (n <=? 32)) || (n =? 133) || (n =? 160).

Definition is_ascii_digit (c : ascii) : bool :=
  let n := code c in (48 <=? n) && (n <=? 57).

(** [c.isdigit()]: the ASCII digits and the superscripts [²], [³], [¹]. *)
Definition isdigit_char (c : ascii) : bool :=
  let n := code c in
  is_ascii_digit c || (n =? 178) || (n =? 179) || (n =? 185).

Fixpoint forall_chars (p : ascii -> bool) (s : string) : bool :=
  match s with
  | EmptyString => true
  | String c s' => p c && forall_chars p s'
  end.

(** [s.isdigit()]: false for the empty string. *)
Definition isdigit (s : string) : bool :=
  match s with
  | EmptyString => false
  | _ => forall_chars isdigit_char s
  end.

Fixpoint int_digits (s : string) (acc : Z) : Z :=
  match s with
  | EmptyString => acc
  | String c s' => int_digits s' (10 * acc + (code c - 48))
  end.

(** [int(s)] on a string that passed [isdigit]: a superscript digit is
    rejected with [ValueError]. *)
Definition int_of (s : string) : res Z :=
  match s with
  | EmptyString => Raise ValueError
  | _ => if forall_chars is_ascii_digit s then Ok (int_digits s 0) else Raise ValueError
  end.

(** [s.startswith(p)] *)
Fixpoint startswith (s p : string) : bool :=
  match p, s with
  | EmptyString, _ => true
  | String a p', String b s' => Ascii.eqb a b && startswith s' p'
  | String _ _, EmptyString => false
  end.

(** [p in s] *)
Fixpoint contains (p s : string) : bool :=
  startswith s p ||
  match s with
  | EmptyString => false
  | String _ s' => contains p s'
  end.

(** [s[1:]] *)
Definition tail (s : string) : string :=
  match s with
  | EmptyString => EmptyString
  | String _ s' => s'
  end.

Fixpoint lstrip_char (ch : ascii) (s : string) : string :=
  match s with
  | String c s' => if Ascii.eqb c ch then lstrip_char ch s' else s
  | EmptyString => EmptyString
  end.

(** [s.rstrip(ch)] for a one-character argument. *)
Fixpoint rstrip_char (ch : ascii) (s : string) : string :=
  match s with
  | EmptyString => EmptyString
  | String c s' =>
      match rstrip_char ch s' with
      | EmptyString => if Ascii.eqb c ch then EmptyString else String c EmptyString
      | r => String c r
      end
  end.

(** [s.strip(ch)] for a one-character argument. *)
Definition strip_char (ch : ascii) (s : string) : string :=
  rstrip_char ch (lstrip_char ch s).

(** [s.split()]: the maximal runs of non-whitespace characters.  [cur] is
    the run being read, [None] between runs. *)
Fixpoint split_ws_go (s : string) (cur : option string) : list string :=
  match s with
  | EmptyString => match cur with Some w => [w] | None => [] end
  | String c s' =>
      if isspace c
      then match cur with
           | Some w => w :: split_ws_go s' None
           | None => split_ws_go s' None
           end
      else split_ws_go s' (Some (match cur with Some w => String.append w (String c EmptyString)
                                           | None => String c EmptyString end))
  end.

Definition split (s : string) : list string := split_ws_go s None.

(** [s.split(sep)] for a non-empty separator: [skip] counts the characters
    of a separator still to be passed over. *)
Fixpoint split_on_go (sep s : string) (skip : nat) (cur : string) : list string :=
  match s with
  | EmptyString => [cur]
  | String c s' =>
      match skip with
      | S k => split_on_go sep s' k cur
      | O =>
          if startswith s sep
          then cur :: split_on_go sep s' (String.length sep - 1) EmptyString
          else split_on_go sep s' O (String.append cur (String c EmptyString))
      end
  end.

Definition split_on (sep s : string) : list string := split_on_go sep s O EmptyString.

Fixpoint string_drop (n : nat) (s : string) : string :=
  match n, s with
  | O, _ => s
  | S k, String _ s' => string_drop k s'
  | S _, EmptyString => EmptyString
  end.

(** [s.split(sep, 1)]: at most one cut. *)
Fixpoint split_once_go (sep s : string) (cur : string) : list string :=
  match s with
  | EmptyString => [cur]
  | String c s' =>
      if startswith s sep
      then [cur; string_drop (String.length sep) s]
      else split_once_go sep s' (String.append cur (String c EmptyString))
  end.

Definition split_once (sep s : string) : list string := split_once_go sep s EmptyString.

(** [s.replace(' ', '')] *)
Fixpoint remove_spaces (s : string) : string :=
  match s with
  | EmptyString => EmptyString
  | String c s' => if Ascii.eqb c " "%char then remove_spaces s' else String c (remove_spaces s')
  end.

(** [str(n)] for an [int]. *)
Definition str_of_int (n : Z) : string := pretty n.

End PyStr.

(* ===================================================================== *)
(** ** [dalvik_vm/opcodes/array.py] *)
(* ===================================================================== *)

Module ArrayOps.

(** The array behind a handle. *)
Definition array_at (w : World) (h : nat) : res DalvikArray :=
  of_option NotModelled (arrays w !! h).

(** [arr.data[i] = v] for [i >= 0] on the array behind handle [h]. *)
Definition array_store (w : World) (h : nat) (i : Z) (v : pyval) : res World :=
  arr ← array_at w h;
  if Z.of_nat (length (data arr)) <=? i then Raise IndexError
  else
    let arr' := {| type_desc := type_desc arr; size := size arr;
                   data := <[Z.to_nat i := v]> (data arr) |} in
    Ok (set_arrays w (<[h := arr']> (arrays w))).

Definition execute_array_length (vm : DalvikVM) (w : World) : res (DalvikVM * World) :=
  byte1 ← code_at vm (pc vm);
  let reg_dest := Z.land byte1 0xF in
  let reg_array := Z.shiftr byte1 4 in
  arr ← reg_value vm reg_array;
  length ← match arr with
           | VArr h => a ← array_at w h; Ok (size a)
           | _ => Ok 0
           end;
  vm ← write_reg vm reg_dest (VInt length);
  Ok (set_pc vm (pc vm + 1), w).

Definition execute_new_array (vm : DalvikVM) (w : World) : res (DalvikVM * World) :=
  byte1 ← code_at vm (pc vm);
  let reg_dest := Z.land byte1 0xF in
  let reg_size := Z.shiftr byte1 4 in
  let type_idx := read_u16 vm (pc vm + 1) in
  sz ← get_int (registers vm) reg_size;
  let '(h, w) := alloc_array w (new_DalvikArray (TypeIdx type_idx) sz) in
  vm ← write_reg vm reg_dest (VArr h);
  Ok (set_pc vm (pc vm + 3), w).

(** The loop of [execute_filled_new_array]: an unreadable register is
    skipped, as is a register holding [None]. *)
Fixpoint filled_loop (vm : DalvikVM) (regs : list Z) (i : nat) (d : list pyval) : list pyval :=
  match regs with
  | [] => d
  | reg :: regs' =>
      let d' :=
        match reg_get (registers vm) reg with
        | Ok reg_val =>
            match value reg_val with
            | VNone => d
            | v => <[i := v]> d
            end
        | Raise _ => d
        end in
      filled_loop vm regs' (S i) d'
  end.

Definition execute_filled_new_array (vm : DalvikVM) (w : World) : res (DalvikVM * World) :=
  byte1 ← code_at vm (pc vm);
  let arg_count := Z.land (Z.shiftr byte1 4) 0xF in
  let reg_g := Z.land byte1 0xF in
  let type_idx := read_u16 vm (pc vm + 1) in
  byte_dc ← code_at vm (pc vm + 3);
  byte_fe ← code_at vm (pc vm + 4);
  let reg_c := Z.land byte_dc 0xF in
  let reg_d := Z.land (Z.shiftr byte_dc 4) 0xF in
  let reg_e := Z.land byte_fe 0xF in
  let reg_f := Z.land (Z.shiftr byte_fe 4) 0xF in
  let regs :=
    (if 1 <=? arg_count then [reg_c] else []) ++
    (if 2 <=? arg_count then [reg_d] else []) ++
    (if 3 <=? arg_count then [reg_e] else []) ++
    (if 4 <=? arg_count then [reg_f] else []) ++
    (if 5 <=? arg_count then [reg_g] else []) in
  let arr := new_DalvikArray (TypeIdx type_idx) arg_count in
  let arr := {| type_desc := type_desc arr; size := size arr;
                data := filled_loop vm regs 0 (data arr) |} in
  let '(h, w) := alloc_array w arr in
  let vm := set_last_result vm (Some (mkRegisterValue (VArr h))) in
  Ok (set_pc vm (pc vm + 5), w).

Definition execute_filled_new_array_range (vm : DalvikVM) (w : World) : res (DalvikVM * World) :=
  Ok (set_pc vm (pc vm + 5), w).

(** One iteration of the loop of [execute_fill_array_data]. *)
Definition fill_element (vm : DalvikVM) (h : nat) (element_width data_start i : Z)
    (w : World) : res World :=
  if element_width =? 1 then
    b ← code_at vm (data_start + i);
    array_store w h i (VInt b)
  else if element_width =? 2 then
    array_store w h i
      (VInt (Py.from_bytes
               (Py.slice (bytecode vm) (data_start + i * 2) (data_start + i * 2 + 2)) false))
  else if element_width =? 4 then
    array_store w h i
      (VInt (Py.from_bytes
               (Py.slice (bytecode vm) (data_start + i * 4) (data_start + i * 4 + 4)) true))
  else Ok w.

(** [for i in range(n)], from [i] upwards. *)
Fixpoint fill_loop (vm : DalvikVM) (h : nat) (element_width data_start : Z)
    (n : nat) (i : Z) (w : World) : res World :=
  match n with
  | O => Ok w
  | S n' =>
      w ← fill_element vm h element_width data_start i w;
      fill_loop vm h element_width data_start n' (i + 1) w
  end.

Definition execute_fill_array_data (vm : DalvikVM) (w : World) : res (DalvikVM * World) :=
  reg ← code_at vm (pc vm);
  let offset := Py.from_bytes (Py.slice (bytecode vm) (pc vm + 1) (pc vm + 5)) true in
  arr ← reg_value vm reg;
  match arr with
  | VArr h =>
      a ← array_at w h;
      let instr_start := pc vm - 1 in
      let payload_addr := instr_start + offset * 2 in
      if Z.of_nat (length (bytecode vm)) <? payload_addr + 8
      then Ok (set_pc vm (pc vm + 5), w)
      else
        let ident := read_u16 vm payload_addr in
        if negb (ident =? 0x0300)
        then Ok (set_pc vm (pc vm + 5), w)
        else
          let element_width := read_u16 vm (payload_addr + 2) in
          let sz := Py.from_bytes
                      (Py.slice (bytecode vm) (payload_addr + 4) (payload_addr + 8)) false in
          let data_start := payload_addr + 8 in
          w ← fill_loop vm h element_width data_start
                (Z.to_nat (Z.min sz (size a))) 0 w;
          Ok (set_pc vm (pc vm + 5), w)
  | _ => Ok (set_pc vm (pc vm + 5), w)
  end.

(** The line printed for an index outside the array. *)
Definition bounds_warning (idx sz : Z) : string :=
  "WARN: Array index out of bounds: " +:+ PyStr.str_of_int idx +:+
  " (size " +:+ PyStr.str_of_int sz +:+ ")".

(** [aget] and its variants (0x44-0x4a). *)
Definition execute_aget (vm : DalvikVM) (w : World) : res (DalvikVM * World) :=
  aa ← code_at vm (pc vm);
  bb ← code_at vm (pc vm + 1);
  cc ← code_at vm (pc vm + 2);
  arr ← reg_value vm bb;
  idx ← get_int (registers vm) cc;
  '(val, w) ←
    match arr with
    | VArr h =>
        a ← array_at w h;
        if (0 <=? idx) && (idx <? size a)
        then v ← Py.index (data a) idx; Ok (v, w)
        else Ok (VInt 0, print w (bounds_warning idx (size a)))
    | _ => Ok (VInt 0, w)
    end;
  vm ← write_reg vm aa val;
  Ok (set_pc vm (pc vm + 3), w).

Definition execute_aget_wide := execute_aget.
Definition execute_aget_object := execute_aget.
Definition execute_aget_boolean := execute_aget.
Definition execute_aget_byte := execute_aget.
Definition execute_aget_char := execute_aget.
Definition execute_aget_short := execute_aget.

(** [aput] and its variants (0x4b-0x51). *)
Definition execute_aput (vm : DalvikVM) (w : World) : res (DalvikVM * World) :=
  aa ← code_at vm (pc vm);
  bb ← code_at vm (pc vm + 1);
  cc ← code_at vm (pc vm + 2);
  val ← get_int (registers vm) aa;
  arr ← reg_value vm bb;
  idx ← get_int (registers vm) cc;
  w ←
    match arr with
    | VArr h =>
        a ← array_at w h;
        if (0 <=? idx) && (idx <? size a)
        then array_store w h idx (VInt val)
        else Ok (print w (bounds_warning idx (size a)))
    | _ => Ok w
    end;
  Ok (set_pc vm (pc vm + 3), w).

Definition execute_aput_wide := execute_aput.
Definition execute_aput_object := execute_aput.
Definition execute_aput_boolean := execute_aput.
Definition execute_aput_byte := execute_aput.
Definition execute_aput_char := execute_aput.
Definition execute_aput_short := execute_aput.

End ArrayOps.

Export ArrayOps.

(* ===================================================================== *)
(** ** [opcodes/const.py], [opcodes/control.py], [opcodes/return_.py],
       [opcodes/move.py]: the handlers used by the programs below *)
(* ===================================================================== *)

Module BasicOps.

Definition execute_const_4 (vm : DalvikVM) : res DalvikVM :=
  byte1 ← code_at vm (pc vm);
  let reg := Z.land byte1 0xF in
  let val := Z.land (Z.shiftr byte1 4) 0xF in
  let val := if 7 <? val then val - 16 else val in
  vm ← write_reg vm reg (VInt val);
  Ok (set_pc vm (pc vm + 1)).

Definition execute_const_16 (vm : DalvikVM) : res DalvikVM :=
  reg ← code_at vm (pc vm);
  let val := Py.from_bytes (Py.slice (bytecode vm) (pc vm + 1) (pc vm + 3)) true in
  vm ← write_reg vm reg (VInt val);
  Ok (set_pc vm (pc vm + 3)).

Definition execute_goto (vm : DalvikVM) : res DalvikVM :=
  let offset := Py.from_bytes (Py.slice (bytecode vm) (pc vm) (pc vm + 1)) true in
  Ok (set_pc vm ((pc vm - 1) + offset * 2)).

Definition execute_goto_16 (vm : DalvikVM) : res DalvikVM :=
  let offset := Py.from_bytes (Py.slice (bytecode vm) (pc vm + 1) (pc vm + 3)) true in
  Ok (set_pc vm ((pc vm - 1) + offset * 2)).

Definition execute_goto_32 (vm : DalvikVM) : res DalvikVM :=
  let offset := Py.from_bytes (Py.slice (bytecode vm) (pc vm + 1) (pc vm + 5)) true in
  Ok (set_pc vm ((pc vm - 1) + offset * 2)).

(** The return handlers; the line they print outside silent mode is not
    recorded. *)
Definition execute_return_void (vm : DalvikVM) : res DalvikVM :=
  let vm := set_finished vm true in
  Ok (set_last_result vm (Some (mkRegisterValue VNone))).

Definition execute_return (vm : DalvikVM) : res DalvikVM :=
  reg ← code_at vm (pc vm);
  rv ← reg_get (registers vm) reg;
  let vm := set_last_result vm (Some rv) in
  let vm := set_finished vm true in
  Ok (set_pc vm (pc vm + 1)).

Definition execute_return_wide := execute_return.
Definition execute_return_object := execute_return.

(** [move-result]: reads the last-result slot; [Registers.__setitem__]
    wraps a [None] slot into a [RegisterValue]. *)
Definition execute_move_result (vm : DalvikVM) : res DalvikVM :=
  reg ← code_at vm (pc vm);
  let result := match last_result vm with
                | Some rv => rv
                | None => mkRegisterValue VNone
                end in
  regs ← reg_set (registers vm) reg result;
  Ok (set_pc (set_registers vm regs) (pc vm + 1)).

Definition execute_move_result_object := execute_move_result.

End BasicOps.

Export BasicOps.

(* ===================================================================== *)
(** ** [dalvik_vm/mocks/dispatch.py] and [dalvik_vm/opcodes/invoke.py] *)
(* ===================================================================== *)

Module Invoke.

(** *** The framework hook tables *)

(** The hook functions named by the tables of [mocks/dispatch.py]. *)
Inductive android_hook :=
| hook_context_get_package_manager
| hook_context_get_package_name
| hook_pm_get_package_info
| hook_pm_get_installed_packages
| hook_signature_to_byte_array
| hook_signature_to_chars_string
| hook_signature_hashcode
| hook_class_getmethod
| hook_class_getfield
| hook_method_invoke
| hook_field_get
| hook_throwable_getcause
| hook_class_forname.

(** Dictionaries iterate in insertion order. *)
Definition ANDROID_VIRTUAL_HOOKS : list (string * android_hook) :=
  [ ("Context;->getPackageManager", hook_context_get_package_manager);
    ("Context;->getPackageName", hook_context_get_package_name);
    ("PackageManager;->getPackageInfo", hook_pm_get_package_info);
    ("PackageManager;->getInstalledPackages", hook_pm_get_installed_packages);
    ("Signature;->toByteArray", hook_signature_to_byte_array);
    ("Signature;->toCharsString", hook_signature_to_chars_string);
    ("Signature;->hashCode", hook_signature_hashcode);
    ("Class;->getMethod", hook_class_getmethod);
    ("Class;->getField", hook_class_getfield);
    ("Method;->invoke", hook_method_invoke);
    ("Field;->get", hook_field_get);
    ("Throwable;->getCause", hook_throwable_getcause) ].

Definition ANDROID_STATIC_HOOKS : list (string * android_hook) :=
  [ ("Class;->forName", hook_class_forname) ].

(** [for pattern, hook in table.items(): if pattern in trace_str: return hook] *)
Fixpoint first_match {A} (table : list (string * A)) (trace_str : string) : option A :=
  match table with
  | [] => None
  | (pattern, h) :: rest =>
      if PyStr.contains pattern trace_str then Some h else first_match rest trace_str
  end.

Definition get_android_virtual_hook (trace_str : string) : option android_hook :=
  first_match ANDROID_VIRTUAL_HOOKS trace_str.

Definition get_android_static_hook (trace_str : string) : option android_hook :=
  first_match ANDROID_STATIC_HOOKS trace_str.

(** *** The branches of the built-in hooks *)

(** The [if]/[elif] chain of [_builtin_virtual_hooks]: which branch a
    trace string selects. *)
Inductive virtual_builtin :=
| vb_append | vb_toString | vb_println | vb_length | vb_charAt | vb_toCharArray
| vb_clone | vb_getBytes | vb_intern | vb_booleanValue | vb_intValue
| vb_list_iterator | vb_list_size | vb_list_get | vb_iterator_hasNext | vb_iterator_next.

Definition select_virtual_builtin (t : string) : option virtual_builtin :=
  let has p := PyStr.contains p t in
  if has "append" && has "Ljava/lang/StringBuilder;" then Some vb_append
  else if has "toString" then Some vb_toString
  else if has "println" && has "Ljava/io/PrintStream;" then Some vb_println
  else if has "length" && has "Ljava/lang/String;" then Some vb_length
  else if has "charAt" && has "Ljava/lang/String;" then Some vb_charAt
  else if has "toCharArray" then Some vb_toCharArray
  else if has "clone" then Some vb_clone
  else if has "getBytes" && has "Ljava/lang/String;" then Some vb_getBytes
  else if has "intern" && has "Ljava/lang/String;" then Some vb_intern
  else if has "booleanValue" && has "Boolean" then Some vb_booleanValue
  else if has "intValue" && has "Integer" then Some vb_intValue
  else if has "Ljava/util/List;->iterator" || has "Ljava/util/ArrayList;->iterator"
    then Some vb_list_iterator
  else if has "Ljava/util/List;->size" || has "Ljava/util/ArrayList;->size"
    then Some vb_list_size
  else if has "Ljava/util/List;->get" || has "Ljava/util/ArrayList;->get"
    then Some vb_list_get
  else if has "Ljava/util/Iterator;->hasNext" then Some vb_iterator_hasNext
  else if has "Ljava/util/Iterator;->next" then Some vb_iterator_next
  else None.

(** The [if]/[elif] chain of [_builtin_static_hooks]. *)
Inductive static_builtin :=
| sb_String_valueOf | sb_Integer_parseInt | sb_Long_parseLong | sb_Math_abs
| sb_Math_max | sb_Math_min | sb_Arrays_copyOf | sb_TextUtils_isEmpty
| sb_Boolean_valueOf | sb_Integer_valueOf | sb_System_arraycopy.

Definition select_static_builtin (t : string) : option static_builtin :=
  let has p := PyStr.contains p t in
  if has "String;->valueOf" then Some sb_String_valueOf
  else if has "Integer;->parseInt" then Some sb_Integer_parseInt
  else if has "Long;->parseLong" then Some sb_Long_parseLong
  else if has "Math;->abs" then Some sb_Math_abs
  else if has "Math;->max" then Some sb_Math_max
  else if has "Math;->min" then Some sb_Math_min
  else if has "Arrays;->copyOf" then Some sb_Arrays_copyOf
  else if has "TextUtils;->isEmpty" then Some sb_TextUtils_isEmpty
  else if has "Boolean;->valueOf" then Some sb_Boolean_valueOf
  else if has "Integer;->valueOf" then Some sb_Integer_valueOf
  else if has "System;->arraycopy" then Some sb_System_arraycopy
  else None.

(** The two constructors that [execute_invoke_direct] emulates. *)
Inductive direct_builtin := db_String_init | db_StringBuilder_init.

Definition select_direct_builtin (t : string) : option direct_builtin :=
  if PyStr.contains "Ljava/lang/String;-><init>" t then Some db_String_init
  else if PyStr.contains "Ljava/lang/StringBuilder;-><init>" t then Some db_StringBuilder_init
  else None.

(** *** Collaborators

    The dispatch of a call is embedded below; what a matched hook then
    computes is not, except for [Class.forName].  A hook receives the
    interpreter, the resolved arguments and the trace string, may update
    the heap, and returns a Python value, [None] included.
    [recursive_execution] stands for the [try] block that runs a method
    obtained from [vm.method_resolver]: [Some r] when the block ran the
    method and left [r] in the callee's last-result slot, [None] when it
    fell through (no code, or an exception that the block swallowed). *)
Definition hook_fn := DalvikVM -> list RegisterValue -> string -> World -> res (pyval * World).

Record Hooks := mkHooks {
  builtin_virtual_body : virtual_builtin -> hook_fn;
  builtin_static_body : static_builtin -> hook_fn;
  builtin_direct_body : direct_builtin -> DalvikVM -> list RegisterValue -> World -> res World;
  android_hook_body : android_hook -> hook_fn;
  method_hook_body : string -> hook_fn;
  recursive_execution :
    resolver -> DalvikVM -> Z -> list RegisterValue -> World ->
    res (option (option RegisterValue) * World)
}.

(** The callback into the class loader:
    [vm.class_loader.resolve_and_execute(method_idx, args, vm, trace_str)]. *)
Definition loader_call := Z -> list RegisterValue -> DalvikVM -> string -> World -> res (pyval * World).

(** [mocks/reflection_hooks.py], [_hook_class_forname] *)
Definition _hook_class_forname : hook_fn := fun vm args trace_str w =>
  let class_obj := new_DalvikObject "Ljava/lang/Class;" in
  let with_attr (o : DalvikObject) (k : string) (v : pyval) : DalvikObject :=
    {| class_name := class_name o; fields := fields o;
       internal_value := internal_value o; attrs := <[k := v]> (attrs o) |} in
  let class_obj := with_attr class_obj "_mock_type" (VStr "Class") in
  class_obj ←
    match args with
    | [] => Ok class_obj
    | a :: _ =>
        match value a with
        | VObj h =>
            o ← of_option NotModelled (objects w !! h);
            match internal_value o with
            | Some v => Ok (with_attr class_obj "_class_name" v)
            | None => Ok class_obj
            end
        | VStr s => Ok (with_attr class_obj "_class_name" (VStr s))
        | _ => Ok class_obj
        end
    end;
  let '(h, w) := alloc_object w class_obj in
  Ok (VObj h, w).

Section Handlers.

Variable H : Hooks.
Variable resolve_and_execute : loader_call.

Definition run_android_hook (h : android_hook) : hook_fn :=
  match h with
  | hook_class_forname => _hook_class_forname
  | _ => android_hook_body H h
  end.

(** [decode_invoke_args] of [opcodes/base.py] (35c format). *)
Definition decode_invoke_args (vm : DalvikVM) : res (Z * list RegisterValue) :=
  byte1 ← code_at vm (pc vm);
  byte2 ← code_at vm (pc vm + 1);
  byte3 ← code_at vm (pc vm + 2);
  byte4 ← code_at vm (pc vm + 3);
  let method_idx := Z.lor byte2 (Z.shiftl byte3 8) in
  let arg_count := Z.land (Z.shiftr byte1 4) 0xF in
  let g := Z.land byte1 0xF in
  let c := Z.land byte4 0xF in
  let d := Z.land (Z.shiftr byte4 4) 0xF in
  let in_range := pc vm + 4 <? Z.of_nat (length (bytecode vm)) in
  e ← (if in_range then b ← code_at vm (pc vm + 4); Ok (Z.land b 0xF) else Ok 0);
  f ← (if in_range then b ← code_at vm (pc vm + 4); Ok (Z.land (Z.shiftr b 4) 0xF) else Ok 0);
  let reg_list := take (Z.to_nat arg_count) [c; d; e; f; g] in
  args ← mapM (reg_get (registers vm)) reg_list;
  Ok (method_idx, args).

(** [_decode_invoke_range_args] (3rc format). *)
Definition _decode_invoke_range_args (vm : DalvikVM) : res (Z * list RegisterValue) :=
  arg_count ← code_at vm (pc vm);
  lo ← code_at vm (pc vm + 1);
  hi ← code_at vm (pc vm + 2);
  let method_idx := Z.lor lo (Z.shiftl hi 8) in
  slo ← code_at vm (pc vm + 3);
  shi ← code_at vm (pc vm + 4);
  let start_reg := Z.lor slo (Z.shiftl shi 8) in
  args ← mapM (fun i => reg_get (registers vm) (start_reg + Z.of_nat i))
              (seq 0 (Z.to_nat arg_count));
  Ok (method_idx, args).

Definition _builtin_virtual_hooks : hook_fn := fun vm args trace_str w =>
  match select_virtual_builtin trace_str with
  | Some b => builtin_virtual_body H b vm args trace_str w
  | None => Ok (VNone, w)
  end.

Definition _builtin_static_hooks : hook_fn := fun vm args trace_str w =>
  match select_static_builtin trace_str with
  | Some b => builtin_static_body H b vm args trace_str w
  | None => Ok (VNone, w)
  end.

(** [result is not None] *)
Definition is_not_None (v : pyval) : bool :=
  match v with VNone => false | _ => true end.

(** [vm.last_result = RegisterValue(v); vm.pc += 5] *)
Definition finish_invoke (vm : DalvikVM) (v : pyval) : DalvikVM :=
  let vm := set_last_result vm (Some (mkRegisterValue v)) in
  set_pc vm (pc vm + 5).

Definition execute_invoke_virtual (vm : DalvikVM) (w : World) : res (DalvikVM * World) :=
  '(method_idx, args) ← decode_invoke_args vm;
  let trace_str := trace_str_of vm in
  match match method_hooks vm with
        | Some get_hook => get_hook trace_str
        | None => None
        end with
  | Some hook_name =>
      '(result, w) ← method_hook_body H hook_name vm args trace_str w;
      let vm := if is_not_None result
                then set_last_result vm (Some (mkRegisterValue result)) else vm in
      Ok (set_pc vm (pc vm + 5), w)
  | None =>
      match get_android_virtual_hook trace_str with
      | Some android_hook =>
          '(result, w) ← run_android_hook android_hook vm args trace_str w;
          Ok (finish_invoke vm result, w)
      | None =>
          '(ret_val, w) ← _builtin_virtual_hooks vm args trace_str w;
          '(ret_val, w) ←
            (if negb (is_not_None ret_val) && class_loader vm then
               let skip_patterns := ["StringBuilder"; "PrintStream"; "System"] in
               let should_try_resolve :=
                 negb (existsb (fun p => PyStr.contains p trace_str) skip_patterns) in
               if should_try_resolve && PyStr.contains "->" trace_str
               then resolve_and_execute method_idx args vm "" w
               else Ok (ret_val, w)
             else Ok (ret_val, w));
          Ok (finish_invoke vm ret_val, w)
      end
  end.

Definition execute_invoke_super := execute_invoke_virtual.
Definition execute_invoke_interface := execute_invoke_virtual.

Definition execute_invoke_direct (vm : DalvikVM) (w : World) : res (DalvikVM * World) :=
  '(method_idx, args) ← decode_invoke_args vm;
  let trace_str := trace_str_of vm in
  w ← match select_direct_builtin trace_str with
      | Some b => builtin_direct_body H b vm args w
      | None => Ok w
      end;
  Ok (set_pc vm (pc vm + 5), w).

Definition execute_invoke_static (vm : DalvikVM) (w : World) : res (DalvikVM * World) :=
  '(method_idx, args) ← decode_invoke_args vm;
  let trace_str := trace_str_of vm in
  '(ret_val, w) ← _builtin_static_hooks vm args trace_str w;
  if is_not_None ret_val then Ok (finish_invoke vm ret_val, w)
  else
    match get_android_static_hook trace_str with
    | Some android_hook =>
        '(result, w) ← run_android_hook android_hook vm args trace_str w;
        Ok (finish_invoke vm result, w)
    | None =>
        '(hooked, w) ←
          match hook vm with
          | Some user => '(result, w) ← user method_idx args w; Ok (result, w)
          | None => Ok (VNone, w)
          end;
        if is_not_None hooked then Ok (finish_invoke vm hooked, w)
        else
          '(recursed, w) ←
            match method_resolver vm with
            | Some r => recursive_execution H r vm method_idx args w
            | None => Ok (None, w)
            end;
          match recursed with
          | Some result => Ok (set_pc (set_last_result vm result) (pc vm + 5), w)
          | None =>
              if class_loader vm then
                '(ret_val, w) ← resolve_and_execute method_idx args vm trace_str w;
                Ok (finish_invoke vm ret_val, w)
              else Ok (finish_invoke vm VNone, w)
          end
    end.

Definition execute_invoke_virtual_range (vm : DalvikVM) (w : World) : res (DalvikVM * World) :=
  '(method_idx, args) ← _decode_invoke_range_args vm;
  let trace_str := trace_str_of vm in
  '(ret_val, w) ← _builtin_virtual_hooks vm args trace_str w;
  '(ret_val, w) ←
    (if negb (is_not_None ret_val) && class_loader vm
     then resolve_and_execute method_idx args vm trace_str w
     else Ok (ret_val, w));
  Ok (finish_invoke vm ret_val, w).

Definition execute_invoke_super_range := execute_invoke_virtual_range.
Definition execute_invoke_direct_range := execute_invoke_virtual_range.
Definition execute_invoke_interface_range := execute_invoke_virtual_range.

Definition execute_invoke_static_range (vm : DalvikVM) (w : World) : res (DalvikVM * World) :=
  '(method_idx, args) ← _decode_invoke_range_args vm;
  let trace_str := trace_str_of vm in
  '(ret_val, w) ← _builtin_static_hooks vm args trace_str w;
  if is_not_None ret_val then
    let v := match ret_val with
             | VStr s => if decide (s = "VOID_HOOK_HANDLED") then VNone else ret_val
             | _ => ret_val
             end in
    Ok (finish_invoke vm v, w)
  else if class_loader vm then
    '(ret_val, w) ← resolve_and_execute method_idx args vm trace_str w;
    Ok (finish_invoke vm ret_val, w)
  else Ok (finish_invoke vm VNone, w).

End Handlers.

End Invoke.

Export Invoke.

(* ===================================================================== *)
(** ** [dalvik_vm/opcodes/__init__.py]: the dispatch table *)
(* ===================================================================== *)

Module Dispatch.

(** One name per handler function that the table mentions. *)
Inductive handler_id :=
| h_nop | h_move | h_move_from16 | h_move_16
| h_move_wide | h_move_wide_from16 | h_move_wide_16 | h_move_result
| h_move_result_wide | h_move_result_object | h_move_exception | h_return_void
| h_return | h_return_wide | h_return_object | h_const_4
| h_const_16 | h_const | h_const_high16 | h_const_wide_16
| h_const_wide_32 | h_const_wide | h_const_wide_high16 | h_const_string
| h_const_class | h_monitor_enter | h_monitor_exit | h_check_cast
| h_instance_of | h_array_length | h_new_instance | h_new_array
| h_filled_new_array | h_filled_new_array_range | h_fill_array_data | h_throw
| h_goto | h_goto_16 | h_goto_32 | h_packed_switch
| h_sparse_switch | h_cmpl_float | h_cmpg_float | h_cmpl_double
| h_cmpg_double | h_cmp_long | h_if_eq | h_if_ne
| h_if_lt | h_if_ge | h_if_gt | h_if_le
| h_if_eqz | h_if_nez | h_if_ltz | h_if_gez
| h_if_gtz | h_if_lez | h_aget | h_aget_wide
| h_aget_object | h_aget_boolean | h_aget_byte | h_aget_char
| h_aget_short | h_aput | h_aput_wide | h_aput_object
| h_aput_boolean | h_aput_byte | h_aput_char | h_aput_short
| h_iget | h_iget_wide | h_iget_object | h_iget_boolean
| h_iget_byte | h_iget_char | h_iget_short | h_iput
| h_iput_wide | h_iput_object | h_iput_boolean | h_iput_byte
| h_iput_char | h_iput_short | h_sget | h_sget_wide
| h_sget_object | h_sget_boolean | h_sget_byte | h_sget_char
| h_sget_short | h_sput | h_sput_wide | h_sput_object
| h_sput_boolean | h_sput_byte | h_sput_char | h_sput_short
| h_invoke_virtual | h_invoke_super | h_invoke_direct | h_invoke_static
| h_invoke_interface | h_invoke_virtual_range | h_invoke_super_range | h_invoke_direct_range
| h_invoke_static_range | h_invoke_interface_range | h_neg_int | h_not_int
| h_neg_long | h_not_long | h_neg_float | h_neg_double
| h_int_to_long | h_int_to_float | h_int_to_double | h_long_to_int
| h_long_to_float | h_long_to_double | h_float_to_int | h_float_to_long
| h_float_to_double | h_double_to_int | h_double_to_long | h_double_to_float
| h_int_to_byte | h_int_to_char | h_int_to_short | h_add_int
| h_sub_int | h_mul_int | h_div_int | h_rem_int
| h_and_int | h_or_int | h_xor_int | h_shl_int
| h_shr_int | h_ushr_int | h_add_long | h_sub_long
| h_mul_long | h_div_long | h_rem_long | h_and_long
| h_or_long | h_xor_long | h_shl_long | h_shr_long
| h_ushr_long | h_add_float | h_sub_float | h_mul_float
| h_div_float | h_rem_float | h_add_double | h_sub_double
| h_mul_double | h_div_double | h_rem_double | h_add_int_2addr
| h_sub_int_2addr | h_mul_int_2addr | h_div_int_2addr | h_rem_int_2addr
| h_and_int_2addr | h_or_int_2addr | h_xor_int_2addr | h_shl_int_2addr
| h_shr_int_2addr | h_ushr_int_2addr | h_add_long_2addr | h_sub_long_2addr
| h_mul_long_2addr | h_div_long_2addr | h_rem_long_2addr | h_and_long_2addr
| h_or_long_2addr | h_xor_long_2addr | h_shl_long_2addr | h_shr_long_2addr
| h_ushr_long_2addr | h_add_float_2addr | h_sub_float_2addr | h_mul_float_2addr
| h_div_float_2addr | h_rem_float_2addr | h_add_double_2addr | h_sub_double_2addr
| h_mul_double_2addr | h_div_double_2addr | h_rem_double_2addr | h_add_int_lit16
| h_rsub_int | h_mul_int_lit16 | h_div_int_lit16 | h_rem_int_lit16
| h_and_int_lit16 | h_or_int_lit16 | h_xor_int_lit16 | h_add_int_lit8
| h_rsub_int_lit8 | h_mul_int_lit8 | h_div_int_lit8 | h_rem_int_lit8
| h_and_int_lit8 | h_or_int_lit8 | h_xor_int_lit8 | h_shl_int_lit8
| h_shr_int_lit8 | h_ushr_int_lit8.

(** The dispatch table [HANDLERS] of [opcodes/__init__.py], entry by entry. *)
Definition HANDLERS (opcode : Z) : option handler_id :=
  match opcode with
  | 0x00 => Some h_nop
  | 0x01 => Some h_move
  | 0x02 => Some h_move_from16
  | 0x03 => Some h_move_16
  | 0x04 => Some h_move_wide
  | 0x05 => Some h_move_wide_from16
  | 0x06 => Some h_move_wide_16
  | 0x07 => Some h_move
  | 0x08 => Some h_move_from16
  | 0x09 => Some h_move_16
  | 0x0a => Some h_move_result
  | 0x0b => Some h_move_result_wide
  | 0x0c => Some h_move_result_object
  | 0x0d => Some h_move_exception
  | 0x0e => Some h_return_void
  | 0x0f => Some h_return
  | 0x10 => Some h_return_wide
  | 0x11 => Some h_return_object
  | 0x12 => Some h_const_4
  | 0x13 => Some h_const_16
  | 0x14 => Some h_const
  | 0x15 => Some h_const_high16
  | 0x16 => Some h_const_wide_16
  | 0x17 => Some h_const_wide_32
  | 0x18 => Some h_const_wide
  | 0x19 => Some h_const_wide_high16
  | 0x1a => Some h_const_string
  | 0x1b => Some h_const_string
  | 0x1c => Some h_const_class
  | 0x1d => Some h_monitor_enter
  | 0x1e => Some h_monitor_exit
  | 0x1f => Some h_check_cast
  | 0x20 => Some h_instance_of
  | 0x21 => Some h_array_length
  | 0x22 => Some h_new_instance
  | 0x23 => Some h_new_array
  | 0x24 => Some h_filled_new_array
  | 0x25 => Some h_filled_new_array_range
  | 0x26 => Some h_fill_array_data
  | 0x27 => Some h_throw
  | 0x28 => Some h_goto
  | 0x29 => Some h_goto_16
  | 0x2a => Some h_goto_32
  | 0x2b => Some h_packed_switch
  | 0x2c => Some h_sparse_switch
  | 0x2d => Some h_cmpl_float
  | 0x2e => Some h_cmpg_float
  | 0x2f => Some h_cmpl_double
  | 0x30 => Some h_cmpg_double
  | 0x31 => Some h_cmp_long
  | 0x32 => Some h_if_eq
  | 0x33 => Some h_if_ne
  | 0x34 => Some h_if_lt
  | 0x35 => Some h_if_ge
  | 0x36 => Some h_if_gt
  | 0x37 => Some h_if_le
  | 0x38 => Some h_if_eqz
  | 0x39 => Some h_if_nez
  | 0x3a => Some h_if_ltz
  | 0x3b => Some h_if_gez
  | 0x3c => Some h_if_gtz
  | 0x3d => Some h_if_lez
  | 0x44 => Some h_aget
  | 0x45 => Some h_aget_wide
  | 0x46 => Some h_aget_object
  | 0x47 => Some h_aget_boolean
  | 0x48 => Some h_aget_byte
  | 0x49 => Some h_aget_char
  | 0x4a => Some h_aget_short
  | 0x4b => Some h_aput
  | 0x4c => Some h_aput_wide
  | 0x4d => Some h_aput_object
  | 0x4e => Some h_aput_boolean
  | 0x4f => Some h_aput_byte
  | 0x50 => Some h_aput_char
  | 0x51 => Some h_aput_short
  | 0x52 => Some h_iget
  | 0x53 => Some h_iget_wide
  | 0x54 => Some h_iget_object
  | 0x55 => Some h_iget_boolean
  | 0x56 => Some h_iget_byte
  | 0x57 => Some h_iget_char
  | 0x58 => Some h_iget_short
  | 0x59 => Some h_iput
  | 0x5a => Some h_iput_wide
  | 0x5b => Some h_iput_object
  | 0x5c => Some h_iput_boolean
  | 0x5d => Some h_iput_byte
  | 0x5e => Some h_iput_char
  | 0x5f => Some h_iput_short
  | 0x60 => Some h_sget
  | 0x61 => Some h_sget_wide
  | 0x62 => Some h_sget_object
  | 0x63 => Some h_sget_boolean
  | 0x64 => Some h_sget_byte
  | 0x65 => Some h_sget_char
  | 0x66 => Some h_sget_short
  | 0x67 => Some h_sput
  | 0x68 => Some h_sput_wide
  | 0x69 => Some h_sput_object
  | 0x6a => Some h_sput_boolean
  | 0x6b => Some h_sput_byte
  | 0x6c => Some h_sput_char
  | 0x6d => Some h_sput_short
  | 0x6e => Some h_invoke_virtual
  | 0x6f => Some h_invoke_super
  | 0x70 => Some h_invoke_direct
  | 0x71 => Some h_invoke_static
  | 0x72 => Some h_invoke_interface
  | 0x74 => Some h_invoke_virtual_range
  | 0x75 => Some h_invoke_super_range
  | 0x76 => Some h_invoke_direct_range
  | 0x77 => Some h_invoke_static_range
  | 0x78 => Some h_invoke_interface_range
  | 0x7b => Some h_neg_int
  | 0x7c => Some h_not_int
  | 0x7d => Some h_neg_long
  | 0x7e => Some h_not_long
  | 0x7f => Some h_neg_float
  | 0x80 => Some h_neg_double
  | 0x81 => Some h_int_to_long
  | 0x82 => Some h_int_to_float
  | 0x83 => Some h_int_to_double
  | 0x84 => Some h_long_to_int
  | 0x85 => Some h_long_to_float
  | 0x86 => Some h_long_to_double
  | 0x87 => Some h_float_to_int
  | 0x88 => Some h_float_to_long
  | 0x89 => Some h_float_to_double
  | 0x8a => Some h_double_to_int
  | 0x8b => Some h_double_to_long
  | 0x8c => Some h_double_to_float
  | 0x8d => Some h_int_to_byte
  | 0x8e => Some h_int_to_char
  | 0x8f => Some h_int_to_short
  | 0x90 => Some h_add_int
  | 0x91 => Some h_sub_int
  | 0x92 => Some h_mul_int
  | 0x93 => Some h_div_int
  | 0x94 => Some h_rem_int
  | 0x95 => Some h_and_int
  | 0x96 => Some h_or_int
  | 0x97 => Some h_xor_int
  | 0x98 => Some h_shl_int
  | 0x99 => Some h_shr_int
  | 0x9a => Some h_ushr_int
  | 0x9b => Some h_add_long
  | 0x9c => Some h_sub_long
  | 0x9d => Some h_mul_long
  | 0x9e => Some h_div_long
  | 0x9f => Some h_rem_long
  | 0xa0 => Some h_and_long
  | 0xa1 => Some h_or_long
  | 0xa2 => Some h_xor_long
  | 0xa3 => Some h_shl_long
  | 0xa4 => Some h_shr_long
  | 0xa5 => Some h_ushr_long
  | 0xa6 => Some h_add_float
  | 0xa7 => Some h_sub_float
  | 0xa8 => Some h_mul_float
  | 0xa9 => Some h_div_float
  | 0xaa => Some h_rem_float
  | 0xab => Some h_add_double
  | 0xac => Some h_sub_double
  | 0xad => Some h_mul_double
  | 0xae => Some h_div_double
  | 0xaf => Some h_rem_double
  | 0xb0 => Some h_add_int_2addr
  | 0xb1 => Some h_sub_int_2addr
  | 0xb2 => Some h_mul_int_2addr
  | 0xb3 => Some h_div_int_2addr
  | 0xb4 => Some h_rem_int_2addr
  | 0xb5 => Some h_and_int_2addr
  | 0xb6 => Some h_or_int_2addr
  | 0xb7 => Some h_xor_int_2addr
  | 0xb8 => Some h_shl_int_2addr
  | 0xb9 => Some h_shr_int_2addr
  | 0xba => Some h_ushr_int_2addr
  | 0xbb => Some h_add_long_2addr
  | 0xbc => Some h_sub_long_2addr
  | 0xbd => Some h_mul_long_2addr
  | 0xbe => Some h_div_long_2addr
  | 0xbf => Some h_rem_long_2addr
  | 0xc0 => Some h_and_long_2addr
  | 0xc1 => Some h_or_long_2addr
  | 0xc2 => Some h_xor_long_2addr
  | 0xc3 => Some h_shl_long_2addr
  | 0xc4 => Some h_shr_long_2addr
  | 0xc5 => Some h_ushr_long_2addr
  | 0xc6 => Some h_add_float_2addr
  | 0xc7 => Some h_sub_float_2addr
  | 0xc8 => Some h_mul_float_2addr
  | 0xc9 => Some h_div_float_2addr
  | 0xca => Some h_rem_float_2addr
  | 0xcb => Some h_add_double_2addr
  | 0xcc => Some h_sub_double_2addr
  | 0xcd => Some h_mul_double_2addr
  | 0xce => Some h_div_double_2addr
  | 0xcf => Some h_rem_double_2addr
  | 0xd0 => Some h_add_int_lit16
  | 0xd1 => Some h_rsub_int
  | 0xd2 => Some h_mul_int_lit16
  | 0xd3 => Some h_div_int_lit16
  | 0xd4 => Some h_rem_int_lit16
  | 0xd5 => Some h_and_int_lit16
  | 0xd6 => Some h_or_int_lit16
  | 0xd7 => Some h_xor_int_lit16
  | 0xd8 => Some h_add_int_lit8
  | 0xd9 => Some h_rsub_int_lit8
  | 0xda => Some h_mul_int_lit8
  | 0xdb => Some h_div_int_lit8
  | 0xdc => Some h_rem_int_lit8
  | 0xdd => Some h_and_int_lit8
  | 0xde => Some h_or_int_lit8
  | 0xdf => Some h_xor_int_lit8
  | 0xe0 => Some h_shl_int_lit8
  | 0xe1 => Some h_shr_int_lit8
  | 0xe2 => Some h_ushr_int_lit8
  | _ => None
  end.

Definition handler := DalvikVM -> World -> res (DalvikVM * World).

(** A handler that does not touch the shared world. *)
Definition pure_handler (f : DalvikVM -> res DalvikVM) : handler :=
  fun vm w => vm ← f vm; Ok (vm, w).

Section Exec.

Variable H : Hooks.
Variable resolve_and_execute : loader_call.

(** What each handler does.  The handlers embedded in this development
    are listed; the remaining ones answer [NotModelled]. *)
Definition exec_handler (h : handler_id) : handler :=
  match h with
  | h_nop => fun vm w => Ok (vm, w)
  | h_move_result => pure_handler execute_move_result
  | h_move_result_object => pure_handler execute_move_result_object
  | h_return_void => pure_handler execute_return_void
  | h_return => pure_handler execute_return
  | h_return_wide => pure_handler execute_return_wide
  | h_return_object => pure_handler execute_return_object
  | h_const_4 => pure_handler execute_const_4
  | h_const_16 => pure_handler execute_const_16
  | h_array_length => execute_array_length
  | h_new_array => execute_new_array
  | h_filled_new_array => execute_filled_new_array
  | h_filled_new_array_range => execute_filled_new_array_range
  | h_fill_array_data => execute_fill_array_data
  | h_goto => pure_handler execute_goto
  | h_goto_16 => pure_handler execute_goto_16
  | h_goto_32 => pure_handler execute_goto_32
  | h_aget => execute_aget
  | h_aget_wide => execute_aget_wide
  | h_aget_object => execute_aget_object
  | h_aget_boolean => execute_aget_boolean
  | h_aget_byte => execute_aget_byte
  | h_aget_char => execute_aget_char
  | h_aget_short => execute_aget_short
  | h_aput => execute_aput
  | h_aput_wide => execute_aput_wide
  | h_aput_object => execute_aput_object
  | h_aput_boolean => execute_aput_boolean
  | h_aput_byte => execute_aput_byte
  | h_aput_char => execute_aput_char
  | h_aput_short => execute_aput_short
  | h_invoke_virtual => execute_invoke_virtual H resolve_and_execute
  | h_invoke_super => execute_invoke_super H resolve_and_execute
  | h_invoke_direct => execute_invoke_direct H
  | h_invoke_static => execute_invoke_static H resolve_and_execute
  | h_invoke_interface => execute_invoke_interface H resolve_and_execute
  | h_invoke_virtual_range => execute_invoke_virtual_range H resolve_and_execute
  | h_invoke_super_range => execute_invoke_super_range H resolve_and_execute
  | h_invoke_direct_range => execute_invoke_direct_range H resolve_and_execute
  | h_invoke_static_range => execute_invoke_static_range H resolve_and_execute
  | h_invoke_interface_range => execute_invoke_interface_range H resolve_and_execute
  | h_long_to_int => pure_handler execute_long_to_int
  | h_add_int => pure_handler execute_add_int
  | h_sub_int => pure_handler execute_sub_int
  | h_mul_int => pure_handler execute_mul_int
  | h_div_int => pure_handler execute_div_int
  | h_rem_int => pure_handler execute_rem_int
  | h_and_int => pure_handler execute_and_int
  | h_or_int => pure_handler execute_or_int
  | h_xor_int => pure_handler execute_xor_int
  | h_shl_int => pure_handler execute_shl_int
  | h_shr_int => pure_handler execute_shr_int
  | h_ushr_int => pure_handler execute_ushr_int
  | h_add_long => pure_handler execute_add_long
  | h_sub_long => pure_handler execute_sub_long
  | h_mul_long => pure_handler execute_mul_long
  | h_div_long => pure_handler execute_div_long
  | h_rem_long => pure_handler execute_rem_long
  | h_and_long => pure_handler execute_and_long
  | h_or_long => pure_handler execute_or_long
  | h_xor_long => pure_handler execute_xor_long
  | h_shl_long => pure_handler execute_shl_long
  | h_shr_long => pure_handler execute_shr_long
  | h_ushr_long => pure_handler execute_ushr_long
  | h_add_float => pure_handler execute_add_float
  | h_sub_float => pure_handler execute_sub_float
  | h_mul_float => pure_handler execute_mul_float
  | h_div_float => pure_handler execute_div_float
  | h_rem_float => pure_handler execute_rem_float
  | h_add_double => pure_handler execute_add_double
  | h_sub_double => pure_handler execute_sub_double
  | h_mul_double => pure_handler execute_mul_double
  | h_div_double => pure_handler execute_div_double
  | h_rem_double => pure_handler execute_rem_double
  | h_add_int_2addr => pure_handler execute_add_int_2addr
  | h_sub_int_2addr => pure_handler execute_sub_int_2addr
  | h_mul_int_2addr => pure_handler execute_mul_int_2addr
  | h_div_int_2addr => pure_handler execute_div_int_2addr
  | h_rem_int_2addr => pure_handler execute_rem_int_2addr
  | h_and_int_2addr => pure_handler execute_and_int_2addr
  | h_or_int_2addr => pure_handler execute_or_int_2addr
  | h_xor_int_2addr => pure_handler execute_xor_int_2addr
  | h_shl_int_2addr => pure_handler execute_shl_int_2addr
  | h_shr_int_2addr => pure_handler execute_shr_int_2addr
  | h_ushr_int_2addr => pure_handler execute_ushr_int_2addr
  | h_add_long_2addr => pure_handler execute_add_long_2addr
  | h_sub_long_2addr => pure_handler execute_sub_long_2addr
  | h_mul_long_2addr => pure_handler execute_mul_long_2addr
  | h_div_long_2addr => pure_handler execute_div_long_2addr
  | h_rem_long_2addr => pure_handler execute_rem_long_2addr
  | h_and_long_2addr => pure_handler execute_and_long_2addr
  | h_or_long_2addr => pure_handler execute_or_long_2addr
  | h_xor_long_2addr => pure_handler execute_xor_long_2addr
  | h_shl_long_2addr => pure_handler execute_shl_long_2addr
  | h_shr_long_2addr => pure_handler execute_shr_long_2addr
  | h_ushr_long_2addr => pure_handler execute_ushr_long_2addr
  | h_add_float_2addr => pure_handler execute_add_float_2addr
  | h_sub_float_2addr => pure_handler execute_sub_float_2addr
  | h_mul_float_2addr => pure_handler execute_mul_float_2addr
  | h_div_float_2addr => pure_handler execute_div_float_2addr
  | h_rem_float_2addr => pure_handler execute_rem_float_2addr
  | h_add_double_2addr => pure_handler execute_add_double_2addr
  | h_sub_double_2addr => pure_handler execute_sub_double_2addr
  | h_mul_double_2addr => pure_handler execute_mul_double_2addr
  | h_div_double_2addr => pure_handler execute_div_double_2addr
  | h_rem_double_2addr => pure_handler execute_rem_double_2addr
  | h_add_int_lit16 => pure_handler execute_add_int_lit16
  | h_rsub_int => pure_handler execute_rsub_int
  | h_mul_int_lit16 => pure_handler execute_mul_int_lit16
  | h_div_int_lit16 => pure_handler execute_div_int_lit16
  | h_rem_int_lit16 => pure_handler execute_rem_int_lit16
  | h_and_int_lit16 => pure_handler execute_and_int_lit16
  | h_or_int_lit16 => pure_handler execute_or_int_lit16
  | h_xor_int_lit16 => pure_handler execute_xor_int_lit16
  | h_add_int_lit8 => pure_handler execute_add_int_lit8
  | h_rsub_int_lit8 => pure_handler execute_rsub_int_lit8
  | h_mul_int_lit8 => pure_handler execute_mul_int_lit8
  | h_div_int_lit8 => pure_handler execute_div_int_lit8
  | h_rem_int_lit8 => pure_handler execute_rem_int_lit8
  | h_and_int_lit8 => pure_handler execute_and_int_lit8
  | h_or_int_lit8 => pure_handler execute_or_int_lit8
  | h_xor_int_lit8 => pure_handler execute_xor_int_lit8
  | h_shl_int_lit8 => pure_handler execute_shl_int_lit8
  | h_shr_int_lit8 => pure_handler execute_shr_int_lit8
  | h_ushr_int_lit8 => pure_handler execute_ushr_int_lit8
  | _ => fun _ _ => Raise NotModelled
  end.

End Exec.

End Dispatch.

Export Dispatch.

(* ===================================================================== *)
(** ** [dalvik_vm/class_loader.py] *)
(* ===================================================================== *)

Module ClassLoader.

(** What the loader reads from the Androguard analysis [dx] and from the
    parser.  A method carries its class name, name and descriptor, and,
    when it has a code item, the raw bytecode, the register count and the
    trace map that [build_trace] produces for it; an external method has
    no code.  A class carries its static fields with their initial value,
    if it declares one. *)
Record EncodedMethod := mkMethod {
  get_class_name : string;
  get_name : string;
  get_descriptor : string;
  get_code : option (list byte * Z * trace_map_t)
}.

Record ClassDef := mkClassDef {
  cd_name : string;
  cd_fields : list (string * option pyval)
}.

Record LazyClassLoader := mkLoader {
  dx_methods : list EncodedMethod;
  dx_classes : list ClassDef;
  parser_methods : list (string * string);
  parser_strings : gmap Z string
}.

(** [DexParser.get_method_name] *)
Definition get_method_name (cl : LazyClassLoader) (method_idx : Z) : string :=
  match (if Z.of_nat (length (parser_methods cl)) <=? method_idx then None
         else match Py.index (parser_methods cl) method_idx with
              | Ok m => Some m
              | Raise _ => None
              end) with
  | Some (c, n) => c +:+ "->" +:+ n
  | None => "method_" +:+ PyStr.str_of_int method_idx
  end.

(** [LazyClassLoader.find_method]; the caches only memoise the search. *)
Definition find_method (cl : LazyClassLoader) (cls name : string) : option EncodedMethod :=
  List.find (fun em => bool_decide (get_class_name em = cls) && bool_decide (get_name em = name))
            (dx_methods cl).

(** [LazyClassLoader.find_method_by_idx] *)
Definition find_method_by_idx (cl : LazyClassLoader) (method_idx : Z) : option EncodedMethod :=
  let method_full_name := get_method_name cl method_idx in
  if negb (PyStr.contains "->" method_full_name) then None
  else
    match PyStr.split_on "->" method_full_name with
    | cls :: method_with_sig :: _ =>
        let method_name := match PyStr.split_on "(" method_with_sig with
                           | n :: _ => n
                           | [] => ""
                           end in
        find_method cl cls method_name
    | _ => None
    end.

(** [LazyClassLoader.find_method_with_sig] *)
Definition find_method_with_sig (cl : LazyClassLoader) (cls name : string)
    (expected_sig : option string) : option EncodedMethod :=
  List.find
    (fun em =>
       bool_decide (get_class_name em = cls) && bool_decide (get_name em = name) &&
       match expected_sig with
       | Some sig =>
           if bool_decide (sig = "") then true
           else bool_decide (PyStr.remove_spaces (get_descriptor em) = PyStr.remove_spaces sig)
       | None => true
       end)
    (dx_methods cl).

(** The longest prefix of [s] whose characters satisfy [p], and the rest. *)
Fixpoint span (p : ascii -> bool) (s : string) : string * string :=
  match s with
  | String c s' =>
      if p c then let '(a, b) := span p s' in (String c a, b) else (EmptyString, s)
  | EmptyString => (EmptyString, EmptyString)
  end.

(** [[\w\u0080-￿]] *)
Definition is_word_char (c : ascii) : bool :=
  let n := PyStr.code c in
  ((48 <=? n) && (n <=? 57)) || ((65 <=? n) && (n <=? 90)) ||
  ((97 <=? n) && (n <=? 122)) || (n =? 95) || (128 <=? n).

(** A match of [L[^;]+;->[\w\u0080-￿]+\([^)]*\)[^\s,]*] at the start
    of [s].  Every repetition is followed by a character outside its
    class, so the greedy match is the only candidate. *)
Definition match_method_ref (s : string) : option string :=
  match s with
  | String "L" r =>
      let '(cls, r1) := span (fun c => negb (Ascii.eqb c ";")) r in
      if bool_decide (cls = "") then None
      else if PyStr.startswith r1 ";->" then
        let r2 := PyStr.string_drop 3 r1 in
        let '(name, r3) := span is_word_char r2 in
        if bool_decide (name = "") then None
        else
          match r3 with
          | String "(" r4 =>
              let '(params, r5) := span (fun c => negb (Ascii.eqb c ")")) r4 in
              match r5 with
              | String ")" r6 =>
                  let '(ret, _) :=
                    span (fun c => negb (PyStr.isspace c || Ascii.eqb c ",")) r6 in
                  Some ("L" +:+ cls +:+ ";->" +:+ name +:+ "(" +:+ params +:+ ")" +:+ ret)
              | _ => None
              end
          | _ => None
          end
      else None
  | _ => None
  end.

(** [re.search]: the leftmost match. *)
Fixpoint search_method_ref (s : string) : option string :=
  match match_method_ref s with
  | Some m => Some m
  | None =>
      match s with
      | String _ s' => search_method_ref s'
      | EmptyString => None
      end
  end.

(** [LazyClassLoader.find_method_by_trace] *)
Definition find_method_by_trace (cl : LazyClassLoader) (trace_str : string)
    : option EncodedMethod :=
  if bool_decide (trace_str = "") || negb (PyStr.contains "->" trace_str) then None
  else
    let method_part :=
      match search_method_ref trace_str with
      | Some m => Some m
      | None =>
          match List.find (fun part => PyStr.startswith part "L" && PyStr.contains "->" part)
                          (PyStr.split trace_str) with
          | Some part => Some (PyStr.rstrip_char "," part)
          | None => None
          end
      end in
    match method_part with
    | None => None
    | Some method_part =>
        if bool_decide (method_part = "") then None
        else if PyStr.contains "->" method_part then
          match PyStr.split_on "->" method_part with
          | cls :: method_with_sig :: _ =>
              let method_name := match PyStr.split_on "(" method_with_sig with
                                 | n :: _ => n
                                 | [] => ""
                                 end in
              let full_sig :=
                if PyStr.contains "(" method_with_sig then
                  match PyStr.split_once "(" method_with_sig with
                  | _ :: rest :: _ => Some ("(" +:+ rest)
                  | _ => None
                  end
                else None in
              find_method_with_sig cl cls method_name full_sig
          | _ => None
          end
        else None
    end.

(** [LazyClassLoader.get_method_bytecode] *)
Definition get_method_bytecode (method : EncodedMethod) : option (list byte * Z * trace_map_t) :=
  get_code method.

(** [LazyClassLoader._is_external_sdk_class] *)
Definition _is_external_sdk_class (cls : string) : bool :=
  existsb (PyStr.startswith cls)
    ["Ljava/"; "Ljavax/"; "Landroid/"; "Ldalvik/"; "Lsun/"; "Lorg/apache/";
     "Lorg/xml/"; "Lorg/w3c/"; "Lorg/json/"; "Ljunit/"].

(** [LazyClassLoader._load_static_field_values] *)
Definition _load_static_field_values (cl : LazyClassLoader) (cls : string)
    (st : StaticFieldStore) : StaticFieldStore :=
  if _is_external_sdk_class cls then st
  else
    match List.find (fun ca => bool_decide (cd_name ca = cls)) (dx_classes cl) with
    | Some ca =>
        fold_left
          (fun st f => match f with
                       | (field_name, Some raw_val) => store_set st cls field_name raw_val
                       | (_, None) => st
                       end)
          (cd_fields ca) st
    | None => st
    end.

Definition hex_digit (n : Z) : string :=
  match n with
  | 0 => "0" | 1 => "1" | 2 => "2" | 3 => "3" | 4 => "4" | 5 => "5" | 6 => "6" | 7 => "7"
  | 8 => "8" | 9 => "9" | 10 => "a" | 11 => "b" | 12 => "c" | 13 => "d" | 14 => "e"
  | _ => "f"
  end.

(** [f"{opcode:02x}"] for a byte. *)
Definition hex02 (n : Z) : string := hex_digit (n / 16) +:+ hex_digit (n mod 16).

Section Body.

Variable H : Hooks.
Variable cl : LazyClassLoader.

(** The nested call that an invoke handler makes into the loader. *)
Variable nested : loader_call.

(** The loop of [_run_clinit]; [fuel] is [max_steps - step].  The result
    carries the final value of [step]. *)
Fixpoint clinit_loop (fuel : nat) (step : Z) (vm : DalvikVM) (w : World)
    : res (DalvikVM * World * Z) :=
  match fuel with
  | O => Ok (vm, w, step)
  | S fuel' =>
      if pc vm <? Z.of_nat (length (bytecode vm)) then
        opcode ← code_at vm (pc vm);
        let vm := set_pc vm (pc vm + 1) in
        if opcode =? 0x0e then Ok (vm, w, step)
        else
          match HANDLERS opcode with
          | Some h =>
              '(vm, w) ← exec_handler H nested h vm w;
              clinit_loop fuel' (step + 1) vm w
          | None => Ok (vm, w, step)
          end
      else Ok (vm, w, step)
  end.

(** [LazyClassLoader._run_clinit]; the result carries the number of
    steps that the initializer took, 0 when none was run. *)
Definition _run_clinit_steps (cls : string) (w : World) : res (World * Z) :=
  if is_class_initialized (store w) cls then Ok (w, 0)
  else
    let w := set_store w (_load_static_field_values cl cls (store w)) in
    match find_method cl cls "<clinit>" with
    | None => Ok (set_store w (mark_class_initialized (store w) cls), 0)
    | Some clinit =>
        match get_method_bytecode clinit with
        | None => Ok (set_store w (mark_class_initialized (store w) cls), 0)
        | Some (code, regs_size, trace) =>
            let vm := new_VM code (parser_strings cl) regs_size in
            let vm := set_trace_map vm trace in
            let vm := set_class_loader vm true in
            let vm := set_silent_mode vm true in
            let max_steps := 500%nat in
            '(vm, w, step) ← clinit_loop max_steps 0 vm w;
            Ok (set_store w (mark_class_initialized (store w) cls), step)
        end
    end.

Definition _run_clinit (cls : string) (w : World) : res World :=
  '(w, _) ← _run_clinit_steps cls w; Ok w.

(** The loop of [execute_method]. *)
Fixpoint method_loop (name : string) (fuel : nat) (step : Z) (vm : DalvikVM) (w : World)
    : res (DalvikVM * World * Z) :=
  match fuel with
  | O => Ok (vm, w, step)
  | S fuel' =>
      if pc vm <? Z.of_nat (length (bytecode vm)) then
        if finished vm then Ok (vm, w, step)
        else
          opcode ← code_at vm (pc vm);
          let vm := set_pc vm (pc vm + 1) in
          match HANDLERS opcode with
          | Some h =>
              '(vm, w) ← exec_handler H nested h vm w;
              method_loop name fuel' (step + 1) vm w
          | None =>
              Ok (vm, print w ("WARN: Unimplemented opcode 0x" +:+ hex02 opcode +:+
                               " in " +:+ name), step)
          end
      else Ok (vm, w, step)
  end.

(** [for i, arg in enumerate(args): child_vm.registers[start_reg + i] = arg] *)
Fixpoint load_args (regs : Registers) (start_reg : Z) (args : list RegisterValue)
    : res Registers :=
  match args with
  | [] => Ok regs
  | arg :: rest =>
      regs ← reg_set regs start_reg arg;
      load_args regs (start_reg + 1) rest
  end.

(** The first part of [LazyClassLoader.execute_method], up to the end of
    the loop: the child interpreter as the loop leaves it, the world and
    the final value of [step]; [None] when the method has no bytecode.
    The [parent_vm] only serves the diagnostics, which are not recorded. *)
Definition execute_method_run (method : EncodedMethod) (args : list RegisterValue)
    (parent_vm : DalvikVM) (w : World) : res (option DalvikVM * World * Z) :=
  match get_method_bytecode method with
  | None => Ok (None, w, 0)
  | Some (code, regs_size, trace) =>
      let cls := get_class_name method in
      w ← (if negb (is_class_initialized (store w) cls) then _run_clinit cls w else Ok w);
      let child_vm := new_VM code (parser_strings cl) regs_size in
      let child_vm := set_trace_map child_vm trace in
      let child_vm := set_class_loader child_vm true in
      let child_vm := set_silent_mode child_vm true in
      let arg_count := Z.of_nat (length args) in
      let start_reg := regs_size - arg_count in
      regs ← load_args (registers child_vm) start_reg args;
      let child_vm := set_registers child_vm regs in
      let max_steps := 5000%nat in
      '(child_vm, w, step) ← method_loop (get_name method) max_steps 0 child_vm w;
      Ok (Some child_vm, w, step)
  end.

(** The end of [execute_method]: the value in the last-result slot of
    the child, [None] when the slot is empty or there was no child. *)
Definition returned_value (child_vm : option DalvikVM) : pyval :=
  match child_vm with
  | Some vm =>
      match last_result vm with
      | Some result => value result
      | None => VNone
      end
  | None => VNone
  end.

(** [LazyClassLoader.execute_method]; the result carries the final value
    of [step], 0 when the method has no bytecode. *)
Definition execute_method_steps (method : EncodedMethod) (args : list RegisterValue)
    (parent_vm : DalvikVM) (w : World) : res (pyval * World * Z) :=
  '(child_vm, w, step) ← execute_method_run method args parent_vm w;
  Ok (returned_value child_vm, w, step).

Definition execute_method (method : EncodedMethod) (args : list RegisterValue)
    (parent_vm : DalvikVM) (w : World) : res (pyval * World) :=
  '(v, w, _) ← execute_method_steps method args parent_vm w; Ok (v, w).

(** [LazyClassLoader.resolve_and_execute] *)
Definition resolve_and_execute_body : loader_call := fun method_idx args parent_vm trace_str w =>
  let method := if bool_decide (trace_str = "") then None
                else find_method_by_trace cl trace_str in
  let method := match method with
                | Some m => Some m
                | None => find_method_by_idx cl method_idx
                end in
  match method with
  | None => Ok (VNone, w)
  | Some m => execute_method m args parent_vm w
  end.

End Body.

(** Python runs the mutually recursive [resolve_and_execute],
    [execute_method], [_run_clinit] and the invoke handlers on its call
    stack and raises [RecursionError] when the stack is exhausted.
    [depth] is the number of nested [resolve_and_execute] calls that the
    stack still admits. *)
Fixpoint resolve_and_execute (H : Hooks) (cl : LazyClassLoader) (depth : nat) : loader_call :=
  match depth with
  | O => fun _ _ _ _ _ => Raise RecursionError
  | S d => resolve_and_execute_body H cl (resolve_and_execute H cl d)
  end.

(** The entry points, as the driver calls them. *)
Definition run_clinit (H : Hooks) (cl : LazyClassLoader) (depth : nat)
    (cls : string) (w : World) : res World :=
  _run_clinit H cl (resolve_and_execute H cl depth) cls w.

Definition run_method (H : Hooks) (cl : LazyClassLoader) (depth : nat)
    (method : EncodedMethod) (args : list RegisterValue) (parent_vm : DalvikVM) (w : World)
    : res (pyval * World * Z) :=
  execute_method_steps H cl (resolve_and_execute H cl depth) method args parent_vm w.

(** Hook bodies for runs in which no hook is reached. *)
Definition no_hooks : Hooks :=
  {| builtin_virtual_body := fun _ _ _ _ _ => Raise NotModelled;
     builtin_static_body := fun _ _ _ _ _ => Raise NotModelled;
     builtin_direct_body := fun _ _ _ _ => Raise NotModelled;
     android_hook_body := fun _ _ _ _ _ => Raise NotModelled;
     method_hook_body := fun _ _ _ _ _ => Raise NotModelled;
     recursive_execution := fun _ _ _ _ _ => Raise NotModelled |}.

End ClassLoader.

Export ClassLoader.

(* ===================================================================== *)
(** ** [dalvik_vm/dex_parser.py]: the MUTF-8 decoder *)
(* ===================================================================== *)

Module DexParser.

(** A decoded string is a Python [str], here the list of its code
    points. *)
Definition pystr := list Z.

(** [chr(code)]: [ValueError] outside [range(0x110000)]. *)
Definition chr (code : Z) : res Z :=
  if (0 <=? code) && (code <? 0x110000) then Ok code else Raise ValueError.

(** [DexParser._decode_mutf8].  The argument is [data[i:]], the part of
    the input that the [while] loop has not consumed yet; the result is
    what the loop appends from there on. *)
Fixpoint _decode_mutf8 (data : list byte) : res pystr :=
  match data with
  | [] => Ok []
  | b1 :: rest =>
      let b1 := byte_val b1 in
      let raw := (c ← chr b1; r ← _decode_mutf8 rest; Ok (c :: r)) in
      if b1 =? 0 then Ok []
      else if b1 <? 0x80 then raw
      else if b1 <? 0xC0 then raw
      else if b1 <? 0xE0 then
        match rest with
        | b2 :: rest2 =>
            let b2 := byte_val b2 in
            c ← (if (b1 =? 0xC0) && (b2 =? 0x80) then Ok 0
                 else chr (Z.lor (Z.shiftl (Z.land b1 0x1F) 6) (Z.land b2 0x3F)));
            r ← _decode_mutf8 rest2;
            Ok (c :: r)
        | [] => raw
        end
      else if b1 <? 0xF0 then
        match rest with
        | b2 :: b3 :: rest3 =>
            let b2 := byte_val b2 in
            let b3 := byte_val b3 in
            c ← chr (Z.lor (Z.lor (Z.shiftl (Z.land b1 0x0F) 12)
                                  (Z.shiftl (Z.land b2 0x3F) 6))
                           (Z.land b3 0x3F));
            r ← _decode_mutf8 rest3;
            Ok (c :: r)
        | _ => raw
        end
      else
        match rest with
        | b2 :: b3 :: b4 :: rest4 =>
            let b2 := byte_val b2 in
            let b3 := byte_val b3 in
            let b4 := byte_val b4 in
            c ← chr (Z.lor (Z.lor (Z.lor (Z.shiftl (Z.land b1 0x07) 18)
                                         (Z.shiftl (Z.land b2 0x3F) 12))
                                  (Z.shiftl (Z.land b3 0x3F) 6))
                           (Z.land b4 0x3F));
            r ← _decode_mutf8 rest4;
            Ok (c :: r)
        | _ => raw
        end
  end.

(** Modelled from the spec: the MUTF-8 encoder, which the repository does
    not contain (DEX files come from the Android tool chain).  ASCII other
    than U+0000 is a single byte, U+0000 is [0xC0 0x80], the rest of the
    basic plane takes the two- and three-byte forms of UTF-8, and a
    supplementary code point is written as its surrogate pair, each
    surrogate in the three-byte form. *)
Definition encode_unit (u : Z) : list byte :=
  if (u =? 0) then [byte_of 0xC0; byte_of 0x80]
  else if u <? 0x80 then [byte_of u]
  else if u <? 0x800 then
    [byte_of (Z.lor 0xC0 (Z.shiftr u 6)); byte_of (Z.lor 0x80 (Z.land u 0x3F))]
  else
    [byte_of (Z.lor 0xE0 (Z.shiftr u 12));
     byte_of (Z.lor 0x80 (Z.land (Z.shiftr u 6) 0x3F));
     byte_of (Z.lor 0x80 (Z.land u 0x3F))].

(** The UTF-16 code units of a code point. *)
Definition utf16_units (c : Z) : list Z :=
  if c <? 0x10000 then [c]
  else
    let v := c - 0x10000 in
    [0xD800 + Z.shiftr v 10; 0xDC00 + Z.land v 0x3FF].

Definition mutf8_encode_char (c : Z) : list byte :=
  concat (map encode_unit (utf16_units c)).

Definition mutf8_encode (s : pystr) : list byte :=
  concat (map mutf8_encode_char s).

(** A Python [str] holds code points of [range(0x110000)]. *)
Definition is_code_point (c : Z) : Prop := 0 <= c < 0x110000.

(** No supplementary code point. *)
Definition is_bmp (c : Z) : Prop := 0 <= c < 0x10000.

End DexParser.

Export DexParser.

(* ===================================================================== *)
(** ** [dalvik_vm/forward_lookup.py]: the slicer *)
(* ===================================================================== *)

Module ForwardLookup.

(** [trace_map[pc][0]] *)
Definition instr_at (tm : trace_map_t) (pc : Z) : string :=
  match tm !! pc with
  | Some (s, _) => s
  | None => ""
  end.

(** [sorted([pc for pc in trace_map.keys() if pc < target_pc])] *)
Definition sorted_pcs_of (tm : trace_map_t) (target_pc : Z) : list Z :=
  merge_sort Z.le (filter (fun pc => pc < target_pc) (map_to_list tm).*1).

(** The test [r.startswith('v') and r[1:].isdigit()] followed by
    [int(r[1:])]: the register number when the test passes. *)
Definition reg_of (r : string) : res (option Z) :=
  if PyStr.startswith r "v" && PyStr.isdigit (PyStr.tail r)
  then n ← PyStr.int_of (PyStr.tail r); Ok (Some n)
  else Ok None.

Definition strip_comma (s : string) : string := PyStr.strip_char "," s.

(** The loops that collect the register operands of an invoke: stop at
    the first operand that starts with [L] or [[]. *)
Fixpoint collect_regs (parts : list string) : res (list Z) :=
  match parts with
  | [] => Ok []
  | p :: rest =>
      let p := strip_comma p in
      r ← reg_of p;
      match r with
      | Some n => l ← collect_regs rest; Ok (n :: l)
      | None =>
          if PyStr.startswith p "L" || PyStr.startswith p "[" then Ok []
          else collect_regs rest
      end
  end.

(** The nearest preceding invoke of a [move-result]: its PC and its
    register operands.  [prev] is [reversed(prev_pcs)]. *)
Fixpoint find_prev_invoke (tm : trace_map_t) (prev : list Z) : res (option (Z * list Z)) :=
  match prev with
  | [] => Ok None
  | prev_pc :: rest =>
      let prev_instr := instr_at tm prev_pc in
      if PyStr.contains "invoke" prev_instr
      then l ← collect_regs (List.tl (PyStr.split prev_instr)); Ok (Some (prev_pc, l))
      else find_prev_invoke tm rest
  end.

(** The forward lookup of [new-array]: the first [fill-array-data] on
    the register. *)
Fixpoint find_fill (tm : trace_map_t) (written_reg : Z) (fwd : list Z) : option Z :=
  match fwd with
  | [] => None
  | fwd_pc :: rest =>
      let fwd_instr := instr_at tm fwd_pc in
      if PyStr.contains "fill-array-data" fwd_instr then
        match PyStr.split fwd_instr with
        | _ :: fill_reg :: _ =>
            if bool_decide (strip_comma fill_reg = "v" +:+ PyStr.str_of_int written_reg)
            then Some fwd_pc
            else find_fill tm written_reg rest
        | _ => find_fill tm written_reg rest
        end
      else find_fill tm written_reg rest
  end.

(** The forward lookup of [new-instance]: the first [invoke-direct] of an
    [<init>] whose first operand is the register, with the remaining
    register operands. *)
Fixpoint find_init (tm : trace_map_t) (written_reg : Z) (fwd : list Z)
    : res (option (Z * list Z)) :=
  match fwd with
  | [] => Ok None
  | fwd_pc :: rest =>
      let fwd_instr := instr_at tm fwd_pc in
      if PyStr.contains "invoke-direct" fwd_instr && PyStr.contains "<init>" fwd_instr then
        match PyStr.split fwd_instr with
        | _ :: first_arg :: more =>
            if bool_decide (strip_comma first_arg = "v" +:+ PyStr.str_of_int written_reg)
            then l ← collect_regs more; Ok (Some (fwd_pc, l))
            else find_init tm written_reg rest
        | _ => find_init tm written_reg rest
        end
      else find_init tm written_reg rest
  end.

(** What the body of the loop learns about one instruction: the register
    it writes, the registers it reads, and the PCs that the lookups put
    into [dependency_pcs] on the way. *)
Record instr_info := mkInfo {
  written_reg : option Z;
  read_regs : list Z;
  looked_up : list Z
}.

Definition info0 : instr_info := mkInfo None [] [].

(** [vA, vB]: the first operand is written, the second read. *)
Definition dest_src (a b : string) : res instr_info :=
  ra ← reg_of (strip_comma a);
  rb ← reg_of (strip_comma b);
  Ok (mkInfo ra (match rb with Some n => [n] | None => [] end) []).

(** [vA, vB, vC]: the first operand is written, the others read. *)
Definition dest_src_src (a b c : string) : res instr_info :=
  ra ← reg_of (strip_comma a);
  rb ← reg_of (strip_comma b);
  rc ← reg_of (strip_comma c);
  Ok (mkInfo ra ((match rb with Some n => [n] | None => [] end) ++
                 (match rc with Some n => [n] | None => [] end)) []).

(** [vA]: the operand is written. *)
Definition dest_only (a : string) : res instr_info :=
  ra ← reg_of (strip_comma a);
  Ok (mkInfo ra [] []).

(** The [if]/[elif] chain on the mnemonic.  [parts] is the split
    instruction, [opcode] its head. *)
Definition classify (tm : trace_map_t) (sorted_pcs : list Z) (pc : Z)
    (opcode : string) (parts : list string) : res instr_info :=
  let sw p := PyStr.startswith opcode p in
  let named s := bool_decide (opcode = s) in
  if sw "const" then
    match parts with
    | _ :: a :: _ => dest_only a
    | _ => Ok info0
    end
  else if named "move" || sw "move/" then
    match parts with
    | _ :: a :: b :: _ => dest_src a b
    | _ => Ok info0
    end
  else if named "move-result" || named "move-result-object" || named "move-result-wide" then
    match parts with
    | _ :: a :: _ =>
        ra ← reg_of (strip_comma a);
        match ra with
        | Some n =>
            let prev_pcs := filter (fun p => p < pc) sorted_pcs in
            found ← find_prev_invoke tm (reverse prev_pcs);
            match found with
            | Some (prev_pc, regs) => Ok (mkInfo (Some n) regs [prev_pc])
            | None => Ok (mkInfo (Some n) [] [])
            end
        | None => Ok info0
        end
    | _ => Ok info0
    end
  else if sw "sget" then
    match parts with
    | _ :: a :: _ => dest_only a
    | _ => Ok info0
    end
  else if sw "iget" then
    match parts with
    | _ :: a :: b :: _ => dest_src a b
    | _ => Ok info0
    end
  else if sw "aget" then
    match parts with
    | _ :: a :: b :: c :: _ => dest_src_src a b c
    | _ => Ok info0
    end
  else if named "new-array" then
    match parts with
    | _ :: a :: b :: _ =>
        ra ← reg_of (strip_comma a);
        let looked :=
          match ra with
          | Some n =>
              let forward_pcs := filter (fun p => pc < p) sorted_pcs in
              match find_fill tm n forward_pcs with
              | Some fwd_pc => [fwd_pc]
              | None => []
              end
          | None => []
          end in
        rb ← reg_of (strip_comma b);
        Ok (mkInfo ra (match rb with Some n => [n] | None => [] end) looked)
    | _ => Ok info0
    end
  else if named "new-instance" then
    match parts with
    | _ :: a :: _ =>
        ra ← reg_of (strip_comma a);
        match ra with
        | Some n =>
            let forward_pcs := filter (fun p => pc < p) sorted_pcs in
            found ← find_init tm n forward_pcs;
            match found with
            | Some (fwd_pc, regs) => Ok (mkInfo (Some n) regs [fwd_pc])
            | None => Ok (mkInfo (Some n) [] [])
            end
        | None => Ok info0
        end
    | _ => Ok info0
    end
  else if named "check-cast" then
    match parts with
    | _ :: a :: _ =>
        ra ← reg_of (strip_comma a);
        Ok (mkInfo ra (match ra with Some n => [n] | None => [] end) [])
    | _ => Ok info0
    end
  else if existsb sw ["add-"; "sub-"; "mul-"; "div-"; "rem-"; "and-"; "or-"; "xor-"] then
    if PyStr.contains "/2addr" opcode then
      match parts with
      | _ :: a :: b :: _ =>
          ra ← reg_of (strip_comma a);
          rb ← reg_of (strip_comma b);
          Ok (mkInfo ra ((match ra with Some n => [n] | None => [] end) ++
                         (match rb with Some n => [n] | None => [] end)) [])
      | _ => Ok info0
      end
    else if PyStr.contains "/lit" opcode then
      match parts with
      | _ :: a :: b :: _ => dest_src a b
      | _ => Ok info0
      end
    else
      match parts with
      | _ :: a :: b :: c :: _ => dest_src_src a b c
      | _ => Ok info0
      end
  else if sw "int-to-" || sw "long-to-" || sw "float-to-" || sw "double-to-" then
    match parts with
    | _ :: a :: b :: _ => dest_src a b
    | _ => Ok info0
    end
  else Ok info0.

(** The information on the instruction at [pc]; an instruction whose
    text is blank is skipped by the loop. *)
Definition info_at (tm : trace_map_t) (sorted_pcs : list Z) (pc : Z) : res instr_info :=
  let parts := PyStr.split (instr_at tm pc) in
  match parts with
  | [] => Ok info0
  | opcode :: _ => classify tm sorted_pcs pc opcode parts
  end.

(** The state of the backward walk: [needed_regs] and [dependency_pcs]. *)
Definition walk_state : Type := gset Z * gset Z.

(** The end of the loop body: an instruction that writes a needed
    register joins the slice, its register is resolved and the registers
    it reads become needed. *)
Definition absorb (pc : Z) (i : instr_info) (st : walk_state) : walk_state :=
  let '(needed_regs, dependency_pcs) := st in
  let dependency_pcs := dependency_pcs ∪ list_to_set (looked_up i) in
  match written_reg i with
  | Some wr =>
      if bool_decide (wr ∈ needed_regs)
      then ((needed_regs ∖ {[wr]}) ∪ list_to_set (read_regs i), dependency_pcs ∪ {[pc]})
      else (needed_regs, dependency_pcs)
  | None => (needed_regs, dependency_pcs)
  end.

(** [for pc in reversed(sorted_pcs): ...], generic in how an instruction
    is read. *)
Fixpoint walk (info : Z -> res instr_info) (pcs : list Z) (st : walk_state)
    : res walk_state :=
  match pcs with
  | [] => Ok st
  | pc :: rest =>
      i ← info pc;
      walk info rest (absorb pc i st)
  end.

(** [build_register_dependencies] *)
Definition build_register_dependencies (tm : trace_map_t) (target_pc : Z)
    (arg_regs : list Z) : res (gset Z) :=
  let sorted_pcs := sorted_pcs_of tm target_pc in
  match sorted_pcs with
  | [] => Ok ∅
  | _ =>
      st ← walk (info_at tm sorted_pcs) (reverse sorted_pcs) (list_to_set arg_regs, ∅);
      Ok st.2
  end.

End ForwardLookup.

Export ForwardLookup.

(* ===================================================================== *)
(** ** Instruction formats of the arithmetic opcodes *)
(* ===================================================================== *)

(** The operand layouts that the docstrings of the arithmetic helpers
    give: [23x] is [vAA, vBB, vCC], [12x] is [vA, vB] with both registers
    in one byte, [22s] is [vA, vB, #+CCCC] and [22b] is [vAA, vBB, #+CC].
    When a handler starts, [pc] is the offset of the byte that follows
    the opcode. *)
Module Formats.

Inductive format := F23x | F12x | F22s | F22b.

(** Number of operand bytes that the handler decodes. *)
Definition operand_bytes (f : format) : Z :=
  match f with
  | F12x => 1
  | F23x | F22s | F22b => 3
  end.

(** The operand bytes lie inside the bytecode. *)
Definition well_placed (f : format) (vm : DalvikVM) : Prop :=
  0 <= pc vm /\ pc vm + operand_bytes f <= Z.of_nat (length (bytecode vm)).

(** The destination register. *)
Definition dest_reg (f : format) (vm : DalvikVM) : res Z :=
  b ← code_at vm (pc vm);
  match f with
  | F23x | F22b => Ok b
  | F12x | F22s => Ok (Z.land b 0xF)
  end.

(** The register of the first source operand. *)
Definition first_reg (f : format) (vm : DalvikVM) : res Z :=
  match f with
  | F23x | F22b => code_at vm (pc vm + 1)
  | F12x => b ← code_at vm (pc vm); Ok (Z.land b 0xF)
  | F22s => b ← code_at vm (pc vm); Ok (Z.shiftr b 4)
  end.

(** The register of the second source operand, for the formats that
    have one. *)
Definition second_reg (f : format) (vm : DalvikVM) : res Z :=
  match f with
  | F23x => code_at vm (pc vm + 2)
  | F12x => b ← code_at vm (pc vm); Ok (Z.shiftr b 4)
  | F22s | F22b => Raise ValueError
  end.

(** The integer value of the first source operand. *)
Definition first_int (f : format) (vm : DalvikVM) : res Z :=
  r ← first_reg f vm; get_int (registers vm) r.

(** The integer value of the second source operand: a register, or the
    sign-extended literal. *)
Definition second_int (f : format) (vm : DalvikVM) : res Z :=
  match f with
  | F23x | F12x => r ← second_reg f vm; get_int (registers vm) r
  | F22s => Ok (Py.from_bytes (Py.slice (bytecode vm) (pc vm + 1) (pc vm + 3)) true)
  | F22b => Ok (Py.from_bytes (Py.slice (bytecode vm) (pc vm + 2) (pc vm + 3)) true)
  end.

(** The value held by the register of the first source operand. *)
Definition first_value (f : format) (vm : DalvikVM) : res pyval :=
  r ← first_reg f vm; reg_value vm r.





(** The 32-bit integer arithmetic opcodes with the operation each one
    computes on its two operands. *)
Definition int32_opcodes : list (Z * format * (Z -> Z -> Z)) :=
  [ (0x90, F23x, op_add); (0x91, F23x, op_sub); (0x92, F23x, op_mul);
    (0x93, F23x, op_div); (0x94, F23x, op_rem); (0x95, F23x, op_and);
    (0x96, F23x, op_or); (0x97, F23x, op_xor); (0x98, F23x, op_shl);
    (0x99, F23x, op_shr); (0x9a, F23x, op_ushr);
    (0xb0, F12x, op_add); (0xb1, F12x, op_sub); (0xb2, F12x, op_mul);
    (0xb3, F12x, op_div); (0xb4, F12x, op_rem); (0xb5, F12x, op_and);
    (0xb6, F12x, op_or); (0xb7, F12x, op_xor); (0xb8, F12x, op_shl);
    (0xb9, F12x, op_shr); (0xba, F12x, op_ushr);
    (0xd0, F22s, op_add); (0xd1, F22s, op_rsub); (0xd2, F22s, op_mul);
    (0xd3, F22s, op_div); (0xd4, F22s, op_rem); (0xd5, F22s, op_and);
    (0xd6, F22s, op_or); (0xd7, F22s, op_xor);
    (0xd8, F22b, op_add); (0xd9, F22b, op_rsub); (0xda, F22b, op_mul);
    (0xdb, F22b, op_div); (0xdc, F22b, op_rem); (0xdd, F22b, op_and);
    (0xde, F22b, op_or); (0xdf, F22b, op_xor); (0xe0, F22b, op_shl);
    (0xe1, F22b, op_shr); (0xe2, F22b, op_ushr) ].

(** The signed two's-complement 32-bit wrap of an integer. *)
Definition wrap32 (n : Z) : Z := (n + 2 ^ 31) mod 2 ^ 32 - 2 ^ 31.

(** A test machine: the given bytecode with [pc] just after the first
    opcode and the given register contents. *)
Definition vm_at (code : list Z) (regs : list pyval) : DalvikVM :=
  set_pc (set_registers (new_VM (bytes_of code) ∅ 0) (map mkRegisterValue regs)) 1.

End Formats.

Export Formats.

(* ===================================================================== *)
(** ** Auxiliary notions used in the statements *)
(* ===================================================================== *)

Module Aux.

(** The integer reading of a value: 0 for anything that is not an [int]. *)
Definition int_reading (v : pyval) : Z :=
  match v with VInt n => n | _ => 0 end.

(** The register file after a write at a non-negative index. *)
Definition extended (regs : list RegisterValue) (idx : Z) : list RegisterValue :=
  if Z.of_nat (length regs) <=? idx
  then regs ++ replicate (Z.to_nat (idx - Z.of_nat (length regs) + 1)) (mkRegisterValue VNone)
  else regs.

(** What a 32-bit integer handler stores for the result [r] of its
    operation, by format: the three-register form masks to 32 bits, the
    two-address form folds values above [2^31 - 1] once, the literal forms
    store the result as it is. *)
Definition stored32 (f : format) (r : Z) : Z :=
  match f with
  | F23x => Z.land r 0xFFFFFFFF
  | F12x => if 0x7FFFFFFF <? r then r - 0x100000000 else r
  | F22s | F22b => r
  end.






(** The value that the handler of opcode [opc] leaves in its destination
    register when run on [vm]. *)
Definition stored_by (H : Hooks) (call : loader_call) (opc : Z) (f : format)
    (vm : DalvikVM) (w : World) : res Z :=
  h ← of_option NotModelled (HANDLERS opc);
  '(vm', _) ← exec_handler H call h vm w;
  dest ← dest_reg f vm;
  get_int (registers vm') dest.

(** The two families of array-element opcodes: [aget] and its six
    variants, [aput] and its six variants. *)
Inductive access := Get | Put.

Definition access_opcodes (a : access) : list Z :=
  match a with
  | Get => [0x44; 0x45; 0x46; 0x47; 0x48; 0x49; 0x4a]
  | Put => [0x4b; 0x4c; 0x4d; 0x4e; 0x4f; 0x50; 0x51]
  end.

(** The buffer of an array holds at least [size] elements; this is so
    for every array that [DalvikArray.__init__] builds. *)
Definition buffer_covers_size (arr : DalvikArray) : Prop :=
  size arr <= Z.of_nat (length (data arr)).

(** The array [arr] with element [i] replaced. *)
Definition with_element (arr : DalvikArray) (i : Z) (v : pyval) : DalvikArray :=
  {| type_desc := type_desc arr; size := size arr;
     data := <[Z.to_nat i := v]> (data arr) |}.

(** The outcome of an array access by [vm] in world [w], where register
    [aa] is the destination of a get or the source of a put, [h] is the
    handle of the array [arr] and [idx] the index: the machine [vm'] and
    the world [w'] afterwards. *)
Definition access_outcome (a : access) (vm : DalvikVM) (w : World) (aa : Z) (h : nat)
    (arr : DalvikArray) (idx : Z) (vm' : DalvikVM) (w' : World) : Prop :=
  if decide (0 <= idx < size arr) then
    match a with
    | Get => w' = w /\
             exists v, data arr !! Z.to_nat idx = Some v /\ reg_value vm' aa = Ok v
    | Put => exists val, get_int (registers vm) aa = Ok val /\
             w' = set_arrays w (<[h := with_element arr idx (VInt val)]> (arrays w))
    end
  else
    arrays w' = arrays w /\ objects w' = objects w /\ store w' = store w /\
    stdout w' = stdout w ++ [bounds_warning idx (size arr)] /\
    match a with
    | Get => reg_value vm' aa = Ok (VInt 0)
    | Put => True
    end.

(** A loader over an empty program, and its nested-call entry. *)
Definition empty_loader : LazyClassLoader := mkLoader [] [] [] ∅.

Definition no_calls : loader_call := resolve_and_execute no_hooks empty_loader 0.

(** A heap with one array [[7; 8; 9]] behind handle 0. *)
Definition heap3 : World :=
  set_arrays empty_world [mkDalvikArray (TypeIdx 0) 3 [VInt 7; VInt 8; VInt 9]].

(** A method [LFill;->longs()[J] that builds a one-element array and
    fills it from a payload of element width 8:
    [const/4 v1, 1], [new-array v0, v1, type@0],
    [fill-array-data v0, +5], [return-object v0], [nop], and at offset 16
    the payload: identifier [0x0300], width 8, size 1, and the eight
    bytes of the integer 1. *)
Definition fill_wide_code : list Z :=
  [0x12; 0x11;
   0x23; 0x10; 0x00; 0x00;
   0x26; 0x00; 0x05; 0x00; 0x00; 0x00;
   0x11; 0x00;
   0x00; 0x00;
   0x00; 0x03; 0x08; 0x00; 0x01; 0x00; 0x00; 0x00;
   0x01; 0x00; 0x00; 0x00; 0x00; 0x00; 0x00; 0x00].

Definition fill_wide_trace : gmap Z (string * Z) :=
  list_to_map
    [ (0, ("const/4 v1, 1", 2));
      (2, ("new-array v0, v1, [J", 4));
      (6, ("fill-array-data v0, +5", 6));
      (12, ("return-object v0", 2));
      (14, ("nop", 2)) ].

Definition fill_wide_method : EncodedMethod :=
  mkMethod "LFill;" "longs" "()[J" (Some (bytes_of fill_wide_code, 2, fill_wide_trace)).

Definition fill_wide_loader : LazyClassLoader :=
  mkLoader [fill_wide_method] [] [("LFill;", "longs")] ∅.

(** The same method with element width 4 and the four bytes of the
    integer 1 as payload. *)
Definition fill_int_code : list Z :=
  [0x12; 0x11;
   0x23; 0x10; 0x00; 0x00;
   0x26; 0x00; 0x05; 0x00; 0x00; 0x00;
   0x11; 0x00;
   0x00; 0x00;
   0x00; 0x03; 0x04; 0x00; 0x01; 0x00; 0x00; 0x00;
   0x01; 0x00; 0x00; 0x00].

Definition fill_int_method : EncodedMethod :=
  mkMethod "LFill;" "ints" "()[I" (Some (bytes_of fill_int_code, 2, fill_wide_trace)).

(** The elements of the array that a run returned. *)
Definition returned_elements (r : res (pyval * World * Z)) : option (list pyval) :=
  match r with
  | Ok (VArr h, w, _) => data <$> (arrays w !! h)
  | _ => None
  end.

(** A machine to start a nested call from. *)
Definition caller_vm : DalvikVM := new_VM [] ∅ 0.









(** A class [LA;] whose initializer calls a static method of the same
    class: [<clinit>] is [invoke-static {}, LA;->helper()V] followed by
    [return-void], and [helper] is [return-void]. *)
Definition selfcall_clinit_code : list Z :=
  [0x71; 0x00; 0x01; 0x00; 0x00; 0x00; 0x0e; 0x00].

Definition selfcall_invoke_text : string := "invoke-static LA;->helper()V".

Definition selfcall_clinit_trace : gmap Z (string * Z) :=
  list_to_map [ (0, (selfcall_invoke_text, 6)); (6, ("return-void", 2)) ].

Definition selfcall_helper_trace : gmap Z (string * Z) :=
  list_to_map [ (0, ("return-void", 2)) ].

Definition selfcall_loader : LazyClassLoader :=
  mkLoader
    [ mkMethod "LA;" "<clinit>" "()V"
        (Some (bytes_of selfcall_clinit_code, 0, selfcall_clinit_trace));
      mkMethod "LA;" "helper" "()V"
        (Some (bytes_of [0x0e; 0x00], 0, selfcall_helper_trace)) ]
    [] [("LA;", "<clinit>"); ("LA;", "helper")] ∅.

(** The interpreter of [LA;-><clinit>] when its invoke handler runs. *)
Definition selfcall_vm : DalvikVM :=
  set_pc
    (set_silent_mode
       (set_class_loader
          (set_trace_map (new_VM (bytes_of selfcall_clinit_code) ∅ 0) selfcall_clinit_trace)
          true)
       true)
    1.

End Aux.

Export Aux.

(* ===================================================================== *)
(** ** Resolution orders of an invoke *)
(* ===================================================================== *)

(** The ways in which an invoke can be resolved, and a resolver that
    tries a list of them in order.  It serves to state an order of
    resolution: the one the specification gives, and the ones the
    handlers follow. *)
Module Order.

Inductive invoke_form := Virtual | Static | VirtualRange | StaticRange.

Inductive stage :=
| MethodHooks  (* the hook table attached to the interpreter as [method_hooks] *)
| Framework    (* the framework hook table, matched by substring *)
| Builtin      (* the built-in emulation of library methods *)
| UserHook     (* the user hook [vm.hook] *)
| Resolver     (* recursive execution through [vm.method_resolver] *)
| Loader.      (* cross-method execution by the class loader *)

Definition is_range (form : invoke_form) : bool :=
  match form with
  | Virtual | Static => false
  | VirtualRange | StaticRange => true
  end.

Definition is_static (form : invoke_form) : bool :=
  match form with
  | Static | StaticRange => true
  | Virtual | VirtualRange => false
  end.

Section Stages.

Variable H : Hooks.
Variable nested : loader_call.

(** The handler of each form. *)
Definition invoke_handler (form : invoke_form) : DalvikVM -> World -> res (DalvikVM * World) :=
  match form with
  | Virtual => execute_invoke_virtual H nested
  | Static => execute_invoke_static H nested
  | VirtualRange => execute_invoke_virtual_range H nested
  | StaticRange => execute_invoke_static_range H nested
  end.

(** One stage: [Some vm'] when the stage resolved the call and left the
    interpreter as [vm'], [None] when it passes to the next stage. *)
Definition run_stage (form : invoke_form) (s : stage) (vm : DalvikVM) (method_idx : Z)
    (args : list RegisterValue) (trace_str : string) (w : World)
    : res (option DalvikVM * World) :=
  match s with
  | MethodHooks =>
      match match method_hooks vm with
            | Some get_hook => get_hook trace_str
            | None => None
            end with
      | Some hook_name =>
          '(result, w) ← method_hook_body H hook_name vm args trace_str w;
          let vm := if is_not_None result
                    then set_last_result vm (Some (mkRegisterValue result)) else vm in
          Ok (Some (set_pc vm (pc vm + 5)), w)
      | None => Ok (None, w)
      end
  | Framework =>
      match (if is_static form then get_android_static_hook trace_str
             else get_android_virtual_hook trace_str) with
      | Some h =>
          '(result, w) ← run_android_hook H h vm args trace_str w;
          Ok (Some (finish_invoke vm result), w)
      | None => Ok (None, w)
      end
  | Builtin =>
      '(ret_val, w) ← (if is_static form then _builtin_static_hooks H vm args trace_str w
                       else _builtin_virtual_hooks H vm args trace_str w);
      if is_not_None ret_val then
        let v := match form, ret_val with
                 | StaticRange, VStr s =>
                     if decide (s = "VOID_HOOK_HANDLED") then VNone else ret_val
                 | _, _ => ret_val
                 end in
        Ok (Some (finish_invoke vm v), w)
      else Ok (None, w)
  | UserHook =>
      match hook vm with
      | Some user =>
          '(result, w) ← user method_idx args w;
          if is_not_None result then Ok (Some (finish_invoke vm result), w)
          else Ok (None, w)
      | None => Ok (None, w)
      end
  | Resolver =>
      match method_resolver vm with
      | Some r =>
          '(recursed, w) ← recursive_execution H r vm method_idx args w;
          match recursed with
          | Some result => Ok (Some (set_pc (set_last_result vm result) (pc vm + 5)), w)
          | None => Ok (None, w)
          end
      | None => Ok (None, w)
      end
  | Loader =>
      let wanted :=
        match form with
        | Virtual =>
            negb (existsb (fun p => PyStr.contains p trace_str)
                          ["StringBuilder"; "PrintStream"; "System"]) &&
            PyStr.contains "->" trace_str
        | _ => true
        end in
      if class_loader vm && wanted then
        '(ret_val, w) ← nested method_idx args vm
                          (match form with Virtual => "" | _ => trace_str end) w;
        Ok (Some (finish_invoke vm ret_val), w)
      else Ok (None, w)
  end.

(** Try the stages in order; when none resolves the call the last-result
    slot is set to null. *)
Fixpoint try_stages (form : invoke_form) (stages : list stage) (vm : DalvikVM)
    (method_idx : Z) (args : list RegisterValue) (trace_str : string) (w : World)
    : res (DalvikVM * World) :=
  match stages with
  | [] => Ok (finish_invoke vm VNone, w)
  | s :: rest =>
      '(o, w) ← run_stage form s vm method_idx args trace_str w;
      match o with
      | Some vm' => Ok (vm', w)
      | None => try_stages form rest vm method_idx args trace_str w
      end
  end.

(** An invoke resolved by the given order of stages. *)
Definition dispatch_in_order (form : invoke_form) (stages : list stage)
    (vm : DalvikVM) (w : World) : res (DalvikVM * World) :=
  '(method_idx, args) ← (if is_range form then _decode_invoke_range_args vm
                         else decode_invoke_args vm);
  try_stages form stages vm method_idx args (trace_str_of vm) w.

End Stages.

(** The order that the specification gives for every invoke: framework
    hook table, built-in emulation, user hook, class loader, else null. *)
Definition claimed_order : list stage := [Framework; Builtin; UserHook; Loader].

(** The order that each handler follows. *)
Definition order_of (form : invoke_form) : list stage :=
  match form with
  | Virtual => [MethodHooks; Framework; Builtin; Loader]
  | Static => [Builtin; Framework; UserHook; Resolver; Loader]
  | VirtualRange | StaticRange => [Builtin; Loader]
  end.

(** An interpreter at [invoke-virtual {v0}, LFoo;->bar()I] with a user
    hook that answers 42 and no class loader. *)
Definition hooked_vm : DalvikVM :=
  let vm := vm_at [0x6e; 0x10; 0x03; 0x00; 0x00; 0x00] [VNone] in
  let vm := set_trace_map vm (list_to_map [(0, ("invoke-virtual v0, LFoo;->bar()I", 6))]) in
  {| bytecode := bytecode vm; strings := strings vm; registers := registers vm; pc := pc vm;
     hook := Some (fun _ _ w => Ok (VInt 42, w));
     method_resolver := method_resolver vm; class_loader := class_loader vm;
     finished := finished vm; last_result := last_result vm; trace_map := trace_map vm;
     silent_mode := silent_mode vm; method_hooks := method_hooks vm |}.

(** The last-result slot after a handler ran. *)
Definition last_result_after (r : res (DalvikVM * World)) : option (option RegisterValue) :=
  match r with
  | Ok (vm, _) => Some (last_result vm)
  | Raise _ => None
  end.

End Order.

Export Order.

(* ===================================================================== *)
(** ** Exhaustive checks on code units *)
(* ===================================================================== *)

Module UnitChecks.

(** The integers [lo, lo + 1, ..., lo + n - 1]. *)
Fixpoint zrange (lo : Z) (n : nat) : list Z :=
  match n with
  | O => []
  | S n' => lo :: zrange (lo + 1) n'
  end.

(** What the decoder reads in the first byte [b1] of a sequence: the
    branch it takes. *)
Definition lead_class (b1 : Z) : Z :=
  if b1 =? 0 then 0
  else if b1 <? 0x80 then 1
  else if b1 <? 0xC0 then 1
  else if b1 <? 0xE0 then 2
  else if b1 <? 0xF0 then 3
  else 4.

(** The encoding of the unit [u] is read back as [u]: the lead byte
    selects the branch of its length and the branch computes [u]. *)
Definition unit_round_trip (u : Z) : bool :=
  match map byte_val (encode_unit u) with
  | [b1] => (lead_class b1 =? 1) && (b1 =? u)
  | [b1; b2] =>
      (lead_class b1 =? 2) &&
      (if (b1 =? 0xC0) && (b2 =? 0x80) then u =? 0
       else Z.lor (Z.shiftl (Z.land b1 0x1F) 6) (Z.land b2 0x3F) =? u)
  | [b1; b2; b3] =>
      (lead_class b1 =? 3) &&
      (Z.lor (Z.lor (Z.shiftl (Z.land b1 0x0F) 12) (Z.shiftl (Z.land b2 0x3F) 6))
             (Z.land b3 0x3F) =? u)
  | _ => false
  end.

End UnitChecks.

Export UnitChecks.

(* ===================================================================== *)
(** ** Read-write dependencies, as the slicer sees them *)
(* ===================================================================== *)

Module SliceSpec.

Section Generic.

(** How an instruction is read. *)
Variable info : Z -> res instr_info.

(** The instruction at [p] writes register [r]. *)
Definition writes (p r : Z) : Prop :=
  exists i, info p = Ok i /\ written_reg i = Some r.

(** The instruction at [p] reads register [r]. *)
Definition reads (p r : Z) : Prop :=
  exists i, info p = Ok i /\ r ∈ read_regs i.

(** [q] is the first element of [l] that writes [r]. *)
Definition first_writer (l : list Z) (r q : Z) : Prop :=
  exists l1 l2, l = l1 ++ q :: l2 /\ writes q r /\ forall q', q' ∈ l1 -> ~ writes q' r.

(** The elements of [l] that the walk over [l] selects when it starts
    with the registers [needed]: the first writer of a needed register,
    and, after a selected element, the first writer of a register that
    the element reads. *)
Inductive reach (needed : gset Z) (l : list Z) : Z -> Prop :=
| reach_seed r q :
    r ∈ needed -> first_writer l r q -> reach needed l q
| reach_step p r q l1 l2 :
    reach needed l p -> l = l1 ++ p :: l2 -> reads p r -> first_writer l2 r q ->
    reach needed l q.

End Generic.

(** The instruction read as [i] writes a needed register. *)
Definition fires (i : instr_info) (needed : gset Z) : Prop :=
  exists wr, written_reg i = Some wr /\ wr ∈ needed.


(** How the slicer reads the instructions of [tm] below [target_pc]. *)
Definition info_of (tm : gmap Z (string * Z)) (target_pc : Z) : Z -> res instr_info :=
  info_at tm (sorted_pcs_of tm target_pc).

(** [q] is the defining PC of register [r] before [bound]: the last
    instruction of the trace map before [bound] that writes [r]. *)
Definition defines (tm : gmap Z (string * Z)) (target_pc : Z) (r bound q : Z) : Prop :=
  q ∈ dom tm /\ q < bound /\
  writes (info_of tm target_pc) q r /\
  forall q', q' ∈ dom tm -> q < q' < bound -> ~ writes (info_of tm target_pc) q' r.

(** The read-write dependencies of the argument registers: the defining
    PC of an argument register before the target, and the defining PC,
    before a PC of the slice, of a register that its instruction reads. *)
Inductive in_slice (tm : gmap Z (string * Z)) (target_pc : Z) (arg_regs : list Z)
    : Z -> Prop :=
| slice_arg r q :
    r ∈ arg_regs -> defines tm target_pc r target_pc q ->
    in_slice tm target_pc arg_regs q
| slice_dep p r q :
    in_slice tm target_pc arg_regs p ->
    reads (info_of tm target_pc) p r ->
    defines tm target_pc r p q ->
    in_slice tm target_pc arg_regs q.

(** A method body on which the slicer is run: a constructor call, two
    constants and a sum, before a static call on [v0] and [v3]. *)
Definition example_trace : gmap Z (string * Z) :=
  list_to_map
    [ (0, ("new-instance v0, LFoo;", 4));
      (4, ("const/4 v1, 5", 2));
      (6, ("invoke-direct v0, v1, LFoo;-><init>(I)V", 6));
      (12, ("const/16 v2, 7", 4));
      (16, ("add-int v3, v2, v1", 4));
      (20, ("invoke-static v0, v3, LT;->m(LFoo; I)V", 6)) ].

Definition example_slice : gset Z := list_to_set [0; 4; 6; 12; 16].

End SliceSpec.

Export SliceSpec.

(* ===================================================================== *)
(** ** [dalvik_vm/opcodes/base.py]: the signed readers *)
(* ===================================================================== *)

Module Base.

(** [read_signed_byte] *)
Definition read_signed_byte (vm : DalvikVM) (offset : Z) : res Z :=
  val ← code_at vm offset;
  Ok (if 127 <? val then val - 256 else val).

(** [read_signed_short] *)
Definition read_signed_short (vm : DalvikVM) (offset : Z) : Z :=
  Py.from_bytes (Py.slice (bytecode vm) offset (offset + 2)) true.

(** [read_signed_int] *)
Definition read_signed_int (vm : DalvikVM) (offset : Z) : Z :=
  Py.from_bytes (Py.slice (bytecode vm) offset (offset + 4)) true.

End Base.

Export Base.

(* ===================================================================== *)
(** ** [dalvik_vm/memory.py]: access to the store through a trace string *)
(* ===================================================================== *)

Module StoreByIdx.

(** [StaticFieldStore.get_by_idx]: the field index is not looked at; the
    class and the field are cut out of the trace string. *)
Definition get_by_idx (st : StaticFieldStore) (field_idx : Z) (trace_str : string)
    (default : pyval) : res pyval :=
  if PyStr.contains "->" trace_str then
    let parts := PyStr.split_on "->" trace_str in
    if 2 <=? Z.of_nat (length parts) then
      p0 ← Py.index parts 0;
      class_part ← Py.index (PyStr.split p0) (-1);
      p1 ← Py.index parts 1;
      field_part ← Py.index (PyStr.split p1) 0;
      Ok (store_get st class_part field_part default)
    else Ok default
  else Ok default.

(** [StaticFieldStore.set_by_idx] *)
Definition set_by_idx (st : StaticFieldStore) (field_idx : Z) (v : pyval)
    (trace_str : string) : res StaticFieldStore :=
  if PyStr.contains "->" trace_str then
    let parts := PyStr.split_on "->" trace_str in
    if 2 <=? Z.of_nat (length parts) then
      p0 ← Py.index parts 0;
      class_part ← Py.index (PyStr.split p0) (-1);
      p1 ← Py.index parts 1;
      field_part ← Py.index (PyStr.split p1) 0;
      Ok (store_set st class_part field_part v)
    else Ok st
  else Ok st.

End StoreByIdx.

Export StoreByIdx.

(* ===================================================================== *)
(** ** [dalvik_vm/opcodes/const.py] *)
(* ===================================================================== *)

Module ConstOps.



(** [const-wide/16 vAA, #+BBBB] *)
Definition execute_const_wide_16 (vm : DalvikVM) : res DalvikVM :=
  reg ← code_at vm (pc vm);
  let val := Py.from_bytes (Py.slice (bytecode vm) (pc vm + 1) (pc vm + 3)) true in
  vm ← write_reg vm reg (VInt val);
  vm ← write_reg vm (reg + 1) VNone;
  Ok (set_pc vm (pc vm + 3)).

(** [const-wide/32 vAA, #+BBBBBBBB] *)
Definition execute_const_wide_32 (vm : DalvikVM) : res DalvikVM :=
  reg ← code_at vm (pc vm);
  let val := Py.from_bytes (Py.slice (bytecode vm) (pc vm + 1) (pc vm + 5)) true in
  vm ← write_reg vm reg (VInt val);
  vm ← write_reg vm (reg + 1) VNone;
  Ok (set_pc vm (pc vm + 5)).

(** [const-wide vAA, #+BBBBBBBBBBBBBBBB] *)
Definition execute_const_wide (vm : DalvikVM) : res DalvikVM :=
  reg ← code_at vm (pc vm);
  let val := Py.from_bytes (Py.slice (bytecode vm) (pc vm + 1) (pc vm + 9)) true in
  vm ← write_reg vm reg (VInt val);
  vm ← write_reg vm (reg + 1) VNone;
  Ok (set_pc vm (pc vm + 9)).

(** [const-wide/high16 vAA, #+BBBB000000000000] *)
Definition execute_const_wide_high16 (vm : DalvikVM) : res DalvikVM :=
  reg ← code_at vm (pc vm);
  let val := Z.shiftl (Py.from_bytes (Py.slice (bytecode vm) (pc vm + 1) (pc vm + 3)) true) 48 in
  vm ← write_reg vm reg (VInt val);
  vm ← write_reg vm (reg + 1) VNone;
  Ok (set_pc vm (pc vm + 3)).

(** A [DalvikObject] of the given class whose [internal_value] is set
    after construction. *)
Definition object_with_value (cls : string) (v : pyval) : DalvikObject :=
  let o := new_DalvikObject cls in
  {| class_name := class_name o; fields := fields o;
     internal_value := Some v; attrs := attrs o |}.

(** [const-string vAA, string@BBBB]: the string table is a dictionary. *)
Definition execute_const_string (vm : DalvikVM) (w : World) : res (DalvikVM * World) :=
  reg ← code_at vm (pc vm);
  let string_idx := read_u16 vm (pc vm + 1) in
  let string_val :=
    match strings vm !! string_idx with
    | Some s => s
    | None => "<string_" +:+ PyStr.str_of_int string_idx +:+ ">"
    end in
  let '(h, w) := alloc_object w (object_with_value "Ljava/lang/String;" (VStr string_val)) in
  vm ← write_reg vm reg (VObj h);
  Ok (set_pc vm (pc vm + 3), w).

(** [const-class vAA, type@BBBB] *)
Definition execute_const_class (vm : DalvikVM) (w : World) : res (DalvikVM * World) :=
  reg ← code_at vm (pc vm);
  let type_idx := read_u16 vm (pc vm + 1) in
  let '(h, w) :=
    alloc_object w
      (object_with_value "Ljava/lang/Class;"
         (VStr ("<class_" +:+ PyStr.str_of_int type_idx +:+ ">"))) in
  vm ← write_reg vm reg (VObj h);
  Ok (set_pc vm (pc vm + 3), w).

End ConstOps.

Export ConstOps.

(* ===================================================================== *)
(** ** [dalvik_vm/opcodes/move.py] *)
(* ===================================================================== *)

Module MoveOps.

(** The line printed when a move reads past the register file. *)
Definition move_warning (dst src : Z) : string :=
  "WARN: Move OOB v" +:+ PyStr.str_of_int dst +:+ " <- v" +:+ PyStr.str_of_int src.

(** [try: vm.registers[dst] = vm.registers[src]
     except IndexError: print(...)] *)
Definition guarded_move (vm : DalvikVM) (w : World) (dst src : Z) : res (DalvikVM * World) :=
  match (rv ← reg_get (registers vm) src; reg_set (registers vm) dst rv) with
  | Ok regs => Ok (set_registers vm regs, w)
  | Raise IndexError => Ok (vm, print w (move_warning dst src))
  | Raise e => Raise e
  end.

(** [move vA, vB] and [move-object vA, vB] *)
Definition execute_move (vm : DalvikVM) (w : World) : res (DalvikVM * World) :=
  byte1 ← code_at vm (pc vm);
  let dst := Z.land byte1 0xF in
  let src := Z.shiftr byte1 4 in
  '(vm, w) ← guarded_move vm w dst src;
  Ok (set_pc vm (pc vm + 1), w).

(** [move/from16 vAA, vBBBB] *)
Definition execute_move_from16 (vm : DalvikVM) (w : World) : res (DalvikVM * World) :=
  aa ← code_at vm (pc vm);
  let bbbb := read_u16 vm (pc vm + 1) in
  '(vm, w) ← guarded_move vm w aa bbbb;
  Ok (set_pc vm (pc vm + 3), w).

(** [move/16 vAAAA, vBBBB] *)
Definition execute_move_16 (vm : DalvikVM) (w : World) : res (DalvikVM * World) :=
  let aaaa := read_u16 vm (pc vm) in
  let bbbb := read_u16 vm (pc vm + 2) in
  '(vm, w) ← guarded_move vm w aaaa bbbb;
  Ok (set_pc vm (pc vm + 4), w).

(** [move-wide vA, vB]: no guard. *)
Definition execute_move_wide (vm : DalvikVM) : res DalvikVM :=
  byte1 ← code_at vm (pc vm);
  let dst := Z.land byte1 0xF in
  let src := Z.shiftr byte1 4 in
  rv ← reg_get (registers vm) src;
  regs ← reg_set (registers vm) dst rv;
  let vm := set_registers vm regs in
  rv' ← reg_get (registers vm) (src + 1);
  regs ← reg_set (registers vm) (dst + 1) rv';
  let vm := set_registers vm regs in
  Ok (set_pc vm (pc vm + 1)).

(** [move-exception vAA] *)
Definition execute_move_exception (vm : DalvikVM) : res DalvikVM :=
  reg ← code_at vm (pc vm);
  vm ← write_reg vm reg VNone;
  Ok (set_pc vm (pc vm + 1)).

End MoveOps.

Export MoveOps.

(* ===================================================================== *)
(** ** [dalvik_vm/opcodes/control.py]: tests and switches *)
(* ===================================================================== *)

Module ControlOps.

(** [_execute_if_test] *)
Definition _execute_if_test (condition : Z -> Z -> bool) (vm : DalvikVM) : res DalvikVM :=
  byte1 ← code_at vm (pc vm);
  let a := Z.land byte1 0xF in
  let b := Z.shiftr byte1 4 in
  let offset := Py.from_bytes (Py.slice (bytecode vm) (pc vm + 1) (pc vm + 3)) true in
  v_a ← get_int (registers vm) a;
  v_b ← get_int (registers vm) b;
  if condition v_a v_b
  then Ok (set_pc vm ((pc vm - 1) + offset * 2))
  else Ok (set_pc vm (pc vm + 3)).

Definition execute_if_eq := _execute_if_test (fun a b => a =? b).
Definition execute_if_ne := _execute_if_test (fun a b => negb (a =? b)).
Definition execute_if_lt := _execute_if_test (fun a b => a <? b).
Definition execute_if_ge := _execute_if_test (fun a b => a >=? b).
Definition execute_if_gt := _execute_if_test (fun a b => a >? b).
Definition execute_if_le := _execute_if_test (fun a b => a <=? b).

(** What [_execute_if_testz] compares with zero: [None] is 0, an integer
    is itself, anything else is 1. *)
Definition zero_test_reading (v : pyval) : Z :=
  match v with
  | VNone => 0
  | VInt n => n
  | _ => 1
  end.

(** [_execute_if_testz] *)
Definition _execute_if_testz (condition : Z -> bool) (vm : DalvikVM) : res DalvikVM :=
  reg ← code_at vm (pc vm);
  let offset := Py.from_bytes (Py.slice (bytecode vm) (pc vm + 1) (pc vm + 3)) true in
  rv ← reg_get (registers vm) reg;
  let val := zero_test_reading (value rv) in
  if condition val
  then Ok (set_pc vm ((pc vm - 1) + offset * 2))
  else Ok (set_pc vm (pc vm + 3)).

Definition execute_if_eqz := _execute_if_testz (fun v => v =? 0).
Definition execute_if_nez := _execute_if_testz (fun v => negb (v =? 0)).
Definition execute_if_ltz := _execute_if_testz (fun v => v <? 0).
Definition execute_if_gez := _execute_if_testz (fun v => v >=? 0).
Definition execute_if_gtz := _execute_if_testz (fun v => v >? 0).
Definition execute_if_lez := _execute_if_testz (fun v => v <=? 0).

(** [int.from_bytes(vm.bytecode[a:a+n], 'little', signed=...)] *)
Definition code_int (vm : DalvikVM) (a n : Z) (signed : bool) : Z :=
  Py.from_bytes (Py.slice (bytecode vm) a (a + n)) signed.

(** [packed-switch vAA, +BBBBBBBB] *)
Definition execute_packed_switch (vm : DalvikVM) : res DalvikVM :=
  reg ← code_at vm (pc vm);
  let offset := code_int vm (pc vm + 1) 4 true in
  switch_val ← get_int (registers vm) reg;
  let instr_start := pc vm - 1 in
  let payload_addr := instr_start + offset * 2 in
  let len := Z.of_nat (length (bytecode vm)) in
  if len <? payload_addr + 8 then Ok (set_pc vm (pc vm + 5))
  else
    let ident := code_int vm payload_addr 2 false in
    if negb (ident =? 0x0100) then Ok (set_pc vm (pc vm + 5))
    else
      let size := code_int vm (payload_addr + 2) 2 false in
      let first_key := code_int vm (payload_addr + 4) 4 true in
      if (first_key <=? switch_val) && (switch_val <? first_key + size) then
        let idx := switch_val - first_key in
        let targets_start := payload_addr + 8 in
        let target_offset_addr := targets_start + idx * 4 in
        if target_offset_addr + 4 <=? len then
          let target_offset := code_int vm target_offset_addr 4 true in
          Ok (set_pc vm (instr_start + target_offset * 2))
        else Ok (set_pc vm (pc vm + 5))
      else Ok (set_pc vm (pc vm + 5)).

(** The search loop of [sparse-switch], [for i in range(size)] from [i]
    on with [n] rounds left: the branch target when a key matches and
    its target lies inside the code. *)
Fixpoint sparse_search (vm : DalvikVM) (keys_start targets_start switch_val : Z)
    (n : nat) (i : Z) : option Z :=
  match n with
  | O => None
  | S n' =>
      let len := Z.of_nat (length (bytecode vm)) in
      let key_addr := keys_start + i * 4 in
      if len <? key_addr + 4 then None
      else
        let key := code_int vm key_addr 4 true in
        if key =? switch_val then
          let target_addr := targets_start + i * 4 in
          if target_addr + 4 <=? len
          then Some (code_int vm target_addr 4 true)
          else sparse_search vm keys_start targets_start switch_val n' (i + 1)
        else sparse_search vm keys_start targets_start switch_val n' (i + 1)
  end.

(** [sparse-switch vAA, +BBBBBBBB] *)
Definition execute_sparse_switch (vm : DalvikVM) : res DalvikVM :=
  reg ← code_at vm (pc vm);
  let offset := code_int vm (pc vm + 1) 4 true in
  switch_val ← get_int (registers vm) reg;
  let instr_start := pc vm - 1 in
  let payload_addr := instr_start + offset * 2 in
  let len := Z.of_nat (length (bytecode vm)) in
  if len <? payload_addr + 4 then Ok (set_pc vm (pc vm + 5))
  else
    let ident := code_int vm payload_addr 2 false in
    if negb (ident =? 0x0200) then Ok (set_pc vm (pc vm + 5))
    else
      let size := code_int vm (payload_addr + 2) 2 false in
      let keys_start := payload_addr + 4 in
      let targets_start := keys_start + size * 4 in
      match sparse_search vm keys_start targets_start switch_val (Z.to_nat size) 0 with
      | Some target_offset => Ok (set_pc vm (instr_start + target_offset * 2))
      | None => Ok (set_pc vm (pc vm + 5))
      end.

End ControlOps.

Export ControlOps.

(* ===================================================================== *)
(** ** [dalvik_vm/opcodes/arithmetic.py]: conversions, comparison, negation *)
(* ===================================================================== *)

Module Conversions.

(** [int-to-long vA, vB] *)
Definition execute_int_to_long (vm : DalvikVM) : res DalvikVM :=
  byte1 ← code_at vm (pc vm);
  let dst := Z.land byte1 0xF in
  let src := Z.shiftr byte1 4 in
  val ← get_int (registers vm) src;
  vm ← write_reg vm dst (VInt val);
  vm ← write_reg vm (dst + 1) VNone;
  Ok (set_pc vm (pc vm + 1)).

(** [int-to-byte vA, vB] *)
Definition execute_int_to_byte (vm : DalvikVM) : res DalvikVM :=
  byte1 ← code_at vm (pc vm);
  let dst := Z.land byte1 0xF in
  let src := Z.shiftr byte1 4 in
  v ← get_int (registers vm) src;
  let val := Z.land v 0xFF in
  let val := if 127 <? val then val - 256 else val in
  vm ← write_reg vm dst (VInt val);
  Ok (set_pc vm (pc vm + 1)).

(** [int-to-char vA, vB] *)
Definition execute_int_to_char (vm : DalvikVM) : res DalvikVM :=
  byte1 ← code_at vm (pc vm);
  let dst := Z.land byte1 0xF in
  let src := Z.shiftr byte1 4 in
  v ← get_int (registers vm) src;
  let val := Z.land v 0xFFFF in
  vm ← write_reg vm dst (VInt val);
  Ok (set_pc vm (pc vm + 1)).

(** [int-to-short vA, vB] *)
Definition execute_int_to_short (vm : DalvikVM) : res DalvikVM :=
  byte1 ← code_at vm (pc vm);
  let dst := Z.land byte1 0xF in
  let src := Z.shiftr byte1 4 in
  v ← get_int (registers vm) src;
  let val := Z.land v 0xFFFF in
  let val := if 32767 <? val then val - 65536 else val in
  vm ← write_reg vm dst (VInt val);
  Ok (set_pc vm (pc vm + 1)).

(** [cmp-long vAA, vBB, vCC] *)
Definition execute_cmp_long (vm : DalvikVM) : res DalvikVM :=
  aa ← code_at vm (pc vm);
  bb ← code_at vm (pc vm + 1);
  cc ← code_at vm (pc vm + 2);
  v_b ← get_int (registers vm) bb;
  v_c ← get_int (registers vm) cc;
  let result := if v_b <? v_c then -1 else if v_b =? v_c then 0 else 1 in
  vm ← write_reg vm aa (VInt result);
  Ok (set_pc vm (pc vm + 3)).

(** [neg-int vA, vB] *)
Definition execute_neg_int (vm : DalvikVM) : res DalvikVM :=
  byte1 ← code_at vm (pc vm);
  let dst := Z.land byte1 0xF in
  let src := Z.shiftr byte1 4 in
  val ← get_int (registers vm) src;
  vm ← write_reg vm dst (VInt (- val));
  Ok (set_pc vm (pc vm + 1)).

(** [not-int vA, vB] *)
Definition execute_not_int (vm : DalvikVM) : res DalvikVM :=
  byte1 ← code_at vm (pc vm);
  let dst := Z.land byte1 0xF in
  let src := Z.shiftr byte1 4 in
  val ← get_int (registers vm) src;
  vm ← write_reg vm dst (VInt (Z.lnot val));
  Ok (set_pc vm (pc vm + 1)).

End Conversions.

Export Conversions.

(* ===================================================================== *)
(** ** Families of handlers, for the statements about them *)
(* ===================================================================== *)

Module Families.





(** The conversions that narrow an integer. *)
Inductive narrowing := ToByte | ToChar | ToShort | ToInt.

Definition narrowing_handler (n : narrowing) : DalvikVM -> res DalvikVM :=
  match n with
  | ToByte => execute_int_to_byte
  | ToChar => execute_int_to_char
  | ToShort => execute_int_to_short
  | ToInt => execute_long_to_int
  end.

Definition narrowing_bits (n : narrowing) : Z :=
  match n with
  | ToByte => 8
  | ToChar | ToShort => 16
  | ToInt => 32
  end.

(** The least value of the target type: [char] is the unsigned one. *)
Definition narrowing_min (n : narrowing) : Z :=
  match n with
  | ToChar => 0
  | _ => - 2 ^ (narrowing_bits n - 1)
  end.

(** The two-register tests and the tests against zero, each with its
    opposite. *)
Inductive test_pair := EqNe | LtGe | GtLe | EqzNez | LtzGez | GtzLez.

Definition test_handler (p : test_pair) : DalvikVM -> res DalvikVM :=
  match p with
  | EqNe => execute_if_eq
  | LtGe => execute_if_lt
  | GtLe => execute_if_gt
  | EqzNez => execute_if_eqz
  | LtzGez => execute_if_ltz
  | GtzLez => execute_if_gtz
  end.

Definition opposite_handler (p : test_pair) : DalvikVM -> res DalvikVM :=
  match p with
  | EqNe => execute_if_ne
  | LtGe => execute_if_ge
  | GtLe => execute_if_le
  | EqzNez => execute_if_nez
  | LtzGez => execute_if_gez
  | GtzLez => execute_if_lez
  end.

(** [val is None] *)
Definition is_none (v : pyval) : bool :=
  match v with VNone => true | _ => false end.

(** The branch offset of a test, in code units. *)
Definition branch_offset (vm : DalvikVM) : Z :=
  Py.from_bytes (Py.slice (bytecode vm) (pc vm + 1) (pc vm + 3)) true.

(** Where a taken branch lands. *)
Definition branch_target (vm : DalvikVM) : Z := (pc vm - 1) + branch_offset vm * 2.

(** Key [i] and target [i] of a sparse-switch payload at [payload_addr]
    with [size] entries. *)
Definition sparse_key (vm : DalvikVM) (payload_addr i : Z) : Z :=
  code_int vm (payload_addr + 4 + i * 4) 4 true.

Definition sparse_target (vm : DalvikVM) (payload_addr size i : Z) : Z :=
  code_int vm (payload_addr + 4 + size * 4 + i * 4) 4 true.

(** Target [i] of a packed-switch payload at [payload_addr]. *)
Definition packed_target (vm : DalvikVM) (payload_addr i : Z) : Z :=
  code_int vm (payload_addr + 8 + i * 4) 4 true.

(** Where the payload of the switch at [pc vm - 1] lies. *)
Definition switch_payload (vm : DalvikVM) : Z :=
  (pc vm - 1) + code_int vm (pc vm + 1) 4 true * 2.

(** *** Programs on which the statements are exercised *)

(** [const/4 v1, #-1] *)
Definition const4_vm : DalvikVM := vm_at [0x12; 0xF1] [].

(** [move v0, v1] with one register, and with two. *)
Definition move_oob_vm : DalvikVM := vm_at [0x01; 0x10] [VInt 5].
Definition move_vm : DalvikVM := vm_at [0x01; 0x10] [VInt 5; VStr "s"].

(** [int-to-byte v0, v1] with [v1 = 200]. *)
Definition to_byte_vm : DalvikVM := vm_at [0x8D; 0x10] [VInt 0; VInt 200].

(** [if-lt v0, v1, +4] with [v0 = 1], [v1 = 2]. *)
Definition if_lt_vm : DalvikVM := vm_at [0x34; 0x10; 0x04; 0x00] [VInt 1; VInt 2].

(** [if-eqz v0, +4] with a string in [v0]. *)
Definition if_eqz_vm : DalvikVM := vm_at [0x38; 0x00; 0x04; 0x00] [VStr "s"].

(** [packed-switch v0, +4] with [v0 = 11], over the keys 10 and 11 with
    targets +3 and +5. *)
Definition packed_switch_vm : DalvikVM :=
  vm_at [0x2B; 0x00; 0x04; 0x00; 0x00; 0x00; 0x00; 0x00;
         0x00; 0x01; 0x02; 0x00; 0x0A; 0x00; 0x00; 0x00;
         0x03; 0x00; 0x00; 0x00; 0x05; 0x00; 0x00; 0x00]
        [VInt 11].

(** [sparse-switch v0, +4] with [v0 = 7], over the keys -1, 7 and 7 with
    targets +3, +5 and +9. *)
Definition sparse_switch_vm : DalvikVM :=
  vm_at [0x2C; 0x00; 0x04; 0x00; 0x00; 0x00; 0x00; 0x00;
         0x00; 0x02; 0x03; 0x00;
         0xFF; 0xFF; 0xFF; 0xFF; 0x07; 0x00; 0x00; 0x00; 0x07; 0x00; 0x00; 0x00;
         0x03; 0x00; 0x00; 0x00; 0x05; 0x00; 0x00; 0x00; 0x09; 0x00; 0x00; 0x00]
        [VInt 7].

(** [new-array v0, v1, type@3] with [v1 = -2]. *)
Definition new_array_vm : DalvikVM := vm_at [0x23; 0x10; 0x03; 0x00] [VInt 0; VInt (-2)].

(** [aput v2, v0, v1] and [aget v3, v0, v1] with the array of handle 0 in
    [v0], the index 1 in [v1] and 42 in [v2]. *)
Definition aput_vm : DalvikVM := vm_at [0x4B; 0x02; 0x00; 0x01] [VArr 0; VInt 1; VInt 42].
Definition aget_vm : DalvikVM := vm_at [0x44; 0x03; 0x00; 0x01] [VArr 0; VInt 1; VInt 42].

(** [fill-array-data v0, +3] with a payload of two elements of width 2,
    [0xFFFF] and [0x0001]. *)
Definition fill_vm : DalvikVM :=
  vm_at [0x26; 0x00; 0x03; 0x00; 0x00; 0x00;
         0x00; 0x03; 0x02; 0x00; 0x02; 0x00; 0x00; 0x00;
         0xFF; 0xFF; 0x01; 0x00]
        [VArr 0].

End Families.

Export Families.

(* ===================================================================== *)
(** ** [dalvik_vm/dex_parser.py]: ULEB128 and the unified method index *)
(* ===================================================================== *)

Module DexIndex.

(** The loop of [SingleDexData._read_uleb128].  Every round reads one
    more byte, so the index leaves the data after at most
    [len(data) - offset] rounds and the read raises [IndexError]; [fuel]
    is one more than that, and running out of it is marked
    [NotModelled]. *)
Fixpoint uleb128_loop (dex_data : list byte) (offset : Z) (fuel : nat)
    (result shift count : Z) : res (Z * Z) :=
  match fuel with
  | O => Raise NotModelled
  | S fuel' =>
      b ← Py.index dex_data (offset + count);
      let byte := byte_val b in
      let result := Z.lor result (Z.shiftl (Z.land byte 0x7f) shift) in
      let count := count + 1 in
      if Z.land byte 0x80 =? 0 then Ok (result, count)
      else uleb128_loop dex_data offset fuel' result (shift + 7) count
  end.

(** [SingleDexData._read_uleb128]: the value and the number of bytes
    read. *)
Definition _read_uleb128 (dex_data : list byte) (offset : Z) : res (Z * Z) :=
  let rounds := Z.to_nat (Z.max 0 (Z.of_nat (length dex_data) - offset)) in
  uleb128_loop dex_data offset (S rounds) 0 0 0.

(** An entry of the prototype table and of the method table. *)
Record ProtoId := mkProto {
  shorty : string;
  return_type : string;
  params_off : Z
}.

Record MethodId := mkMethodId {
  m_class : string;
  m_name : string;
  m_proto : ProtoId
}.

(** [class SingleDexData], once parsed: the tables that
    [_build_unified_index] reads. *)
Record SingleDexData := mkDex {
  dex_name : string;
  dex_strings : list string;
  dex_types : list string;
  dex_protos : list ProtoId;
  dex_methods : list MethodId
}.

(** [class DexParser]: the DEX files and the unified tables. *)
Record DexParser := mkParser {
  dex_files : list SingleDexData;
  _method_index_map : gmap Z (Z * Z);
  _dex_method_offsets : list Z;
  all_strings : list string;
  all_types : list string;
  all_protos : list ProtoId;
  all_methods : list MethodId
}.

(** The parser as [__init__] leaves it before [_build_unified_index]. *)
Definition parsed (dexes : list SingleDexData) : DexParser :=
  {| dex_files := dexes; _method_index_map := ∅; _dex_method_offsets := [];
     all_strings := []; all_types := []; all_protos := []; all_methods := [] |}.

(** [for local_idx in range(len(dex.methods)):
       self._method_index_map[global_offset + local_idx] = (dex_idx, local_idx)] *)
Definition index_methods (dex_idx global_offset : Z) (n : nat) (m : gmap Z (Z * Z))
    : gmap Z (Z * Z) :=
  foldl (fun m local_idx => <[global_offset + local_idx := (dex_idx, local_idx)]> m)
        m (seqZ 0 (Z.of_nat n)).

(** The loop of [_build_unified_index] over [enumerate(self.dex_files)],
    from [dex_idx] on. *)
Fixpoint build_index_loop (dexes : list SingleDexData) (dex_idx global_offset : Z)
    (p : DexParser) : DexParser :=
  match dexes with
  | [] => p
  | dex :: rest =>
      let p :=
        {| dex_files := dex_files p;
           _method_index_map :=
             index_methods dex_idx global_offset (length (dex_methods dex))
               (_method_index_map p);
           _dex_method_offsets := _dex_method_offsets p ++ [global_offset];
           all_strings := all_strings p ++ dex_strings dex;
           all_types := all_types p ++ dex_types dex;
           all_protos := all_protos p ++ dex_protos dex;
           all_methods := all_methods p ++ dex_methods dex |} in
      build_index_loop rest (dex_idx + 1)
        (global_offset + Z.of_nat (length (dex_methods dex))) p
  end.

(** [DexParser._build_unified_index] *)
Definition _build_unified_index (p : DexParser) : DexParser :=
  build_index_loop (dex_files p) 0 0 p.

(** The fallback loop of [_resolve_method_idx] over
    [enumerate(self._dex_method_offsets)], from [i] on. *)
Fixpoint resolve_fallback (p : DexParser) (method_idx : Z) (offsets : list Z) (i : Z)
    : res (SingleDexData * Z) :=
  match offsets with
  | [] => Raise ValueError
  | offset :: rest =>
      dex ← Py.index (dex_files p) i;
      if method_idx <? offset + Z.of_nat (length (dex_methods dex))
      then Ok (dex, method_idx - offset)
      else resolve_fallback p method_idx rest (i + 1)
  end.

(** [DexParser._resolve_method_idx] *)
Definition _resolve_method_idx (p : DexParser) (method_idx : Z)
    : res (SingleDexData * Z) :=
  match _method_index_map p !! method_idx with
  | Some (dex_idx, local_idx) =>
      dex ← Py.index (dex_files p) dex_idx;
      Ok (dex, local_idx)
  | None => resolve_fallback p method_idx (_dex_method_offsets p) 0
  end.

(** [DexParser.get_method_name] on the unified method table. *)
Definition method_name_of (p : DexParser) (method_idx : Z) : res string :=
  if Z.of_nat (length (all_methods p)) <=? method_idx
  then Ok ("method_" +:+ PyStr.str_of_int method_idx)
  else
    m ← Py.index (all_methods p) method_idx;
    Ok (m_class m +:+ "->" +:+ m_name m).

(** *** For the statements *)

(** The little-endian base-128 value of a sequence of bytes, each taken
    without its top bit. *)
Fixpoint base128 (bs : list byte) : Z :=
  match bs with
  | [] => 0
  | b :: rest => byte_val b mod 128 + 128 * base128 rest
  end.

(** Where the unified method index [n] falls: the position of the DEX
    file and the index in its method table. *)
Fixpoint locate (dexes : list SingleDexData) (n : Z) : option (nat * Z) :=
  match dexes with
  | [] => None
  | dex :: rest =>
      if n <? Z.of_nat (length (dex_methods dex))
      then (if 0 <=? n then Some (O, n) else None)
      else
        match locate rest (n - Z.of_nat (length (dex_methods dex))) with
        | Some (k, l) => Some (S k, l)
        | None => None
        end
  end.

(** The number of methods of a list of DEX files. *)
Definition method_count (dexes : list SingleDexData) : Z :=
  Z.of_nat (length (concat (map dex_methods dexes))).

(** What a decoding yields: a string of code points no longer than the
    data, or [ValueError] with a byte from [0xF0] up in the data. *)
Definition decode_outcome (data : list byte) (r : res pystr) : Prop :=
  match r with
  | Ok s => (length s <= length data)%nat /\ Forall is_code_point s
  | Raise e => e = ValueError /\ exists b, b ∈ data /\ 0xF0 <= byte_val b
  end.

(** Two DEX files with two methods and one. *)
Definition example_dexes : list SingleDexData :=
  [ mkDex "classes.dex" [] [] []
      [ mkMethodId "LA;" "f" (mkProto "V" "V" 0);
        mkMethodId "LA;" "g" (mkProto "I" "I" 0) ];
    mkDex "classes2.dex" [] [] []
      [ mkMethodId "LB;" "h" (mkProto "V" "V" 0) ] ].

End DexIndex.

Export DexIndex.

(* ===================================================================== *)
(** ** [dalvik_vm/mocks/dispatch.py] and [dalvik_vm/opcodes/field.py]:
       static fields *)
(* ===================================================================== *)

Module FieldOps.

(** A value of the table of mocked static fields: a plain value, or one
    of the two shared [Boolean] objects that the module builds when it is
    loaded. *)
Inductive mock_static :=
| MockValue (v : pyval)
| MockBoolean (b : bool).

(** [ANDROID_STATIC_FIELDS], with [mock_config.sdk_int] at its default. *)
Definition ANDROID_STATIC_FIELDS : list (string * mock_static) :=
  [ ("Landroid/os/Build$VERSION;->SDK_INT", MockValue (VInt 30));
    ("Ljava/lang/Boolean;->TRUE", MockBoolean true);
    ("Ljava/lang/Boolean;->FALSE", MockBoolean false);
    ("Ljava/lang/Integer;->TYPE", MockValue (VStr "int"));
    ("Ljava/lang/Long;->TYPE", MockValue (VStr "long"));
    ("Ljava/lang/Boolean;->TYPE", MockValue (VStr "boolean"));
    ("Ljava/lang/Byte;->TYPE", MockValue (VStr "byte"));
    ("Ljava/lang/Character;->TYPE", MockValue (VStr "char"));
    ("Ljava/lang/Short;->TYPE", MockValue (VStr "short"));
    ("Ljava/lang/Float;->TYPE", MockValue (VStr "float"));
    ("Ljava/lang/Double;->TYPE", MockValue (VStr "double"));
    ("Ljava/lang/Void;->TYPE", MockValue (VStr "void")) ].

(** [get_android_static_field] *)
Definition get_android_static_field (field_sig : string) : option mock_static :=
  match List.find (fun kv => bool_decide (fst kv = field_sig)) ANDROID_STATIC_FIELDS with
  | Some (_, v) => Some v
  | None => None
  end.

(** The loop of [execute_sget] over the parts of the trace string: the
    first mocked field that a part names. *)
Fixpoint sget_mock (parts : list string) : option mock_static :=
  match parts with
  | [] => None
  | part :: rest =>
      if PyStr.startswith part "L" && PyStr.contains "->" part then
        let field_sig :=
          match PyStr.split_on ":" (PyStr.rstrip_char "," part) with
          | s :: _ => s
          | [] => EmptyString
          end in
        match get_android_static_field field_sig with
        | Some mock_val => Some mock_val
        | None => sget_mock rest
        end
      else sget_mock rest
  end.

(** [sget vAA, field@BBBB] and its variants.  The shared [Boolean]
    objects are not part of the heap of this development: a read of
    [Boolean.TRUE] or [Boolean.FALSE] is marked [NotModelled]. *)
Definition execute_sget (vm : DalvikVM) (w : World) : res (DalvikVM * World) :=
  reg_dest ← code_at vm (pc vm);
  let field_idx := read_u16 vm (pc vm + 1) in
  let trace_str := trace_str_of vm in
  match (if PyStr.contains "->" trace_str then sget_mock (PyStr.split trace_str)
         else None) with
  | Some (MockValue mock_val) =>
      vm ← write_reg vm reg_dest mock_val;
      Ok (set_pc vm (pc vm + 3), w)
  | Some (MockBoolean _) => Raise NotModelled
  | None =>
      val ← get_by_idx (store w) field_idx trace_str (VInt 0);
      vm ← write_reg vm reg_dest val;
      Ok (set_pc vm (pc vm + 3), w)
  end.

(** [sput vAA, field@BBBB] and its variants. *)
Definition execute_sput (vm : DalvikVM) (w : World) : res (DalvikVM * World) :=
  reg_src ← code_at vm (pc vm);
  let field_idx := read_u16 vm (pc vm + 1) in
  let trace_str := trace_str_of vm in
  val ← reg_value vm reg_src;
  st ← set_by_idx (store w) field_idx val trace_str;
  Ok (set_pc vm (pc vm + 3), set_store w st).

(** *** For the statements *)

(** The class and the field that [get_by_idx] and [set_by_idx] cut out
    of a trace string; [None] without an arrow. *)
Definition trace_field (trace_str : string) : res (option (string * string)) :=
  if PyStr.contains "->" trace_str then
    let parts := PyStr.split_on "->" trace_str in
    if 2 <=? Z.of_nat (length parts) then
      p0 ← Py.index parts 0;
      class_part ← Py.index (PyStr.split p0) (-1);
      p1 ← Py.index parts 1;
      field_part ← Py.index (PyStr.split p1) 0;
      Ok (Some (class_part, field_part))
    else Ok None
  else Ok None.

(** [sput v0, LFoo;->bar I] and [sget v1, LFoo;->bar I], each alone in
    its code, the first with 5 in [v0]. *)
Definition sput_vm : DalvikVM :=
  set_trace_map (vm_at [0x67; 0x00; 0x07; 0x00] [VInt 5])
    {[ 0 := ("sput v0, LFoo;->bar I", 4) ]}.

Definition sget_vm : DalvikVM :=
  set_trace_map (vm_at [0x60; 0x01; 0x07; 0x00] [])
    {[ 0 := ("sget v1, LFoo;->bar I", 4) ]}.

(** [invoke-static {v1, v0}, method@7]. *)
Definition invoke_args_vm : DalvikVM :=
  vm_at [0x71; 0x20; 0x07; 0x00; 0x01; 0x00] [VInt 10; VInt 11].

End FieldOps.

Export FieldOps.

(* ===================================================================== *)
(** * Properties *)
(* ===================================================================== *)

(** ** Registers and bytecode reads *)

Section RegisterFacts.

Implicit Types (regs : list RegisterValue) (vm : DalvikVM).

Lemma bind_Ok {A B} (m : res A) (k : A -> res B) (b : B) :
  m ≫= k = Ok b -> exists a, m = Ok a /\ k a = Ok b.
Proof. destruct m as [a|e]; simpl; [eauto | discriminate]. Qed.

Lemma index_nonneg {A} (l : list A) (i : Z) :
  0 <= i -> Py.index l i = of_option IndexError (l !! Z.to_nat i).
Proof.
  intros Hi. unfold Py.index.
  destruct (Z.leb_spec 0 i); [reflexivity | lia].
Qed.

Lemma index_in_range {A} (l : list A) (i : Z) :
  0 <= i < Z.of_nat (length l) -> exists a, Py.index l i = Ok a /\ l !! Z.to_nat i = Some a.
Proof.
  intros [Hi Hlt]. rewrite index_nonneg by assumption.
  destruct (lookup_lt_is_Some_2 l (Z.to_nat i)) as [a Ha]; [lia |].
  exists a. rewrite Ha. auto.
Qed.

Lemma byte_val_range (b : byte) : 0 <= byte_val b < 256.
Proof.
  unfold byte_val. pose proof (Byte.to_N_bounded b) as Hb. lia.
Qed.

Lemma code_at_range vm off b : code_at vm off = Ok b -> 0 <= b < 256.
Proof.
  unfold code_at. intros H. apply bind_Ok in H as (x & _ & Hx).
  injection Hx as <-. apply byte_val_range.
Qed.

Lemma code_at_in_range vm off :
  0 <= off < Z.of_nat (length (bytecode vm)) -> exists b, code_at vm off = Ok b.
Proof.
  intros H. destruct (index_in_range (bytecode vm) off H) as (a & Ha & _).
  exists (byte_val a). unfold code_at. rewrite Ha. reflexivity.
Qed.

Lemma get_int_lookup regs idx rv :
  0 <= idx -> regs !! Z.to_nat idx = Some rv -> get_int regs idx = Ok (int_reading (value rv)).
Proof.
  intros Hi Hl. unfold get_int.
  pose proof (lookup_lt_Some _ _ _ Hl) as Hlen.
  destruct (Z.leb_spec (Z.of_nat (length regs)) idx); [lia |].
  rewrite index_nonneg by assumption. rewrite Hl. simpl.
  destruct (value rv); reflexivity.
Qed.

Lemma get_int_beyond regs idx :
  Z.of_nat (length regs) <= idx -> get_int regs idx = Ok 0.
Proof.
  intros H. unfold get_int.
  destruct (Z.leb_spec (Z.of_nat (length regs)) idx); [reflexivity | lia].
Qed.

Lemma get_int_total regs idx : 0 <= idx -> exists n, get_int regs idx = Ok n.
Proof.
  intros Hi. destruct (Z_lt_le_dec idx (Z.of_nat (length regs))) as [Hlt | Hge].
  - destruct (lookup_lt_is_Some_2 regs (Z.to_nat idx)) as [rv Hrv]; [lia |].
    eexists. eapply get_int_lookup; eassumption.
  - eexists. apply get_int_beyond. assumption.
Qed.

Lemma extended_length regs idx : 0 <= idx -> (Z.to_nat idx < length (extended regs idx))%nat.
Proof.
  intros Hi. unfold extended.
  destruct (Z.leb_spec (Z.of_nat (length regs)) idx).
  - rewrite length_app, length_replicate. lia.
  - lia.
Qed.

Lemma reg_set_nonneg regs idx v :
  0 <= idx -> reg_set regs idx v = Ok (<[Z.to_nat idx := v]> (extended regs idx)).
Proof.
  intros Hi. unfold reg_set, extended.
  destruct (Z.leb_spec 0 idx); [reflexivity | lia].
Qed.

Lemma reg_set_lookup regs idx v regs' :
  0 <= idx -> reg_set regs idx v = Ok regs' -> regs' !! Z.to_nat idx = Some v.
Proof.
  intros Hi. rewrite reg_set_nonneg by assumption. intros [= <-].
  apply list_lookup_insert_eq. apply extended_length. assumption.
Qed.

Lemma get_int_extended regs idx j :
  0 <= j -> get_int (extended regs idx) j = get_int regs j.
Proof.
  intros Hj. unfold extended.
  destruct (Z.leb_spec (Z.of_nat (length regs)) idx) as [Hle | Hgt]; [| reflexivity].
  destruct (Z_lt_le_dec j (Z.of_nat (length regs))) as [Hlt | Hge].
  - destruct (lookup_lt_is_Some_2 regs (Z.to_nat j)) as [rv Hrv]; [lia |].
    rewrite (get_int_lookup regs j rv) by assumption.
    apply get_int_lookup; [assumption |].
    rewrite lookup_app_l by lia. assumption.
  - rewrite (get_int_beyond regs j) by assumption.
    set (ext := regs ++ _).
    destruct (Z_lt_le_dec j (Z.of_nat (length ext))) as [Hlt' | Hge'].
    + destruct (lookup_lt_is_Some_2 ext (Z.to_nat j)) as [rv Hrv]; [lia |].
      rewrite (get_int_lookup ext j rv) by assumption.
      subst ext. rewrite lookup_app_r in Hrv by lia.
      apply lookup_replicate in Hrv as [-> _]. reflexivity.
    + apply get_int_beyond. assumption.
Qed.

Lemma get_int_reg_set_eq regs idx v regs' :
  0 <= idx -> reg_set regs idx v = Ok regs' ->
  get_int regs' idx = Ok (int_reading (value v)).
Proof.
  intros Hi Hs. apply get_int_lookup; [assumption |].
  eapply reg_set_lookup; eassumption.
Qed.

Lemma get_int_reg_set_ne regs idx j v regs' :
  0 <= idx -> 0 <= j -> j <> idx -> reg_set regs idx v = Ok regs' ->
  get_int regs' j = get_int regs j.
Proof.
  intros Hi Hj Hne. rewrite reg_set_nonneg by assumption. intros [= <-].
  rewrite <- (get_int_extended regs idx j) by assumption.
  set (ext := extended regs idx).
  destruct (Z_lt_le_dec j (Z.of_nat (length ext))) as [Hlt | Hge].
  - destruct (lookup_lt_is_Some_2 ext (Z.to_nat j)) as [rv Hrv]; [lia |].
    rewrite (get_int_lookup ext j rv) by assumption.
    apply get_int_lookup; [assumption |].
    rewrite list_lookup_insert_ne by lia. assumption.
  - rewrite (get_int_beyond ext j) by assumption.
    apply get_int_beyond. rewrite length_insert. assumption.
Qed.


Lemma reg_value_lookup vm idx rv :
  0 <= idx -> registers vm !! Z.to_nat idx = Some rv -> reg_value vm idx = Ok (value rv).
Proof.
  intros Hi Hl. unfold reg_value, reg_get. rewrite index_nonneg by assumption.
  rewrite Hl. reflexivity.
Qed.

Lemma write_reg_nonneg vm idx v :
  0 <= idx ->
  exists regs', write_reg vm idx v = Ok (set_registers vm regs') /\
                reg_set (registers vm) idx (mkRegisterValue v) = Ok regs'.
Proof.
  intros Hi. unfold write_reg. rewrite reg_set_nonneg by assumption.
  eexists. split; reflexivity.
Qed.

End RegisterFacts.

(** ** Arithmetic handlers *)

Section ArithmeticFacts.

Implicit Types (vm : DalvikVM) (f : format).

Ltac res_step H :=
  let x := fresh "x" in
  let Hx := fresh "Hx" in
  apply bind_Ok in H as (x & Hx & H).

Lemma land_15_nonneg x : 0 <= x -> 0 <= Z.land x 15.
Proof. intros Hx. apply Z.land_nonneg. lia. Qed.

Lemma shiftr_4_nonneg x : 0 <= x -> 0 <= Z.shiftr x 4.
Proof. intros Hx. apply Z.shiftr_nonneg. assumption. Qed.

Lemma dest_reg_nonneg f vm dest : dest_reg f vm = Ok dest -> 0 <= dest.
Proof.
  unfold dest_reg. intros H. res_step H.
  apply code_at_range in Hx.
  destruct f; injection H as <-; try lia; apply land_15_nonneg; lia.
Qed.

(** What the helper of each format stores, given the operand values. *)
Lemma arith_23x_run op vm dest a b :
  dest_reg F23x vm = Ok dest -> first_int F23x vm = Ok a -> second_int F23x vm = Ok b ->
  exists vm', _arith_23x op vm = Ok vm' /\
              get_int (registers vm') dest = Ok (stored32 F23x (op a b)) /\
              pc vm' = pc vm + 3.
Proof.
  intros Hd Ha Hb. pose proof (dest_reg_nonneg _ _ _ Hd) as Hpos.
  unfold dest_reg in Hd. res_step Hd. injection Hd as ->.
  unfold first_int, first_reg in Ha. res_step Ha.
  unfold second_int, second_reg in Hb. res_step Hb.
  destruct (write_reg_nonneg vm dest (VInt (stored32 F23x (op a b))) Hpos) as (regs' & Hw & Hs).
  unfold _arith_23x. rewrite Hx, Hx0, Hx1. simpl. rewrite Ha, Hb. simpl.
  unfold stored32 in Hw. rewrite Hw. simpl.
  eexists. split; [reflexivity |]. split; [| reflexivity].
  simpl. eapply (get_int_reg_set_eq _ _ _ _ Hpos Hs).
Qed.

Lemma arith_2addr_run op vm dest a b :
  dest_reg F12x vm = Ok dest -> first_int F12x vm = Ok a -> second_int F12x vm = Ok b ->
  exists vm', _arith_2addr op vm = Ok vm' /\
              get_int (registers vm') dest = Ok (stored32 F12x (op a b)) /\
              pc vm' = pc vm + 1.
Proof.
  intros Hd Ha Hb. pose proof (dest_reg_nonneg _ _ _ Hd) as Hpos.
  unfold dest_reg in Hd. res_step Hd. injection Hd as <-.
  unfold first_int, first_reg in Ha. rewrite Hx in Ha. simpl in Ha.
  unfold second_int, second_reg in Hb. rewrite Hx in Hb. simpl in Hb.
  destruct (write_reg_nonneg vm (Z.land x 15) (VInt (stored32 F12x (op a b))) Hpos)
    as (regs' & Hw & Hs).
  unfold _arith_2addr. rewrite Hx. simpl. rewrite Ha, Hb. simpl.
  unfold stored32 in Hw. rewrite Hw. simpl.
  eexists. split; [reflexivity |]. split; [| reflexivity].
  simpl. eapply (get_int_reg_set_eq _ _ _ _ Hpos Hs).
Qed.

Lemma arith_lit16_run op vm dest a b :
  dest_reg F22s vm = Ok dest -> first_int F22s vm = Ok a -> second_int F22s vm = Ok b ->
  exists vm', _arith_lit16 op vm = Ok vm' /\
              get_int (registers vm') dest = Ok (stored32 F22s (op a b)) /\
              pc vm' = pc vm + 3.
Proof.
  intros Hd Ha Hb. pose proof (dest_reg_nonneg _ _ _ Hd) as Hpos.
  unfold dest_reg in Hd. res_step Hd. injection Hd as <-.
  unfold first_int, first_reg in Ha. rewrite Hx in Ha. simpl in Ha.
  unfold second_int in Hb. injection Hb as <-.
  destruct (write_reg_nonneg vm (Z.land x 15)
              (VInt (op a (Py.from_bytes (Py.slice (bytecode vm) (pc vm + 1) (pc vm + 3)) true)))
              Hpos) as (regs' & Hw & Hs).
  unfold _arith_lit16. rewrite Hx. simpl. rewrite Ha. simpl.
  rewrite Hw. simpl.
  eexists. split; [reflexivity |]. split; [| reflexivity].
  simpl. eapply (get_int_reg_set_eq _ _ _ _ Hpos Hs).
Qed.

Lemma arith_lit8_run op vm dest a b :
  dest_reg F22b vm = Ok dest -> first_int F22b vm = Ok a -> second_int F22b vm = Ok b ->
  exists vm', _arith_lit8 op vm = Ok vm' /\
              get_int (registers vm') dest = Ok (stored32 F22b (op a b)) /\
              pc vm' = pc vm + 3.
Proof.
  intros Hd Ha Hb. pose proof (dest_reg_nonneg _ _ _ Hd) as Hpos.
  unfold dest_reg in Hd. res_step Hd. injection Hd as ->.
  unfold first_int, first_reg in Ha. res_step Ha.
  unfold second_int in Hb. injection Hb as <-.
  destruct (write_reg_nonneg vm dest
              (VInt (op a (Py.from_bytes (Py.slice (bytecode vm) (pc vm + 2) (pc vm + 3)) true)))
              Hpos) as (regs' & Hw & Hs).
  unfold _arith_lit8. rewrite Hx, Hx0. simpl. rewrite Ha. simpl.
  rewrite Hw. simpl.
  eexists. split; [reflexivity |]. split; [| reflexivity].
  simpl. eapply (get_int_reg_set_eq _ _ _ _ Hpos Hs).
Qed.







End ArithmeticFacts.

(** ** Division and remainder by zero *)

Section DivisionByZero.

Variable H : Hooks.
Variable call : loader_call.

Lemma pure_handler_run (g : DalvikVM -> res DalvikVM) vm vm' w :
  g vm = Ok vm' -> pure_handler g vm w = Ok (vm', w).
Proof. intros Hg. unfold pure_handler. rewrite Hg. reflexivity. Qed.

Lemma stored32_zero f : stored32 f 0 = 0.
Proof. destruct f; reflexivity. Qed.

Lemma op_div_zero a : op_div a 0 = 0.
Proof. reflexivity. Qed.

Lemma op_rem_zero a : op_rem a 0 = 0.
Proof. reflexivity. Qed.






End DivisionByZero.



(** ** 32-bit integer arithmetic *)

Section Int32.

Variable H : Hooks.
Variable call : loader_call.

Ltac int32_case :=
  match goal with
  | Hd : dest_reg ?f ?vm = Ok ?dest, Ha : first_int ?f ?vm = Ok ?a,
    Hb : second_int ?f ?vm = Ok ?b
    |- exists h vm', _ /\ _ /\ _ = Ok (stored32 _ (?op _ _)) =>
      let vm' := fresh "vm'" in
      let Hr := fresh "Hr" in
      let Hg := fresh "Hg" in
      first
        [ destruct (arith_23x_run op vm dest a b Hd Ha Hb) as (vm' & Hr & Hg & _)
        | destruct (arith_2addr_run op vm dest a b Hd Ha Hb) as (vm' & Hr & Hg & _)
        | destruct (arith_lit16_run op vm dest a b Hd Ha Hb) as (vm' & Hr & Hg & _)
        | destruct (arith_lit8_run op vm dest a b Hd Ha Hb) as (vm' & Hr & Hg & _) ];
      eexists _, vm'; split; [reflexivity |]; split;
      [apply pure_handler_run; exact Hr | exact Hg]
  end.

(** What every 32-bit integer arithmetic opcode stores. *)
Lemma int32_run opc f op vm w dest a b :
  In (opc, f, op) int32_opcodes ->
  dest_reg f vm = Ok dest -> first_int f vm = Ok a -> second_int f vm = Ok b ->
  exists h vm',
    HANDLERS opc = Some h /\
    exec_handler H call h vm w = Ok (vm', w) /\
    get_int (registers vm') dest = Ok (stored32 f (op a b)).
Proof.
  intros Hin Hd Ha Hb. simpl in Hin.
  repeat (destruct Hin as [Heq | Hin]; [injection Heq as <- <- <- |]); try contradiction.
  all: int32_case.
Qed.

(** The stored value is always congruent to the result of the operation
    modulo [2^32]. *)
Lemma stored32_congruent f r : stored32 f r mod 2 ^ 32 = r mod 2 ^ 32.
Proof.
  destruct f; simpl; try reflexivity.
  - change 4294967295 with (Z.ones 32). rewrite Z.land_ones by lia.
    apply Z.mod_mod. lia.
  - destruct (2147483647 <? r); [| reflexivity].
    replace (r - 4294967296) with (r + (-1) * 2 ^ 32) by lia.
    apply Z.mod_add. lia.
Qed.

(** The three-register form stores the unsigned 32-bit value. *)
Lemma stored32_23x_range r : 0 <= stored32 F23x r < 2 ^ 32.
Proof.
  simpl. change 4294967295 with (Z.ones 32). rewrite Z.land_ones by lia.
  apply Z.mod_pos_bound. lia.
Qed.

End Int32.

(** C4 (the code departs from the claim).  Three machines on which a
    32-bit integer opcode stores a value that is not the signed 32-bit
    wrap of the result: [add-int v0, v1, v2] with [v1 = -1] and [v2 = 0]
    stores 4294967295, [sub-int/2addr v0, v1] with [v0 = -2^31] and
    [v1 = 1] stores [-2^31 - 1], and [add-int/lit8 v0, v1, 1] with
    [v1 = 2^31 - 1] stores [2^31]. *)
Theorem int32_results_not_wrapped :
  stored_by no_hooks no_calls 0x90 F23x
    (vm_at [0x90; 0; 1; 2] [VNone; VInt (-1); VInt 0]) empty_world = Ok 4294967295 /\
  wrap32 (-1 + 0) = -1 /\
  stored_by no_hooks no_calls 0xb1 F12x
    (vm_at [0xb1; 0x10] [VInt (-2147483648); VInt 1]) empty_world = Ok (-2147483649) /\
  wrap32 (-2147483648 - 1) = 2147483647 /\
  stored_by no_hooks no_calls 0xd8 F22b
    (vm_at [0xd8; 0; 1; 1] [VNone; VInt 2147483647]) empty_world = Ok 2147483648 /\
  wrap32 (2147483647 + 1) = -2147483648.
Proof. repeat split; reflexivity. Qed.

(** ** Array element access *)

Section ArrayAccess.

Variable H : Hooks.
Variable call : loader_call.

Implicit Types (vm : DalvikVM) (w : World) (arr : DalvikArray).

Ltac res_step H :=
  let x := fresh "x" in
  let Hx := fresh "Hx" in
  apply bind_Ok in H as (x & Hx & H).

Lemma array_at_lookup w h arr : arrays w !! h = Some arr -> array_at w h = Ok arr.
Proof. intros Hl. unfold array_at. rewrite Hl. reflexivity. Qed.

Lemma array_store_run w h arr i v :
  arrays w !! h = Some arr -> 0 <= i < Z.of_nat (length (data arr)) ->
  array_store w h i v = Ok (set_arrays w (<[h := with_element arr i v]> (arrays w))).
Proof.
  intros Hl Hi. unfold array_store. rewrite (array_at_lookup _ _ _ Hl). simpl.
  destruct (Z.leb_spec (Z.of_nat (length (data arr))) i); [lia | reflexivity].
Qed.

(** [aget]: the destination receives the element, or zero after a
    warning. *)
Lemma aget_run vm w aa h arr idx :
  dest_reg F23x vm = Ok aa -> first_value F23x vm = Ok (VArr h) ->
  second_int F23x vm = Ok idx -> arrays w !! h = Some arr -> buffer_covers_size arr ->
  exists vm' w', execute_aget vm w = Ok (vm', w') /\
                 access_outcome Get vm w aa h arr idx vm' w'.
Proof.
  intros Hd Ha Hi Hl Hwf. pose proof (dest_reg_nonneg _ _ _ Hd) as Hpos.
  unfold dest_reg in Hd. res_step Hd. injection Hd as ->.
  unfold first_value, first_reg in Ha. res_step Ha.
  unfold second_int, second_reg in Hi. res_step Hi.
  unfold execute_aget, access_outcome. rewrite Hx, Hx0, Hx1. simpl.
  rewrite Ha. simpl. rewrite Hi. simpl.
  rewrite (array_at_lookup _ _ _ Hl). simpl.
  destruct (decide (0 <= idx < size arr)) as [Hin | Hout].
  - destruct (Z.leb_spec 0 idx); [| lia]. destruct (Z.ltb_spec idx (size arr)); [| lia].
    simpl. unfold buffer_covers_size in Hwf.
    destruct (index_in_range (data arr) idx ltac:(lia)) as (v & Hv & Hlv).
    rewrite Hv. simpl.
    destruct (write_reg_nonneg vm aa v Hpos) as (regs' & Hw & Hs).
    rewrite Hw. simpl. eexists _, _. split; [reflexivity |].
    split; [reflexivity |]. exists v. split; [assumption |].
    apply (reg_value_lookup _ aa (mkRegisterValue v) Hpos).
    simpl. eapply reg_set_lookup; eassumption.
  - assert (Hb : (0 <=? idx) && (idx <? size arr) = false).
    { destruct (Z.leb_spec 0 idx); destruct (Z.ltb_spec idx (size arr)); simpl; try reflexivity.
      lia. }
    rewrite Hb. simpl.
    destruct (write_reg_nonneg vm aa (VInt 0) Hpos) as (regs' & Hw & Hs).
    rewrite Hw. simpl. eexists _, _. split; [reflexivity |].
    repeat split.
    apply (reg_value_lookup _ aa (mkRegisterValue (VInt 0)) Hpos).
    simpl. eapply reg_set_lookup; eassumption.
Qed.

(** [aput]: the element receives the integer reading of the source
    register, or nothing is written after a warning. *)
Lemma aput_run vm w aa h arr idx :
  dest_reg F23x vm = Ok aa -> first_value F23x vm = Ok (VArr h) ->
  second_int F23x vm = Ok idx -> arrays w !! h = Some arr -> buffer_covers_size arr ->
  exists vm' w', execute_aput vm w = Ok (vm', w') /\
                 access_outcome Put vm w aa h arr idx vm' w'.
Proof.
  intros Hd Ha Hi Hl Hwf. pose proof (dest_reg_nonneg _ _ _ Hd) as Hpos.
  unfold dest_reg in Hd. res_step Hd. injection Hd as ->.
  unfold first_value, first_reg in Ha. res_step Ha.
  unfold second_int, second_reg in Hi. res_step Hi.
  destruct (get_int_total (registers vm) aa Hpos) as (val & Hval).
  unfold execute_aput, access_outcome. rewrite Hx, Hx0, Hx1. simpl.
  rewrite Hval. simpl. rewrite Ha. simpl. rewrite Hi. simpl.
  rewrite (array_at_lookup _ _ _ Hl). simpl.
  destruct (decide (0 <= idx < size arr)) as [Hin | Hout].
  - destruct (Z.leb_spec 0 idx); [| lia]. destruct (Z.ltb_spec idx (size arr)); [| lia].
    simpl. unfold buffer_covers_size in Hwf.
    rewrite (array_store_run w h arr idx (VInt val) Hl) by lia. simpl.
    eexists _, _. split; [reflexivity |]. exists val. split; reflexivity.
  - assert (Hb : (0 <=? idx) && (idx <? size arr) = false).
    { destruct (Z.leb_spec 0 idx); destruct (Z.ltb_spec idx (size arr)); simpl; try reflexivity.
      lia. }
    rewrite Hb. simpl. eexists _, _. split; [reflexivity |]. repeat split.
Qed.

(** C5. For every array-element get and put opcode, an index outside
    [0, size) is reported with a warning and otherwise ignored: nothing is
    written to any array buffer, nothing is allocated, and a get writes
    zero to its destination register; for an index inside [0, size) a get
    returns element [idx] and a put stores into element [idx]. *)
Theorem array_access_bounds (a : access) (opc : Z) (vm : DalvikVM) (w : World)
    (aa : Z) (h : nat) (arr : DalvikArray) (idx : Z) :
  In opc (access_opcodes a) ->
  dest_reg F23x vm = Ok aa ->
  first_value F23x vm = Ok (VArr h) ->
  second_int F23x vm = Ok idx ->
  arrays w !! h = Some arr ->
  buffer_covers_size arr ->
  exists hd vm' w',
    HANDLERS opc = Some hd /\
    exec_handler H call hd vm w = Ok (vm', w') /\
    access_outcome a vm w aa h arr idx vm' w'.
Proof.
  intros Hin Hd Ha Hi Hl Hwf.
  destruct a; simpl in Hin.
  - destruct (aget_run vm w aa h arr idx Hd Ha Hi Hl Hwf) as (vm' & w' & Hr & Ho).
    repeat (destruct Hin as [<- | Hin]); try contradiction;
      (eexists _, vm', w'; split; [reflexivity |]; split; [exact Hr | exact Ho]).
  - destruct (aput_run vm w aa h arr idx Hd Ha Hi Hl Hwf) as (vm' & w' & Hr & Ho).
    repeat (destruct Hin as [<- | Hin]); try contradiction;
      (eexists _, vm', w'; split; [reflexivity |]; split; [exact Hr | exact Ho]).
Qed.

Lemma reg_value_inv vm idx v :
  0 <= idx -> reg_value vm idx = Ok v ->
  exists rv, registers vm !! Z.to_nat idx = Some rv /\ value rv = v.
Proof.
  intros Hi Hv. unfold reg_value, reg_get in Hv. rewrite index_nonneg in Hv by assumption.
  destruct (registers vm !! Z.to_nat idx) as [rv |]; simpl in Hv; [| discriminate].
  injection Hv as <-. exists rv. split; reflexivity.
Qed.

Lemma int_reading_not_int v : is_int v = false -> int_reading v = 0.
Proof. destruct v; simpl; [reflexivity | discriminate | reflexivity ..]. Qed.

(** C10. Every aput-family opcode, aput-object and aput-wide included,
    runs the one handler [execute_aput]; the value stored into an
    in-bounds element is the integer reading of the source register,
    which is 0 whenever that register holds a non-integer value (an
    object reference, array reference, string, float or null). *)
Theorem aput_stores_integer_reading (opc : Z) (vm : DalvikVM) (w : World)
    (aa : Z) (v : pyval) (h : nat) (arr : DalvikArray) (idx : Z) :
  In opc (access_opcodes Put) ->
  dest_reg F23x vm = Ok aa ->
  reg_value vm aa = Ok v ->
  first_value F23x vm = Ok (VArr h) ->
  second_int F23x vm = Ok idx ->
  arrays w !! h = Some arr ->
  buffer_covers_size arr ->
  0 <= idx < size arr ->
  exists hd vm' w' arr',
    HANDLERS opc = Some hd /\
    exec_handler H call hd = execute_aput /\
    execute_aput vm w = Ok (vm', w') /\
    arrays w' !! h = Some arr' /\
    data arr' !! Z.to_nat idx = Some (VInt (int_reading v)) /\
    (is_int v = false -> data arr' !! Z.to_nat idx = Some (VInt 0)).
Proof.
  intros Hin Hd Hv Ha Hi Hl Hwf Hb.
  pose proof (dest_reg_nonneg _ _ _ Hd) as Hpos.
  destruct (aput_run vm w aa h arr idx Hd Ha Hi Hl Hwf) as (vm' & w' & Hr & Ho).
  unfold access_outcome in Ho. destruct (decide (0 <= idx < size arr)); [| contradiction].
  destruct Ho as (val & Hval & ->).
  destruct (reg_value_inv vm aa v Hpos Hv) as (rv & Hrv & <-).
  rewrite (get_int_lookup _ _ _ Hpos Hrv) in Hval. injection Hval as <-.
  assert (Hstored : data (with_element arr idx (VInt (int_reading (value rv))))
                      !! Z.to_nat idx = Some (VInt (int_reading (value rv)))).
  { simpl. apply list_lookup_insert_eq. unfold buffer_covers_size in Hwf. lia. }
  assert (Hheap : arrays (set_arrays w (<[h := with_element arr idx
                                              (VInt (int_reading (value rv)))]> (arrays w)))
                    !! h = Some (with_element arr idx (VInt (int_reading (value rv))))).
  { simpl. apply list_lookup_insert_eq. eapply lookup_lt_Some; eassumption. }
  simpl in Hin.
  repeat (destruct Hin as [<- | Hin]); try contradiction;
    (eexists _, vm', _, _; split; [reflexivity |]; split; [reflexivity |];
     split; [exact Hr |]; split; [exact Hheap |]; split; [exact Hstored |];
     intros Hni; rewrite <- (int_reading_not_int _ Hni); exact Hstored).
Qed.

End ArrayAccess.

(** The hypotheses of [array_access_bounds] hold on concrete machines:
    a get and a put at index -1, a put at index [size], a get at index 1. *)
Lemma array_access_bounds_witness :
  (exists hd vm' w',
      HANDLERS 0x44 = Some hd /\
      exec_handler no_hooks no_calls hd
        (vm_at [0x44; 0; 1; 2] [VNone; VArr 0; VInt (-1)]) heap3 = Ok (vm', w') /\
      access_outcome Get (vm_at [0x44; 0; 1; 2] [VNone; VArr 0; VInt (-1)]) heap3
        0 0 (mkDalvikArray (TypeIdx 0) 3 [VInt 7; VInt 8; VInt 9]) (-1) vm' w') /\
  (exists hd vm' w',
      HANDLERS 0x4b = Some hd /\
      exec_handler no_hooks no_calls hd
        (vm_at [0x4b; 0; 1; 2] [VInt 5; VArr 0; VInt 3]) heap3 = Ok (vm', w') /\
      access_outcome Put (vm_at [0x4b; 0; 1; 2] [VInt 5; VArr 0; VInt 3]) heap3
        0 0 (mkDalvikArray (TypeIdx 0) 3 [VInt 7; VInt 8; VInt 9]) 3 vm' w') /\
  (exists hd vm' w',
      HANDLERS 0x46 = Some hd /\
      exec_handler no_hooks no_calls hd
        (vm_at [0x46; 0; 1; 2] [VNone; VArr 0; VInt 1]) heap3 = Ok (vm', w') /\
      access_outcome Get (vm_at [0x46; 0; 1; 2] [VNone; VArr 0; VInt 1]) heap3
        0 0 (mkDalvikArray (TypeIdx 0) 3 [VInt 7; VInt 8; VInt 9]) 1 vm' w').
Proof.
  split; [| split].
  - apply (array_access_bounds no_hooks no_calls Get 0x44); try reflexivity.
    + simpl. left. reflexivity.
    + unfold buffer_covers_size. simpl. lia.
  - apply (array_access_bounds no_hooks no_calls Put 0x4b); try reflexivity.
    + simpl. left. reflexivity.
    + unfold buffer_covers_size. simpl. lia.
  - apply (array_access_bounds no_hooks no_calls Get 0x46); try reflexivity.
    + simpl. do 2 right. left. reflexivity.
    + unfold buffer_covers_size. simpl. lia.
Defined.

(** The hypotheses of [aput_stores_integer_reading] hold on a concrete
    machine: [aput-object v0, v1, v2] with an object reference in [v0]. *)
Lemma aput_stores_integer_reading_witness :
  exists hd vm' w' arr',
    HANDLERS 0x4d = Some hd /\
    exec_handler no_hooks no_calls hd = execute_aput /\
    execute_aput (vm_at [0x4d; 0; 1; 2] [VObj 4; VArr 0; VInt 1]) heap3 = Ok (vm', w') /\
    arrays w' !! 0%nat = Some arr' /\
    data arr' !! Z.to_nat 1 = Some (VInt (int_reading (VObj 4))) /\
    (is_int (VObj 4) = false -> data arr' !! Z.to_nat 1 = Some (VInt 0)).
Proof.
  apply (aput_stores_integer_reading no_hooks no_calls 0x4d _ heap3 0 (VObj 4) 0%nat
           (mkDalvikArray (TypeIdx 0) 3 [VInt 7; VInt 8; VInt 9]) 1); try reflexivity.
  - simpl. do 2 right. left. reflexivity.
  - unfold buffer_covers_size. simpl. lia.
  - simpl. lia.
Defined.


(** ** fill-array-data *)

(** C6 (the code departs from the claim).  A one-element array built by
    [new-array] and filled by [fill-array-data] from a payload of element
    width 8 whose element is the little-endian integer 1 still holds 0:
    the handler decodes the widths 1, 2 and 4 only.  With width 4 the
    same program yields the element 1. *)
Theorem fill_array_data_width_8_ignored :
  returned_elements
    (run_method no_hooks fill_wide_loader 1 fill_wide_method [] caller_vm empty_world)
    = Some [VInt 0] /\
  Py.from_bytes (bytes_of [0x01; 0x00; 0x00; 0x00; 0x00; 0x00; 0x00; 0x00]) true = 1 /\
  returned_elements
    (run_method no_hooks fill_wide_loader 1 fill_int_method [] caller_vm empty_world)
    = Some [VInt 1].
Proof. repeat split; vm_compute; reflexivity. Qed.

(** ** Step caps *)

Section StepCaps.

Variable H : Hooks.
Variable cl : LazyClassLoader.
Variable nested : loader_call.

Ltac res_step H :=
  let x := fresh "x" in
  let Hx := fresh "Hx" in
  apply bind_Ok in H as (x & Hx & H).



Local Arguments method_loop : simpl never.
Local Arguments clinit_loop : simpl never.


End StepCaps.



(** ** Class initialization *)

Section SelfCall.

Variable nested : loader_call.

Local Arguments method_loop : simpl never.
Local Arguments clinit_loop : simpl never.

(** The initializer of [LA;] reaches its invoke with the class not yet
    marked, and hands the call to the loader. *)
Lemma selfcall_clinit_calls_loader :
  _run_clinit_steps no_hooks selfcall_loader nested "LA;" empty_world =
  '(vm, w, step) ←
     ('(vm, w) ←
        ('(ret_val, w) ← nested 1 [] selfcall_vm selfcall_invoke_text empty_world;
         Ok (finish_invoke selfcall_vm ret_val, w));
      clinit_loop no_hooks nested 499 1 vm w);
  Ok (set_store w (mark_class_initialized (store w) "LA;"), step).
Proof. reflexivity. Qed.

Lemma selfcall_clinit_raises e :
  nested 1 [] selfcall_vm selfcall_invoke_text empty_world = Raise e ->
  _run_clinit no_hooks selfcall_loader nested "LA;" empty_world = Raise e.
Proof.
  intros Hn. unfold _run_clinit. rewrite selfcall_clinit_calls_loader, Hn. reflexivity.
Qed.

(** The loader resolves the call to [LA;->helper], finds [LA;] not
    initialized, and starts [<clinit>] again in the same world. *)
Lemma selfcall_loader_reruns_clinit :
  resolve_and_execute_body no_hooks selfcall_loader nested
    1 [] selfcall_vm selfcall_invoke_text empty_world =
  '(v, w, _) ←
     ('(child_vm, w, step) ←
        (w ← _run_clinit no_hooks selfcall_loader nested "LA;" empty_world;
         '(child_vm, w, step) ←
           method_loop no_hooks nested "helper" 5000 0
             (set_silent_mode
                (set_class_loader
                   (set_trace_map (new_VM (bytes_of [0x0e; 0x00]) ∅ 0) selfcall_helper_trace)
                   true)
                true) w;
         Ok (Some child_vm, w, step));
      Ok (returned_value child_vm, w, step));
  Ok (v, w).
Proof. reflexivity. Qed.

Lemma selfcall_loader_raises e :
  _run_clinit no_hooks selfcall_loader nested "LA;" empty_world = Raise e ->
  resolve_and_execute_body no_hooks selfcall_loader nested
    1 [] selfcall_vm selfcall_invoke_text empty_world = Raise e.
Proof.
  intros Hc. rewrite selfcall_loader_reruns_clinit, Hc. reflexivity.
Qed.

End SelfCall.

Lemma selfcall_recursion (depth : nat) :
  resolve_and_execute no_hooks selfcall_loader depth
    1 [] selfcall_vm selfcall_invoke_text empty_world = Raise RecursionError /\
  run_clinit no_hooks selfcall_loader depth "LA;" empty_world = Raise RecursionError.
Proof.
  induction depth as [| d [IHcall IHclinit]].
  - split; [reflexivity |].
    apply selfcall_clinit_raises. reflexivity.
  - assert (Hcall : resolve_and_execute no_hooks selfcall_loader (S d)
                      1 [] selfcall_vm selfcall_invoke_text empty_world
                    = Raise RecursionError).
    { change (resolve_and_execute no_hooks selfcall_loader (S d))
        with (resolve_and_execute_body no_hooks selfcall_loader
                (resolve_and_execute no_hooks selfcall_loader d)).
      apply selfcall_loader_raises. exact IHclinit. }
    split; [exact Hcall |].
    apply selfcall_clinit_raises. exact Hcall.
Qed.

(** C1 (the code departs from the claim).  [_run_clinit] marks the class
    only after the initializer has run.  For the class [LA;], whose
    [<clinit>] invokes [LA;->helper()V], the nested call finds [LA;]
    unmarked and starts [<clinit>] again, and so on: whatever depth of
    nested calls the Python stack admits, the initialization ends in
    [RecursionError] and never completes. *)
Theorem clinit_self_call_recurses (depth : nat) :
  run_clinit no_hooks selfcall_loader depth "LA;" empty_world = Raise RecursionError.
Proof. apply selfcall_recursion. Qed.


(** ** Resolution order of invokes *)

Section InvokeOrder.

Variable H : Hooks.
Variable nested : loader_call.

Lemma invoke_virtual_order vm w :
  execute_invoke_virtual H nested vm w =
  dispatch_in_order H nested Virtual (order_of Virtual) vm w.
Proof.
  unfold execute_invoke_virtual, dispatch_in_order. simpl.
  destruct (decode_invoke_args vm) as [[method_idx args] | e]; [| reflexivity]. simpl.
  destruct (match method_hooks vm with Some get_hook => get_hook (trace_str_of vm)
                                   | None => None end) as [name |].
  - destruct (method_hook_body H name vm args (trace_str_of vm) w) as [[r w1] | e];
      reflexivity.
  - simpl. destruct (get_android_virtual_hook (trace_str_of vm)) as [h |].
    + destruct (run_android_hook H h vm args (trace_str_of vm) w) as [[r w1] | e];
        reflexivity.
    + simpl.
      destruct (_builtin_virtual_hooks H vm args (trace_str_of vm) w) as [[r w1] | e];
        [| reflexivity].
      simpl. destruct (is_not_None r) eqn:Hr; simpl.
      * reflexivity.
      * destruct r; try discriminate Hr.
        destruct (class_loader vm); simpl; [| reflexivity].
        destruct (negb _ && _); simpl; [| reflexivity].
        destruct (nested method_idx args vm "" w1) as [[r2 w2] | e]; reflexivity.
Qed.

Lemma invoke_static_order vm w :
  execute_invoke_static H nested vm w =
  dispatch_in_order H nested Static (order_of Static) vm w.
Proof.
  unfold execute_invoke_static, dispatch_in_order. simpl.
  destruct (decode_invoke_args vm) as [[method_idx args] | e]; [| reflexivity]. simpl.
  destruct (_builtin_static_hooks H vm args (trace_str_of vm) w) as [[r w1] | e];
    [| reflexivity].
  simpl. destruct (is_not_None r) eqn:Hr; simpl.
  { destruct r; try discriminate Hr; reflexivity. }
  destruct (get_android_static_hook (trace_str_of vm)) as [h |].
  - destruct (run_android_hook H h vm args (trace_str_of vm) w1) as [[r2 w2] | e];
      reflexivity.
  - simpl. destruct (hook vm) as [user |]; simpl.
    + destruct (user method_idx args w1) as [[r2 w2] | e]; [| reflexivity]. simpl.
      destruct (is_not_None r2); simpl; [reflexivity |].
      destruct (method_resolver vm) as [rs |]; simpl.
      * destruct (recursive_execution H rs vm method_idx args w2) as [[[res |] w3] | e];
          simpl; try reflexivity.
        destruct (class_loader vm); simpl; [| reflexivity].
        destruct (nested method_idx args vm (trace_str_of vm) w3) as [[r4 w4] | e];
          reflexivity.
      * destruct (class_loader vm); simpl; [| reflexivity].
        destruct (nested method_idx args vm (trace_str_of vm) w2) as [[r4 w4] | e];
          reflexivity.
    + destruct (method_resolver vm) as [rs |]; simpl.
      * destruct (recursive_execution H rs vm method_idx args w1) as [[[res |] w3] | e];
          simpl; try reflexivity.
        destruct (class_loader vm); simpl; [| reflexivity].
        destruct (nested method_idx args vm (trace_str_of vm) w3) as [[r4 w4] | e];
          reflexivity.
      * destruct (class_loader vm); simpl; [| reflexivity].
        destruct (nested method_idx args vm (trace_str_of vm) w1) as [[r4 w4] | e];
          reflexivity.
Qed.

(** The range forms try the built-in emulation and then the class
    loader. *)
Lemma invoke_range_order form vm w :
  is_range form = true ->
  invoke_handler H nested form vm w =
  dispatch_in_order H nested form (order_of form) vm w.
Proof.
  destruct form; intros Hr; try discriminate Hr; clear Hr;
    unfold invoke_handler, dispatch_in_order; simpl.
  - unfold execute_invoke_virtual_range.
    destruct (_decode_invoke_range_args vm) as [[method_idx args] | e]; [| reflexivity].
    simpl.
    destruct (_builtin_virtual_hooks H vm args (trace_str_of vm) w) as [[r w1] | e];
      [| reflexivity].
    simpl. destruct (is_not_None r) eqn:Hr; simpl; [reflexivity |].
    destruct r; try discriminate Hr.
    destruct (class_loader vm); simpl; [| reflexivity].
    destruct (nested method_idx args vm (trace_str_of vm) w1) as [[r2 w2] | e]; reflexivity.
  - unfold execute_invoke_static_range.
    destruct (_decode_invoke_range_args vm) as [[method_idx args] | e]; [| reflexivity].
    simpl.
    destruct (_builtin_static_hooks H vm args (trace_str_of vm) w) as [[r w1] | e];
      [| reflexivity].
    simpl. destruct (is_not_None r) eqn:Hr; simpl; [reflexivity |].
    destruct (class_loader vm); simpl; [| reflexivity].
    destruct (nested method_idx args vm (trace_str_of vm) w1) as [[r2 w2] | e]; reflexivity.
Qed.

(** C2, as the code has it, for the explicit-register forms.
    [invoke-virtual] (and with it [invoke-super] and [invoke-interface])
    tries the hook table attached to the interpreter, then the framework
    hook table, then the built-in emulation, then the class loader, and
    never the user hook; [invoke-static] tries the built-in emulation,
    then the framework hook table, then the user hook, then the method
    resolver, then the class loader.  When nothing resolves the call the
    last-result slot is set to null. *)
Theorem invoke_dispatch_order (vm : DalvikVM) (w : World) :
  execute_invoke_virtual H nested vm w =
    dispatch_in_order H nested Virtual [MethodHooks; Framework; Builtin; Loader] vm w /\
  execute_invoke_super H nested = execute_invoke_virtual H nested /\
  execute_invoke_interface H nested = execute_invoke_virtual H nested /\
  execute_invoke_static H nested vm w =
    dispatch_in_order H nested Static [Builtin; Framework; UserHook; Resolver; Loader] vm w.
Proof.
  split; [apply invoke_virtual_order |].
  split; [reflexivity |]. split; [reflexivity |].
  apply invoke_static_order.
Qed.

End InvokeOrder.

(** C2 as stated fails: at [invoke-virtual {v0}, LFoo;->bar()I], with a
    user hook that answers 42 and neither a framework hook nor a built-in
    emulation for the method, the claimed order leaves 42 in the
    last-result slot while the handler leaves null. *)
Lemma invoke_virtual_skips_user_hook :
  last_result_after
    (dispatch_in_order no_hooks no_calls Virtual claimed_order hooked_vm empty_world)
    = Some (Some (mkRegisterValue (VInt 42))) /\
  last_result_after (execute_invoke_virtual no_hooks no_calls hooked_vm empty_world)
    = Some (Some (mkRegisterValue VNone)).
Proof. split; vm_compute; reflexivity. Qed.

(** ** MUTF-8 *)

Section Mutf8.

Lemma in_zrange n : forall lo u, lo <= u < lo + Z.of_nat n -> In u (zrange lo n).
Proof.
  induction n as [| n IH]; intros lo u Hu; [lia |].
  simpl. destruct (Z.eq_dec lo u) as [-> | Hne]; [left; reflexivity |].
  right. apply IH. lia.
Qed.

Lemma units_round_trip : forallb unit_round_trip (zrange 0 (Z.to_nat 65536)) = true.
Proof. vm_compute. reflexivity. Qed.

Lemma unit_round_trip_holds u : 0 <= u < 0x10000 -> unit_round_trip u = true.
Proof.
  intros Hu. pose proof units_round_trip as Hall.
  rewrite forallb_forall in Hall. apply Hall. apply in_zrange.
  rewrite Z2Nat.id by lia. lia.
Qed.

Lemma chr_unit u : 0 <= u < 0x10000 -> chr u = Ok u.
Proof.
  intros Hu. unfold chr.
  destruct (Z.leb_spec 0 u); [| lia]. destruct (Z.ltb_spec u 0x110000); [| lia].
  reflexivity.
Qed.

Lemma encode_unit_length u : (1 <= length (encode_unit u) <= 3)%nat.
Proof.
  unfold encode_unit.
  destruct (u =? 0); [simpl; lia |]. destruct (u <? 0x80); [simpl; lia |].
  destruct (u <? 0x800); simpl; lia.
Qed.

(** The decoder reads one encoded unit and goes on with the rest. *)
Lemma decode_unit u rest :
  0 <= u < 0x10000 ->
  _decode_mutf8 (encode_unit u ++ rest) = (r ← _decode_mutf8 rest; Ok (u :: r)).
Proof.
  intros Hu. pose proof (unit_round_trip_holds u Hu) as Hrt.
  pose proof (chr_unit u Hu) as Hchr.
  unfold unit_round_trip in Hrt.
  destruct (encode_unit u) as [| c1 [| c2 [| c3 [| c4 more]]]] eqn:Henc;
    simpl in Hrt; try discriminate Hrt.
  - apply andb_prop in Hrt as [Hcls Hval].
    apply Z.eqb_eq in Hval. apply Z.eqb_eq in Hcls.
    simpl. unfold lead_class in Hcls.
    destruct (byte_val c1 =? 0); [discriminate Hcls |].
    destruct (byte_val c1 <? 128).
    + rewrite Hval, Hchr. reflexivity.
    + destruct (byte_val c1 <? 192).
      * rewrite Hval, Hchr. reflexivity.
      * destruct (byte_val c1 <? 224); [discriminate Hcls |].
        destruct (byte_val c1 <? 240); discriminate Hcls.
  - apply andb_prop in Hrt as [Hcls Hval].
    apply Z.eqb_eq in Hcls.
    simpl. unfold lead_class in Hcls.
    destruct (byte_val c1 =? 0); [discriminate Hcls |].
    destruct (byte_val c1 <? 128); [discriminate Hcls |].
    destruct (byte_val c1 <? 192); [discriminate Hcls |].
    destruct (byte_val c1 <? 224);
      [| destruct (byte_val c1 <? 240); discriminate Hcls].
    destruct ((byte_val c1 =? 192) && (byte_val c2 =? 128)).
    + apply Z.eqb_eq in Hval. subst u. reflexivity.
    + apply Z.eqb_eq in Hval. rewrite Hval, Hchr. reflexivity.
  - apply andb_prop in Hrt as [Hcls Hval].
    apply Z.eqb_eq in Hcls. apply Z.eqb_eq in Hval.
    simpl. unfold lead_class in Hcls.
    destruct (byte_val c1 =? 0); [discriminate Hcls |].
    destruct (byte_val c1 <? 128); [discriminate Hcls |].
    destruct (byte_val c1 <? 192); [discriminate Hcls |].
    destruct (byte_val c1 <? 224); [discriminate Hcls |].
    destruct (byte_val c1 <? 240); [| discriminate Hcls].
    rewrite Hval, Hchr. reflexivity.
Qed.

Lemma utf16_units_range c :
  is_code_point c -> Forall (fun u => 0 <= u < 0x10000) (utf16_units c).
Proof.
  unfold is_code_point, utf16_units. intros Hc.
  destruct (Z.ltb_spec c 0x10000).
  - constructor; [lia | constructor].
  - assert (Hhi : 0 <= Z.shiftr (c - 0x10000) 10 < 0x400).
    { rewrite Z.shiftr_div_pow2 by lia. split.
      - apply Z.div_pos; lia.
      - apply Z.div_lt_upper_bound; lia. }
    assert (Hlo : 0 <= Z.land (c - 0x10000) 0x3FF < 0x400).
    { change 0x3FF with (Z.ones 10). rewrite Z.land_ones by lia.
      apply Z.mod_pos_bound. lia. }
    constructor; [lia |]. constructor; [lia | constructor].
Qed.

Lemma decode_units us rest decoded :
  Forall (fun u => 0 <= u < 0x10000) us ->
  _decode_mutf8 rest = Ok decoded ->
  _decode_mutf8 (concat (map encode_unit us) ++ rest) = Ok (us ++ decoded).
Proof.
  intros Hus Hrest. induction Hus as [| u us Hu _ IH]; simpl; [assumption |].
  rewrite <- app_assoc, (decode_unit u _ Hu), IH. reflexivity.
Qed.

Lemma utf16_units_bmp c : is_bmp c -> utf16_units c = [c].
Proof.
  unfold is_bmp, utf16_units. intros Hc.
  destruct (Z.ltb_spec c 0x10000); [reflexivity | lia].
Qed.

(** C7, as the code has it.  Decoding the MUTF-8 encoding of a string of
    code points yields its UTF-16 code units: every code point of the
    basic plane, U+0000 and lone surrogates included, comes back as
    itself and every supplementary code point comes back as its surrogate
    pair.  A string without supplementary code points is recovered
    exactly. *)
Theorem mutf8_decode_encode (s : pystr) :
  Forall is_code_point s ->
  _decode_mutf8 (mutf8_encode s) = Ok (concat (map utf16_units s)) /\
  (Forall is_bmp s -> _decode_mutf8 (mutf8_encode s) = Ok s).
Proof.
  intros Hs.
  assert (Hunits : _decode_mutf8 (mutf8_encode s) = Ok (concat (map utf16_units s))).
  { induction Hs as [| c s Hc _ IH]; [reflexivity |].
    unfold mutf8_encode in *.
    change (concat (map mutf8_encode_char (c :: s)))
      with (concat (map encode_unit (utf16_units c)) ++ concat (map mutf8_encode_char s)).
    change (concat (map utf16_units (c :: s)))
      with (utf16_units c ++ concat (map utf16_units s)).
    apply decode_units; [apply utf16_units_range; exact Hc | exact IH]. }
  split; [exact Hunits |].
  intros Hbmp. rewrite Hunits. f_equal.
  clear Hs Hunits. induction Hbmp as [| c s Hc _ IH]; [reflexivity |].
  change (concat (map utf16_units (c :: s)))
    with (utf16_units c ++ concat (map utf16_units s)).
  rewrite (utf16_units_bmp c Hc), IH. reflexivity.
Qed.

End Mutf8.

(** C7 as stated fails: the string consisting of U+1F600 is encoded as a
    surrogate pair and decoded as the two surrogates U+D83D U+DE00, a
    different string. *)
Lemma mutf8_supplementary_not_recovered :
  _decode_mutf8 (mutf8_encode [0x1F600]) = Ok [0xD83D; 0xDE00] /\
  _decode_mutf8 (mutf8_encode [0x1F600]) <> Ok [0x1F600].
Proof. split; [reflexivity | discriminate]. Qed.

(** The hypotheses of [mutf8_decode_encode] hold for the string
    ["A", U+0000, "é", "€", U+1F600]. *)
Lemma mutf8_decode_encode_witness :
  Forall is_code_point [0x41; 0; 0xE9; 0x20AC; 0x1F600] /\
  _decode_mutf8 (mutf8_encode [0x41; 0; 0xE9; 0x20AC; 0x1F600])
    = Ok (concat (map utf16_units [0x41; 0; 0xE9; 0x20AC; 0x1F600])).
Proof.
  assert (Hs : Forall is_code_point [0x41; 0; 0xE9; 0x20AC; 0x1F600]).
  { repeat constructor; unfold is_code_point; lia. }
  split; [exact Hs |].
  apply (mutf8_decode_encode [0x41; 0; 0xE9; 0x20AC; 0x1F600] Hs).
Defined.


(** ** The slicer *)

Section Walk.

Variable info : Z -> res instr_info.

Implicit Types (l : list Z) (needed deps : gset Z).

Local Arguments absorb : simpl never.

Lemma first_writer_in l r q : first_writer info l r q -> q ∈ l.
Proof. intros (l1 & l2 & -> & _). set_solver. Qed.

Lemma reach_in needed l q : reach info needed l q -> q ∈ l.
Proof.
  induction 1 as [r q _ Hf | p r q l1 l2 _ _ Hl _ Hf].
  - eapply first_writer_in; eassumption.
  - apply first_writer_in in Hf. subst l. set_solver.
Qed.

Lemma absorb_deps_mono p i needed deps : deps ⊆ (absorb p i (needed, deps)).2.
Proof.
  unfold absorb. destruct (written_reg i) as [wr |]; [| set_solver].
  case_bool_decide; set_solver.
Qed.

Lemma absorb_fires p i needed deps :
  fires i needed ->
  p ∈ (absorb p i (needed, deps)).2 /\
  forall r, r ∈ read_regs i -> r ∈ (absorb p i (needed, deps)).1.
Proof.
  intros (wr & Hw & Hn). unfold absorb. rewrite Hw.
  rewrite bool_decide_eq_true_2 by assumption. simpl. split; [set_solver |].
  intros r Hr. set_solver.
Qed.

Lemma absorb_keeps p i needed deps r :
  r ∈ needed -> written_reg i <> Some r -> r ∈ (absorb p i (needed, deps)).1.
Proof.
  intros Hr Hw. unfold absorb. destruct (written_reg i) as [wr |]; [| assumption].
  case_bool_decide; simpl; [| assumption].
  assert (wr <> r) by congruence. set_solver.
Qed.

Lemma walk_mono l : forall needed deps st,
  walk info l (needed, deps) = Ok st -> deps ⊆ st.2.
Proof.
  induction l as [| p rest IH]; intros needed deps st Hw; simpl in Hw.
  - injection Hw as <-. reflexivity.
  - apply bind_Ok in Hw as (i & Hi & Hw).
    destruct (absorb p i (needed, deps)) as [n1 d1] eqn:Ha.
    pose proof (absorb_deps_mono p i needed deps) as Hm. rewrite Ha in Hm. simpl in Hm.
    apply IH in Hw. set_solver.
Qed.

(** One step of the walk, seen from [reach]. *)
Lemma reach_cons p rest needed i q :
  NoDup (p :: rest) -> info p = Ok i -> reach info needed (p :: rest) q ->
  (q = p /\ fires i needed) \/
  (forall deps, reach info (absorb p i (needed, deps)).1 rest q).
Proof.
  intros Hnd Hi Hr.
  apply NoDup_cons in Hnd as [Hp _].
  induction Hr as [r q Hneed (l1 & l2 & Hl & Hw & Hnone)
                  | p0 r q l1 l2 _ IH Hl Hrd (m1 & m2 & Hm & Hw & Hnone)].
  - destruct l1 as [| x l1]; simpl in Hl; injection Hl as <- Hl.
    + left. split; [reflexivity |].
      destruct Hw as (i' & Hi' & Hw). rewrite Hi in Hi'. injection Hi' as <-.
      exists r. split; assumption.
    + right. intros deps. apply (reach_seed info _ _ r).
      * apply absorb_keeps; [assumption |].
        intros Hw'. apply (Hnone p); [set_solver |]. exists i. split; assumption.
      * exists l1, l2. split; [assumption |]. split; [assumption |].
        intros q' Hq'. apply Hnone. set_solver.
  - destruct IH as [[-> Hf] | IH].
    + right. intros deps.
      destruct l1 as [| x l1]; simpl in Hl.
      * assert (Hl2 : rest = l2) by congruence. subst l2.
        destruct Hrd as (i' & Hi' & Hrd). rewrite Hi in Hi'. injection Hi' as <-.
        apply (reach_seed info _ _ r).
        -- apply (absorb_fires p i needed deps Hf). assumption.
        -- exists m1, m2. repeat split; assumption.
      * exfalso. apply Hp. assert (Hl2 : rest = l1 ++ p :: l2) by congruence.
        rewrite Hl2. set_solver.
    + right. intros deps.
      destruct l1 as [| x l1]; simpl in Hl.
      * exfalso. assert (Hpp : p = p0) by congruence. subst p0.
        apply Hp. eapply reach_in. apply (IH ∅).
      * assert (Hl2 : rest = l1 ++ p0 :: l2) by congruence.
        apply (reach_step info _ _ p0 r q l1 l2); [apply IH | assumption | assumption |].
        exists m1, m2. repeat split; assumption.
Qed.

(** The walk selects every reachable element. *)
Lemma walk_reach l : forall needed deps st,
  NoDup l -> walk info l (needed, deps) = Ok st ->
  forall q, reach info needed l q -> q ∈ st.2.
Proof.
  induction l as [| p rest IH]; intros needed deps st Hnd Hw q Hr.
  - apply reach_in in Hr. set_solver.
  - simpl in Hw. apply bind_Ok in Hw as (i & Hi & Hw).
    destruct (reach_cons p rest needed i q Hnd Hi Hr) as [[-> Hf] | Hrest].
    + destruct (absorb p i (needed, deps)) as [n1 d1] eqn:Ha.
      pose proof (absorb_fires p i needed deps Hf) as [Hin _]. rewrite Ha in Hin.
      apply walk_mono in Hw. set_solver.
    + specialize (Hrest deps).
      destruct (absorb p i (needed, deps)) as [n1 d1] eqn:Ha.
      apply NoDup_cons in Hnd as [_ Hnd].
      eapply IH; eassumption.
Qed.

(** Where the selected PCs come from. *)
Lemma walk_origin l : forall needed deps st,
  walk info l (needed, deps) = Ok st ->
  forall q, q ∈ st.2 ->
    q ∈ deps \/ q ∈ l \/ exists p i, p ∈ l /\ info p = Ok i /\ q ∈ looked_up i.
Proof.
  induction l as [| p rest IH]; intros needed deps st Hw q Hq; simpl in Hw.
  - injection Hw as <-. left. assumption.
  - apply bind_Ok in Hw as (i & Hi & Hw).
    destruct (absorb p i (needed, deps)) as [n1 d1] eqn:Ha.
    destruct (IH _ _ _ Hw q Hq) as [Hd | [Hl | (p' & i' & Hp' & Hi' & Hlk)]].
    + assert (Hd1 : d1 ⊆ deps ∪ list_to_set (looked_up i) ∪ {[p]}).
      { unfold absorb in Ha. destruct (written_reg i) as [wr |].
        - case_bool_decide; injection Ha as _ <-;
            [reflexivity | apply union_subseteq_l].
        - injection Ha as _ <-. apply union_subseteq_l. }
      apply Hd1 in Hd.
      apply elem_of_union in Hd as [Hd | Hd]; [apply elem_of_union in Hd as [Hd | Hd] |].
      * left. assumption.
      * right. right. exists p, i. split; [set_solver |]. split; [assumption |].
        apply elem_of_list_to_set in Hd. assumption.
      * right. left. set_solver.
    + right. left. set_solver.
    + right. right. exists p', i'. split; [set_solver |]. split; assumption.
Qed.

End Walk.

Section SlicerFacts.

Implicit Types (tm : gmap Z (string * Z)) (l : list Z).

(** *** The sorted PCs *)

Lemma elem_sorted_pcs tm target_pc p :
  p ∈ sorted_pcs_of tm target_pc <-> p ∈ dom tm /\ p < target_pc.
Proof.
  unfold sorted_pcs_of. rewrite merge_sort_Permutation, list_elem_of_filter.
  rewrite list_elem_of_fmap, elem_of_dom. split.
  - intros (Hlt & [k v] & -> & Hin). apply elem_of_map_to_list in Hin.
    split; [exists v; assumption | assumption].
  - intros ((v & Hv) & Hlt). split; [assumption |].
    exists (p, v). split; [reflexivity |]. apply elem_of_map_to_list. assumption.
Qed.

Lemma NoDup_sorted_pcs tm target_pc : NoDup (sorted_pcs_of tm target_pc).
Proof.
  unfold sorted_pcs_of. rewrite merge_sort_Permutation.
  apply NoDup_filter, NoDup_fst_map_to_list.
Qed.

Lemma NoDup_walk_order tm target_pc : NoDup (reverse (sorted_pcs_of tm target_pc)).
Proof. rewrite reverse_Permutation. apply NoDup_sorted_pcs. Qed.

Lemma descending_sorted_pcs tm target_pc :
  StronglySorted (flip Z.le) (reverse (sorted_pcs_of tm target_pc)).
Proof.
  apply Sorted_StronglySorted; [apply _ |].
  apply Sorted_reverse. unfold sorted_pcs_of. apply Sorted_merge_sort. apply _.
Qed.

(** A descending list without repetition splits around each of its
    elements into the larger and the smaller ones. *)
Lemma descending_split l q :
  StronglySorted (flip Z.le) l -> NoDup l -> q ∈ l ->
  exists l1 l2, l = l1 ++ q :: l2 /\
                (forall x, x ∈ l1 -> q < x) /\ (forall x, x ∈ l2 -> x < q) /\
                StronglySorted (flip Z.le) l2 /\ NoDup l2.
Proof.
  intros Hs Hnd Hq. apply list_elem_of_split in Hq as (l1 & l2 & ->).
  exists l1, l2. split; [reflexivity |].
  apply StronglySorted_app in Hs as (Hcross & _ & Hs2).
  apply StronglySorted_cons in Hs2 as [Hhd Hs2].
  apply NoDup_app in Hnd as (_ & Hdisj & Hnd2).
  apply NoDup_cons in Hnd2 as [Hq2 Hnd2].
  repeat split; try assumption.
  - intros x Hx. assert (flip Z.le x q) as Hle by (apply Hcross; set_solver).
    unfold flip in Hle. assert (x <> q) by (intros ->; apply (Hdisj q Hx); set_solver).
    lia.
  - intros x Hx. rewrite Forall_forall in Hhd. specialize (Hhd x Hx).
    unfold flip in Hhd. assert (x <> q) by (intros ->; contradiction).
    lia.
Qed.

(** *** The lookups stay inside the sorted PCs *)

Lemma find_prev_invoke_in tm l q regs :
  find_prev_invoke tm l = Ok (Some (q, regs)) -> q ∈ l.
Proof.
  induction l as [| p rest IH]; simpl; [discriminate |].
  destruct (PyStr.contains "invoke" (instr_at tm p)).
  - intros Hf. apply bind_Ok in Hf as (x & _ & Hf). injection Hf as <- _. set_solver.
  - intros Hf. apply IH in Hf. set_solver.
Qed.

Lemma find_fill_in tm n l q : find_fill tm n l = Some q -> q ∈ l.
Proof.
  induction l as [| p rest IH]; simpl; [discriminate |].
  destruct (PyStr.contains "fill-array-data" (instr_at tm p));
    [| intros Hf; apply IH in Hf; set_solver].
  destruct (PyStr.split (instr_at tm p)) as [| x [| fill_reg more]];
    try (intros Hf; apply IH in Hf; set_solver).
  case_bool_decide.
  - intros [= <-]. set_solver.
  - intros Hf. apply IH in Hf. set_solver.
Qed.

Lemma find_init_in tm n l q regs :
  find_init tm n l = Ok (Some (q, regs)) -> q ∈ l.
Proof.
  induction l as [| p rest IH]; simpl; [discriminate |].
  destruct (_ && _); [| intros Hf; apply IH in Hf; set_solver].
  destruct (PyStr.split (instr_at tm p)) as [| x [| first_arg more]];
    try (intros Hf; apply IH in Hf; set_solver).
  case_bool_decide.
  - intros Hf. apply bind_Ok in Hf as (y & _ & Hf). injection Hf as <- _. set_solver.
  - intros Hf. apply IH in Hf. set_solver.
Qed.

Lemma dest_only_looked_up a i : dest_only a = Ok i -> looked_up i = [].
Proof.
  unfold dest_only. intros H. apply bind_Ok in H as (ra & _ & H).
  injection H as <-. reflexivity.
Qed.

Lemma dest_src_looked_up a b i : dest_src a b = Ok i -> looked_up i = [].
Proof.
  unfold dest_src. intros H. apply bind_Ok in H as (ra & _ & H).
  apply bind_Ok in H as (rb & _ & H). injection H as <-. reflexivity.
Qed.

Lemma dest_src_src_looked_up a b c i : dest_src_src a b c = Ok i -> looked_up i = [].
Proof.
  unfold dest_src_src. intros H. apply bind_Ok in H as (ra & _ & H).
  apply bind_Ok in H as (rb & _ & H). apply bind_Ok in H as (rc & _ & H).
  injection H as <-. reflexivity.
Qed.


(** One step through the [if]/[elif] chain of [classify]: a case on the
    test or on the shape of the operands at the head of [H]. *)
Ltac classify_step H :=
  lazymatch type of H with
  | (if ?b then _ else _) = Ok _ => destruct b
  | match ?parts with [] => _ | _ :: _ => _ end = Ok _ => destruct parts
  | Ok _ = Ok _ => injection H as <-; simpl; set_solver
  | dest_only _ = Ok _ => apply dest_only_looked_up in H; rewrite H; set_solver
  | dest_src _ _ = Ok _ => apply dest_src_looked_up in H; rewrite H; set_solver
  | dest_src_src _ _ _ = Ok _ => apply dest_src_src_looked_up in H; rewrite H; set_solver
  end.

Lemma classify_looked_up tm sorted_pcs pc opcode parts i :
  classify tm sorted_pcs pc opcode parts = Ok i ->
  forall q, q ∈ looked_up i -> q ∈ sorted_pcs.
Proof.
  intros Hc. unfold classify in Hc.
  repeat classify_step Hc.
  - (* move-result: the preceding invoke *)
    apply bind_Ok in Hc as ([n |] & _ & Hc); [| classify_step Hc].
    apply bind_Ok in Hc as ([[prev_pc regs] |] & Hfound & Hc); [| classify_step Hc].
    injection Hc as <-. simpl. intros q Hq.
    apply list_elem_of_singleton in Hq as ->.
    apply find_prev_invoke_in in Hfound.
    rewrite elem_of_reverse, list_elem_of_filter in Hfound. tauto.
  - (* new-array: the fill that follows *)
    apply bind_Ok in Hc as (ra & _ & Hc).
    apply bind_Ok in Hc as (rb & _ & Hc).
    injection Hc as <-. simpl. intros q Hq.
    destruct ra as [n |]; [| set_solver].
    destruct (find_fill tm n _) as [fwd_pc |] eqn:Hfill; [| set_solver].
    apply list_elem_of_singleton in Hq as ->.
    apply find_fill_in in Hfill. rewrite list_elem_of_filter in Hfill. tauto.
  - (* new-instance: the constructor call that follows *)
    apply bind_Ok in Hc as ([n |] & _ & Hc); [| classify_step Hc].
    apply bind_Ok in Hc as ([[fwd_pc regs] |] & Hfound & Hc); [| classify_step Hc].
    injection Hc as <-. simpl. intros q Hq.
    apply list_elem_of_singleton in Hq as ->.
    apply find_init_in in Hfound. rewrite list_elem_of_filter in Hfound. tauto.
  - (* check-cast *)
    apply bind_Ok in Hc as (ra & _ & Hc). classify_step Hc.
  - (* binop/2addr *)
    apply bind_Ok in Hc as (ra & _ & Hc).
    apply bind_Ok in Hc as (rb & _ & Hc). classify_step Hc.
Qed.

Lemma info_at_looked_up tm sorted_pcs pc i :
  info_at tm sorted_pcs pc = Ok i ->
  forall q, q ∈ looked_up i -> q ∈ sorted_pcs.
Proof.
  unfold info_at. destruct (PyStr.split (instr_at tm pc)) as [| opcode rest].
  - intros [= <-]. simpl. set_solver.
  - apply classify_looked_up.
Qed.

(** *** From program order to the order of the walk *)

Lemma defines_first_writer tm target_pc r q :
  defines tm target_pc r target_pc q ->
  first_writer (info_of tm target_pc) (reverse (sorted_pcs_of tm target_pc)) r q.
Proof.
  intros (Hdom & Hlt & Hw & Hlast).
  destruct (descending_split (reverse (sorted_pcs_of tm target_pc)) q)
    as (l1 & l2 & HL & Habove & _).
  - apply descending_sorted_pcs.
  - apply NoDup_walk_order.
  - rewrite elem_of_reverse, elem_sorted_pcs. tauto.
  - exists l1, l2. split; [assumption |]. split; [assumption |].
    intros q' Hq'. assert (q' ∈ reverse (sorted_pcs_of tm target_pc)) as Hin
      by (rewrite HL; set_solver).
    rewrite elem_of_reverse, elem_sorted_pcs in Hin.
    apply Hlast; [tauto |]. specialize (Habove q' Hq'). lia.
Qed.

Lemma defines_first_writer_below tm target_pc r p q l1 l2 :
  reverse (sorted_pcs_of tm target_pc) = l1 ++ p :: l2 ->
  defines tm target_pc r p q ->
  first_writer (info_of tm target_pc) l2 r q.
Proof.
  intros HL (Hdom & Hlt & Hw & Hlast).
  pose proof (descending_sorted_pcs tm target_pc) as Hs.
  pose proof (NoDup_walk_order tm target_pc) as Hnd.
  assert (p ∈ reverse (sorted_pcs_of tm target_pc)) as Hp by (rewrite HL; set_solver).
  rewrite elem_of_reverse, elem_sorted_pcs in Hp.
  assert (q ∈ reverse (sorted_pcs_of tm target_pc)) as Hq
    by (rewrite elem_of_reverse, elem_sorted_pcs; split; [tauto | lia]).
  rewrite HL in Hs, Hnd, Hq.
  apply StronglySorted_app in Hs as (Hcross & _ & Hs2).
  apply StronglySorted_cons in Hs2 as [Hhd Hs2]. rewrite Forall_forall in Hhd.
  apply NoDup_app in Hnd as (_ & _ & Hnd2). apply NoDup_cons in Hnd2 as [_ Hnd2].
  assert (q ∈ l2) as Hq2.
  { apply elem_of_app in Hq as [Hq | Hq].
    - assert (flip Z.le q p) as Hle
        by (apply Hcross; [assumption | apply elem_of_cons; left; reflexivity]).
      unfold flip in Hle. lia.
    - apply elem_of_cons in Hq as [-> | Hq]; [lia | assumption]. }
  destruct (descending_split l2 q Hs2 Hnd2 Hq2) as (m1 & m2 & Hl2 & Habove & _).
  exists m1, m2. split; [assumption |]. split; [assumption |].
  intros q' Hq'. assert (q' ∈ l2) as Hin2
    by (rewrite Hl2; apply elem_of_app; left; assumption).
  assert (q' ∈ reverse (sorted_pcs_of tm target_pc)) as Hin
    by (rewrite HL; apply elem_of_app; right; apply elem_of_cons; right; assumption).
  rewrite elem_of_reverse, elem_sorted_pcs in Hin.
  apply Hlast; [tauto |]. specialize (Habove q' Hq'). specialize (Hhd q' Hin2).
  unfold flip in Hhd.
  assert (q' <> p).
  { intros ->. pose proof (NoDup_walk_order tm target_pc) as Hnd'.
    rewrite HL in Hnd'.
    apply NoDup_app in Hnd' as (_ & _ & Hnd').
    apply NoDup_cons in Hnd' as [Hnot _]. contradiction. }
  lia.
Qed.

Lemma in_slice_reach tm target_pc arg_regs q :
  in_slice tm target_pc arg_regs q ->
  reach (info_of tm target_pc) (list_to_set arg_regs)
        (reverse (sorted_pcs_of tm target_pc)) q.
Proof.
  induction 1 as [r q Hr Hdef | p r q _ IH Hreads Hdef].
  - apply (reach_seed _ _ _ r q); [set_solver |]. apply defines_first_writer. assumption.
  - pose proof (reach_in _ _ _ _ IH) as Hp.
    apply list_elem_of_split in Hp as (l1 & l2 & HL).
    apply (reach_step _ _ _ p r q l1 l2); try assumption.
    apply defines_first_writer_below with p l1; assumption.
Qed.

End SlicerFacts.

(** *** The dependencies of the example are not empty *)

Ltac example_pcs H :=
  unfold example_trace in H; rewrite dom_list_to_map_L in H;
  rewrite elem_of_list_to_set in H; simpl in H;
  repeat (apply elem_of_cons in H as [-> | H]; [try lia |]);
  try (apply elem_of_nil in H; contradiction).

Ltac example_no_write :=
  let i := fresh "i" in
  let Hi := fresh "Hi" in
  let Hw := fresh "Hw" in
  intros (i & Hi & Hw); vm_compute in Hi; injection Hi as <-;
  vm_compute in Hw; discriminate Hw.

Ltac example_info := eexists; split; [vm_compute; reflexivity |].

Lemma example_in_dom (pc : Z) :
  pc ∈ [0; 4; 6; 12; 16; 20] -> pc ∈ dom example_trace.
Proof.
  intros Hpc. unfold example_trace. rewrite dom_list_to_map_L.
  rewrite elem_of_list_to_set. exact Hpc.
Qed.

(** The sum at 16 defines the argument [v3]; it reads [v1], which the
    constant at 4 defines: both are read-write dependencies. *)
Lemma example_dependencies :
  in_slice example_trace 20 [0; 3] 16 /\ in_slice example_trace 20 [0; 3] 4.
Proof.
  assert (in_slice example_trace 20 [0; 3] 16) as H16.
  { apply slice_arg with 3; [set_solver |].
    split; [apply example_in_dom; set_solver |]. split; [lia |]. split.
    - example_info. reflexivity.
    - intros q' Hq' Hbetween. example_pcs Hq'. }
  split; [exact H16 |].
  apply slice_dep with 16 1; [exact H16 | |].
  - example_info. simpl. set_solver.
  - split; [apply example_in_dom; set_solver |]. split; [lia |]. split.
    + example_info. reflexivity.
    + intros q' Hq' Hbetween. example_pcs Hq'; example_no_write.
Qed.

(** C9.  Whenever the slicer returns a set of PCs for a trace map, a target
    PC and a list of argument registers, every PC of the set is a key of
    the trace map strictly below the target, and the set contains every
    read-write dependency of the argument registers: the defining PC of
    each argument register, and, for every PC that is in the set because
    its instruction writes a needed register, the defining PC of each
    register that the instruction reads. *)
Theorem slicer_sound_and_closed (tm : gmap Z (string * Z)) (target_pc : Z)
    (arg_regs : list Z) (deps : gset Z) :
  build_register_dependencies tm target_pc arg_regs = Ok deps ->
  (forall pc, pc ∈ deps -> pc ∈ dom tm /\ pc < target_pc) /\
  (forall pc, in_slice tm target_pc arg_regs pc -> pc ∈ deps).
Proof.
  unfold build_register_dependencies. intros Hb.
  destruct (sorted_pcs_of tm target_pc) as [| p0 rest] eqn:Hsorted.
  - injection Hb as <-. split; [set_solver |].
    intros pc Hpc. apply in_slice_reach, reach_in in Hpc.
    rewrite Hsorted in Hpc. set_solver.
  - rewrite <- Hsorted in Hb. clear p0 rest Hsorted.
    apply bind_Ok in Hb as (st & Hwalk & Hb). injection Hb as <-. split.
    + intros pc Hpc. apply elem_sorted_pcs.
      destruct (walk_origin _ _ _ _ _ Hwalk pc Hpc) as [Hin | [Hin | (p & i & _ & Hi & Hin)]].
      * set_solver.
      * rewrite elem_of_reverse in Hin. assumption.
      * apply (info_at_looked_up _ _ _ _ Hi). assumption.
    + intros pc Hpc. apply in_slice_reach in Hpc.
      apply (walk_reach _ _ _ _ _ (NoDup_walk_order tm target_pc) Hwalk). assumption.
Qed.

Lemma slicer_sound_and_closed_witness :
  build_register_dependencies example_trace 20 [0; 3] = Ok example_slice /\
  (forall pc, pc ∈ example_slice -> pc ∈ dom example_trace /\ pc < 20) /\
  (forall pc, in_slice example_trace 20 [0; 3] pc -> pc ∈ example_slice).
Proof.
  assert (build_register_dependencies example_trace 20 [0; 3] = Ok example_slice) as Hb
    by (vm_compute; reflexivity).
  split; [exact Hb | exact (slicer_sound_and_closed example_trace 20 [0; 3] example_slice Hb)].
Defined.

(* ===================================================================== *)
(** ** The register file and the static field store *)
(* ===================================================================== *)

Section RegistersAndStore.

Implicit Types (regs : list RegisterValue) (st : StaticFieldStore).

Lemma reg_get_nonneg regs j :
  0 <= j -> reg_get regs j = of_option IndexError (regs !! Z.to_nat j).
Proof. intros Hj. unfold reg_get. apply index_nonneg. assumption. Qed.

Lemma extended_total_length regs idx :
  0 <= idx ->
  Z.of_nat (length (extended regs idx)) = Z.max (Z.of_nat (length regs)) (idx + 1).
Proof.
  intros Hi. unfold extended.
  destruct (Z.leb_spec (Z.of_nat (length regs)) idx).
  - rewrite length_app, length_replicate. lia.
  - lia.
Qed.

Lemma extended_lookup regs idx j :
  0 <= idx -> 0 <= j ->
  extended regs idx !! Z.to_nat j =
    if j <? Z.of_nat (length regs) then regs !! Z.to_nat j
    else if j <=? idx then Some (mkRegisterValue VNone) else None.
Proof.
  intros Hi Hj. unfold extended.
  destruct (Z.ltb_spec j (Z.of_nat (length regs))) as [Hlt | Hge].
  - destruct (Z.leb_spec (Z.of_nat (length regs)) idx); [| reflexivity].
    apply lookup_app_l. lia.
  - destruct (Z.leb_spec (Z.of_nat (length regs)) idx) as [Hle | Hgt].
    + rewrite lookup_app_r by lia.
      destruct (Z.leb_spec j idx).
      * apply lookup_replicate_2. lia.
      * apply lookup_replicate_None. lia.
    + destruct (Z.leb_spec j idx); [lia |]. apply lookup_ge_None. lia.
Qed.

(** X1.  Writing a register at a non-negative index never fails; the
    register then reads back the value written, the file has grown just
    enough to hold the index, every other register of the old file keeps
    its value, the registers created in between hold [None], and reading
    past the new end raises [IndexError]. *)
Theorem register_write_then_read (regs : list RegisterValue) (idx : Z)
    (v : RegisterValue) :
  0 <= idx ->
  exists regs',
    reg_set regs idx v = Ok regs' /\
    reg_get regs' idx = Ok v /\
    Z.of_nat (length regs') = Z.max (Z.of_nat (length regs)) (idx + 1) /\
    (forall j, 0 <= j -> j <> idx ->
       reg_get regs' j =
         if j <? Z.of_nat (length regs) then reg_get regs j
         else if j <? idx then Ok (mkRegisterValue VNone) else Raise IndexError).
Proof.
  intros Hi. exists (<[Z.to_nat idx := v]> (extended regs idx)).
  split; [apply reg_set_nonneg; assumption |].
  split; [| split].
  - rewrite reg_get_nonneg by assumption.
    rewrite list_lookup_insert_eq by (apply extended_length; assumption).
    reflexivity.
  - rewrite length_insert. apply extended_total_length. assumption.
  - intros j Hj Hne. rewrite !reg_get_nonneg by assumption.
    rewrite list_lookup_insert_ne by lia.
    rewrite extended_lookup by assumption.
    destruct (Z.ltb_spec j (Z.of_nat (length regs))); [reflexivity |].
    destruct (Z.leb_spec j idx), (Z.ltb_spec j idx); try lia; reflexivity.
Qed.

(** X2.  [get_int] reads a register as an integer without ever failing
    on a non-negative index: it is the integer the register holds, and 0
    when the register holds anything else or lies past the end of the
    file.  A negative index counts from the end of the file and raises
    [IndexError] below its start. *)
Theorem get_int_reading (regs : list RegisterValue) (idx : Z) :
  get_int regs idx =
    if 0 <=? idx then
      Ok (match regs !! Z.to_nat idx with
          | Some rv => int_reading (value rv)
          | None => 0
          end)
    else
      match regs !! Z.to_nat (idx + Z.of_nat (length regs)) with
      | Some rv => if - Z.of_nat (length regs) <=? idx
                   then Ok (int_reading (value rv)) else Raise IndexError
      | None => Raise IndexError
      end.
Proof.
  destruct (Z.leb_spec 0 idx) as [Hi | Hneg].
  - destruct (regs !! Z.to_nat idx) as [rv |] eqn:Hl.
    + apply get_int_lookup; assumption.
    + apply get_int_beyond. apply lookup_ge_None in Hl. lia.
  - unfold get_int, Py.index.
    destruct (Z.leb_spec (Z.of_nat (length regs)) idx); [lia |].
    destruct (Z.leb_spec 0 idx); [lia |].
    destruct (Z.leb_spec (- Z.of_nat (length regs)) idx) as [Hin | Hout].
    + destruct (regs !! Z.to_nat (idx + Z.of_nat (length regs))) as [rv |] eqn:Hl;
        simpl; [destruct (value rv); reflexivity | reflexivity].
    + destruct (regs !! Z.to_nat (idx + Z.of_nat (length regs))); reflexivity.
Qed.

(** X3.  A static field that has been set reads back the value set,
    whatever default the reader passes; every other field of every class
    reads as before, and the set of initialized classes is untouched. *)
Theorem store_set_then_get (st : StaticFieldStore) (cls fld : string) (v : pyval)
    (cls' fld' : string) (default : pyval) :
  store_get (store_set st cls fld v) cls' fld' default =
    (if decide (cls' = cls /\ fld' = fld) then v else store_get st cls' fld' default) /\
  _initialized_classes (store_set st cls fld v) = _initialized_classes st.
Proof.
  split; [| reflexivity].
  unfold store_get, store_set. simpl.
  destruct (decide (cls' = cls)) as [-> | Hc].
  - rewrite lookup_insert_eq.
    destruct (decide (fld' = fld)) as [-> | Hf].
    + rewrite lookup_insert_eq. rewrite decide_True by auto. reflexivity.
    + rewrite lookup_insert_ne by congruence.
      rewrite decide_False by tauto.
      destruct (_fields st !! cls) as [m |]; [reflexivity |].
      rewrite lookup_empty. reflexivity.
  - rewrite lookup_insert_ne by congruence.
    rewrite decide_False by tauto. reflexivity.
Qed.

Lemma split_on_go_cons sep c s skip cur :
  PyStr.split_on_go sep (String c s) skip cur =
    match skip with
    | S k => PyStr.split_on_go sep s k cur
    | O =>
        if PyStr.startswith (String c s) sep
        then cur :: PyStr.split_on_go sep s (String.length sep - 1) EmptyString
        else PyStr.split_on_go sep s O (String.append cur (String c EmptyString))
    end.
Proof. reflexivity. Qed.

Lemma split_on_go_nonempty sep s : forall skip cur,
  (1 <= length (PyStr.split_on_go sep s skip cur))%nat.
Proof.
  induction s as [| c s IH]; intros skip cur; [simpl; lia |].
  rewrite split_on_go_cons. destruct skip as [| k]; [| apply IH].
  destruct (PyStr.startswith (String c s) sep); [| apply IH].
  rewrite length_cons. lia.
Qed.

Lemma contains_cons p c s :
  PyStr.contains p (String c s) = PyStr.startswith (String c s) p || PyStr.contains p s.
Proof. reflexivity. Qed.

(** A string that contains the separator is cut into at least two
    parts. *)
Lemma split_on_two_parts sep s :
  sep <> EmptyString -> PyStr.contains sep s = true ->
  (2 <= length (PyStr.split_on sep s))%nat.
Proof.
  intros Hsep. unfold PyStr.split_on. generalize EmptyString as cur.
  induction s as [| c s IH]; intros cur Hc.
  - destruct sep; [congruence | discriminate].
  - rewrite contains_cons in Hc. rewrite split_on_go_cons.
    destruct (PyStr.startswith (String c s) sep).
    + rewrite length_cons.
      pose proof (split_on_go_nonempty sep s (String.length sep - 1) EmptyString). lia.
    + apply IH. exact Hc.
Qed.

(** X4.  When [set_by_idx] accepts a trace string, [get_by_idx] with
    the same trace string, under any field index, returns the value set
    if the string contains an arrow, and the caller's default otherwise;
    without an arrow the store is left as it was. *)
Theorem store_by_idx_round_trip (st st' : StaticFieldStore) (i j : Z) (v : pyval)
    (trace_str : string) (default : pyval) :
  set_by_idx st i v trace_str = Ok st' ->
  get_by_idx st' j trace_str default =
    Ok (if PyStr.contains "->" trace_str then v else default) /\
  (PyStr.contains "->" trace_str = false -> st' = st).
Proof.
  unfold set_by_idx, get_by_idx.
  destruct (PyStr.contains "->" trace_str) eqn:Harrow; [| intros [= <-]; auto].
  destruct (2 <=? Z.of_nat (length (PyStr.split_on "->" trace_str))) eqn:Hlen.
  - intros Hs.
    apply bind_Ok in Hs as (p0 & Hp0 & Hs). rewrite Hp0.
    apply bind_Ok in Hs as (c & Hc & Hs).
    apply bind_Ok in Hs as (p1 & Hp1 & Hs).
    apply bind_Ok in Hs as (f & Hf & Hs). injection Hs as <-.
    split; [| discriminate].
    change (Ok p0 ≫= _) with
      (class_part ← Py.index (PyStr.split p0) (-1);
       p1 ← Py.index (PyStr.split_on "->" trace_str) 1;
       field_part ← Py.index (PyStr.split p1) 0;
       Ok (store_get (store_set st c f v) class_part field_part default)).
    rewrite Hc.
    change (Ok c ≫= _) with
      (p1 ← Py.index (PyStr.split_on "->" trace_str) 1;
       field_part ← Py.index (PyStr.split p1) 0;
       Ok (store_get (store_set st c f v) c field_part default)).
    rewrite Hp1.
    change (Ok p1 ≫= _) with
      (field_part ← Py.index (PyStr.split p1) 0;
       Ok (store_get (store_set st c f v) c field_part default)).
    rewrite Hf.
    change (Ok f ≫= _) with (Ok (store_get (store_set st c f v) c f default)).
    f_equal. unfold store_get, store_set. simpl.
    rewrite lookup_insert_eq, lookup_insert_eq. reflexivity.
  - (* [split] on a string that contains the separator has two parts *)
    intros _. exfalso.
    assert (2 <= length (PyStr.split_on "->" trace_str))%nat as Htwo
      by (apply split_on_two_parts; [discriminate | assumption]).
    apply Z.leb_gt in Hlen. lia.
Qed.

End RegistersAndStore.

Lemma register_write_then_read_witness :
  exists regs',
    reg_set (new_Registers 2) 3 (mkRegisterValue (VInt 7)) = Ok regs' /\
    reg_get regs' 3 = Ok (mkRegisterValue (VInt 7)) /\
    Z.of_nat (length regs') = Z.max (Z.of_nat (length (new_Registers 2))) (3 + 1) /\
    (forall j, 0 <= j -> j <> 3 ->
       reg_get regs' j =
         if j <? Z.of_nat (length (new_Registers 2)) then reg_get (new_Registers 2) j
         else if j <? 3 then Ok (mkRegisterValue VNone) else Raise IndexError).
Proof.
  apply (register_write_then_read (new_Registers 2) 3 (mkRegisterValue (VInt 7))). lia.
Defined.

Lemma store_by_idx_round_trip_witness :
  set_by_idx new_store 7 (VInt 5) "sput v0, LFoo;->bar I"
    = Ok (store_set new_store "LFoo;" "bar" (VInt 5)) /\
  get_by_idx (store_set new_store "LFoo;" "bar" (VInt 5)) 9 "sput v0, LFoo;->bar I" (VInt 0)
    = Ok (if PyStr.contains "->" "sput v0, LFoo;->bar I" then VInt 5 else VInt 0).
Proof.
  assert (set_by_idx new_store 7 (VInt 5) "sput v0, LFoo;->bar I"
          = Ok (store_set new_store "LFoo;" "bar" (VInt 5))) as Hset by reflexivity.
  split; [exact Hset |].
  exact (proj1 (store_by_idx_round_trip _ _ 7 9 (VInt 5) _ (VInt 0) Hset)).
Defined.

(* ===================================================================== *)
(** ** Reading integers from the code *)
(* ===================================================================== *)

Section BytesFacts.

Implicit Types (bs : list byte) (vm : DalvikVM).

Lemma from_bytes_unsigned_range bs :
  0 <= Py.from_bytes_unsigned bs < 2 ^ (8 * Z.of_nat (length bs)).
Proof.
  induction bs as [| b bs IH]; simpl Py.from_bytes_unsigned.
  - simpl. lia.
  - pose proof (byte_val_range b) as Hb.
    rewrite length_cons, Nat2Z.inj_succ.
    replace (8 * Z.succ (Z.of_nat (length bs))) with (8 + 8 * Z.of_nat (length bs)) by lia.
    rewrite Z.pow_add_r by lia. change (2 ^ 8) with 256. nia.
Qed.

Lemma from_bytes_false bs : Py.from_bytes bs false = Py.from_bytes_unsigned bs.
Proof. reflexivity. Qed.

(** The signed reading of at most [n] bytes lies in the signed range of
    [n] bytes. *)
Lemma from_bytes_signed_range bs n :
  1 <= n -> Z.of_nat (length bs) <= n ->
  - 2 ^ (8 * n - 1) <= Py.from_bytes bs true < 2 ^ (8 * n - 1).
Proof.
  intros Hn Hlen. pose proof (from_bytes_unsigned_range bs) as Hu.
  assert (Hmono : 2 ^ (8 * Z.of_nat (length bs)) <= 2 * 2 ^ (8 * n - 1)).
  { replace (2 * 2 ^ (8 * n - 1)) with (2 ^ (8 * n)).
    - apply Z.pow_le_mono_r; lia.
    - replace (8 * n) with (1 + (8 * n - 1)) at 1 by lia.
      rewrite Z.pow_add_r by lia. reflexivity. }
  unfold Py.from_bytes. cbv zeta.
  destruct (8 * Z.of_nat (length bs) =? 0) eqn:Hz; simpl.
  - apply Z.eqb_eq in Hz. rewrite Hz in Hu. change (2 ^ 0) with 1 in Hu.
    assert (0 < 2 ^ (8 * n - 1)) by (apply Z.pow_pos_nonneg; lia). lia.
  - apply Z.eqb_neq in Hz.
    assert (Hhalf : 2 ^ (8 * Z.of_nat (length bs)) =
                    2 * 2 ^ (8 * Z.of_nat (length bs) - 1)).
    { replace (8 * Z.of_nat (length bs)) with (1 + (8 * Z.of_nat (length bs) - 1)) at 1
        by lia.
      rewrite Z.pow_add_r by lia. reflexivity. }
    assert (Hle : 2 ^ (8 * Z.of_nat (length bs) - 1) <= 2 ^ (8 * n - 1))
      by (apply Z.pow_le_mono_r; lia).
    destruct (Z.leb_spec (2 ^ (8 * Z.of_nat (length bs) - 1)) (Py.from_bytes_unsigned bs));
      lia.
Qed.

Lemma slice_length_le {A} (l : list A) (a n : Z) :
  0 <= n -> Z.of_nat (length (Py.slice l a (a + n))) <= n.
Proof.
  intros Hn. unfold Py.slice, Py.clamp. cbv zeta.
  rewrite length_take, length_drop.
  destruct (Z.ltb_spec a 0), (Z.ltb_spec (a + n) 0); lia.
Qed.

(** Inside the sequence, a slice is the segment asked for. *)
Lemma slice_inside {A} (l : list A) (a n : Z) :
  0 <= a -> 0 <= n -> a + n <= Z.of_nat (length l) ->
  Py.slice l a (a + n) = take (Z.to_nat n) (drop (Z.to_nat a) l) /\
  Z.of_nat (length (Py.slice l a (a + n))) = n.
Proof.
  intros Ha Hn Hlen. unfold Py.slice, Py.clamp. cbv zeta.
  destruct (Z.ltb_spec a 0); [lia |]. destruct (Z.ltb_spec (a + n) 0); [lia |].
  replace (Z.min (a + n) (Z.of_nat (length l)) - Z.min a (Z.of_nat (length l))) with n by lia.
  replace (Z.min a (Z.of_nat (length l))) with a by lia.
  split; [reflexivity |]. rewrite length_take, length_drop. lia.
Qed.

Lemma code_int_signed_range vm a n :
  1 <= n -> - 2 ^ (8 * n - 1) <= code_int vm a n true < 2 ^ (8 * n - 1).
Proof.
  intros Hn. unfold code_int. apply from_bytes_signed_range; [assumption |].
  apply slice_length_le. lia.
Qed.

Lemma code_int_unsigned_range vm a n :
  0 <= n -> 0 <= code_int vm a n false < 2 ^ (8 * n).
Proof.
  intros Hn. unfold code_int. rewrite from_bytes_false.
  pose proof (from_bytes_unsigned_range (Py.slice (bytecode vm) a (a + n))) as Hu.
  pose proof (slice_length_le (bytecode vm) a n Hn) as Hl.
  assert (2 ^ (8 * Z.of_nat (length (Py.slice (bytecode vm) a (a + n)))) <= 2 ^ (8 * n))
    by (apply Z.pow_le_mono_r; lia).
  lia.
Qed.

(** The signed reading of exactly [n] bytes is the unsigned one, folded
    at [2^(8n-1)]. *)
Lemma from_bytes_signed_fold bs n :
  1 <= n -> Z.of_nat (length bs) = n ->
  Py.from_bytes bs true =
    if Py.from_bytes bs false <? 2 ^ (8 * n - 1)
    then Py.from_bytes bs false else Py.from_bytes bs false - 2 ^ (8 * n).
Proof.
  intros Hn Hlen. rewrite from_bytes_false. unfold Py.from_bytes. cbv zeta.
  rewrite Hlen. destruct (Z.eqb_spec (8 * n) 0); [lia |]. simpl.
  destruct (Z.leb_spec (2 ^ (8 * n - 1)) (Py.from_bytes_unsigned bs)),
           (Z.ltb_spec (Py.from_bytes_unsigned bs) (2 ^ (8 * n - 1))); try lia; reflexivity.
Qed.

(** X5.  The signed readers of the code return values of their width:
    a byte in [-128, 127], a short in [-32768, 32767] and an int in
    [-2^31, 2^31 - 1], also when the code ends before the last byte asked
    for; the byte reader raises only [IndexError].  Where both bytes lie
    inside the code, the signed short is the unsigned 16-bit reading
    folded at 32768. *)
Theorem signed_readers_range (vm : DalvikVM) (offset : Z) :
  (match read_signed_byte vm offset with
   | Ok v => -128 <= v <= 127
   | Raise e => e = IndexError
   end) /\
  -32768 <= read_signed_short vm offset <= 32767 /\
  -2147483648 <= read_signed_int vm offset <= 2147483647 /\
  (0 <= offset -> offset + 2 <= Z.of_nat (length (bytecode vm)) ->
   read_signed_short vm offset =
     if read_u16 vm offset <? 32768 then read_u16 vm offset
     else read_u16 vm offset - 65536).
Proof.
  split; [| split; [| split]].
  - unfold read_signed_byte, code_at, Py.index.
    destruct (0 <=? offset);
      [| destruct (- Z.of_nat (length (bytecode vm)) <=? offset)].
    + destruct (bytecode vm !! Z.to_nat offset) as [b |]; simpl; [| reflexivity].
      pose proof (byte_val_range b). destruct (Z.ltb_spec 127 (byte_val b)); lia.
    + destruct (bytecode vm !! _) as [b |]; simpl; [| reflexivity].
      pose proof (byte_val_range b). destruct (Z.ltb_spec 127 (byte_val b)); lia.
    + reflexivity.
  - pose proof (code_int_signed_range vm offset 2 ltac:(lia)) as H.
    unfold code_int in H. unfold read_signed_short.
    change (2 ^ (8 * 2 - 1)) with 32768 in H. lia.
  - pose proof (code_int_signed_range vm offset 4 ltac:(lia)) as H.
    unfold code_int in H. unfold read_signed_int.
    change (2 ^ (8 * 4 - 1)) with 2147483648 in H. lia.
  - intros Ho Hlen. unfold read_signed_short, read_u16.
    destruct (slice_inside (bytecode vm) offset 2 Ho ltac:(lia) Hlen) as [_ Hl].
    apply (from_bytes_signed_fold _ 2); [lia | exact Hl].
Qed.

End BytesFacts.

(* ===================================================================== *)
(** ** Constants, moves, conversions *)
(* ===================================================================== *)

Section SimpleHandlers.

Implicit Types (vm : DalvikVM) (w : World).

Lemma code_at_nonneg vm off b : code_at vm off = Ok b -> 0 <= b.
Proof. intros H. apply code_at_range in H. lia. Qed.

(** A write at a non-negative index: the register reads back the
    integer reading of the value, the others read as before. *)
Lemma write_reg_run vm idx v vm1 :
  0 <= idx -> write_reg vm idx v = Ok vm1 ->
  get_int (registers vm1) idx = Ok (int_reading v) /\
  (forall j, 0 <= j -> j <> idx -> get_int (registers vm1) j = get_int (registers vm) j) /\
  pc vm1 = pc vm /\ bytecode vm1 = bytecode vm.
Proof.
  intros Hi Hw. destruct (write_reg_nonneg vm idx v Hi) as (regs' & Hw' & Hset).
  rewrite Hw' in Hw. injection Hw as <-. simpl.
  split; [apply (get_int_reg_set_eq _ _ _ _ Hi Hset) |].
  split; [| split; reflexivity].
  intros j Hj Hne. apply (get_int_reg_set_ne _ _ _ _ _ Hi Hj Hne Hset).
Qed.

Lemma land_ones_range x k : 0 <= k -> 0 <= Z.land x (2 ^ k - 1) < 2 ^ k.
Proof.
  intros Hk. replace (2 ^ k - 1) with (Z.ones k) by (rewrite Z.ones_equiv; lia).
  rewrite Z.land_ones by assumption. apply Z.mod_pos_bound. apply Z.pow_pos_nonneg; lia.
Qed.

Lemma land_ones_mod x k : 0 <= k -> Z.land x (2 ^ k - 1) = x mod 2 ^ k.
Proof.
  intros Hk. replace (2 ^ k - 1) with (Z.ones k) by (rewrite Z.ones_equiv; lia).
  apply Z.land_ones. assumption.
Qed.

Lemma nibbles_range b : 0 <= b -> 0 <= Z.land b 0xF < 16 /\ 0 <= Z.shiftr b 4.
Proof.
  intros Hb. split.
  - apply (land_ones_range b 4). lia.
  - apply Z.shiftr_nonneg. assumption.
Qed.


(** X7.  [move vA, vB] never fails once its operand byte can be read:
    when the source register exists its value is written to the
    destination, and when the source lies past the end of the register
    file the registers are left alone and one warning line is printed;
    in both cases the program counter advances by one. *)
Theorem move_copies_or_warns (vm : DalvikVM) (w : World) (b : Z) :
  code_at vm (pc vm) = Ok b ->
  match registers vm !! Z.to_nat (Z.shiftr b 4) with
  | Some rv =>
      exists regs',
        reg_set (registers vm) (Z.land b 0xF) rv = Ok regs' /\
        execute_move vm w = Ok (set_pc (set_registers vm regs') (pc vm + 1), w)
  | None =>
      execute_move vm w =
        Ok (set_pc vm (pc vm + 1),
            print w (move_warning (Z.land b 0xF) (Z.shiftr b 4)))
  end.
Proof.
  intros Hb. pose proof (code_at_range _ _ _ Hb) as Hbr.
  destruct (nibbles_range b ltac:(lia)) as [Hdst Hsrc].
  unfold execute_move. rewrite Hb.
  change (Ok b ≫= _) with
    ('(vm0, w0) ← guarded_move vm w (Z.land b 0xF) (Z.shiftr b 4);
     Ok (set_pc vm0 (pc vm0 + 1), w0)).
  unfold guarded_move. rewrite reg_get_nonneg by assumption.
  destruct (registers vm !! Z.to_nat (Z.shiftr b 4)) as [rv |]; simpl.
  - rewrite reg_set_nonneg by lia. eexists. split; reflexivity.
  - reflexivity.
Qed.

Lemma mod_fold_low v m : 0 < m -> (v mod m - v) mod m = 0.
Proof.
  intros Hm. apply Z.mod_divide; [lia |]. exists (- (v / m)).
  pose proof (Z.div_mod v m ltac:(lia)). lia.
Qed.

Lemma mod_fold_high v m : 0 < m -> (v mod m - m - v) mod m = 0.
Proof.
  intros Hm. apply Z.mod_divide; [lia |]. exists (- (v / m) - 1).
  pose proof (Z.div_mod v m ltac:(lia)). lia.
Qed.

(** X8.  The narrowing conversions int-to-byte, int-to-char,
    int-to-short and long-to-int store the two's-complement narrowing of
    the integer read from the source: a value of the target range
    ([char] being unsigned) that differs from the source by a multiple of
    2^8, 2^16 or 2^32. *)
Theorem narrowing_conversions (n : narrowing) (vm vm' : DalvikVM) :
  narrowing_handler n vm = Ok vm' ->
  exists b v r,
    code_at vm (pc vm) = Ok b /\
    get_int (registers vm) (Z.shiftr b 4) = Ok v /\
    get_int (registers vm') (Z.land b 0xF) = Ok r /\
    narrowing_min n <= r < narrowing_min n + 2 ^ narrowing_bits n /\
    (r - v) mod 2 ^ narrowing_bits n = 0 /\
    pc vm' = pc vm + 1.
Proof.
  intros H.
  assert (Hshape : exists b v r vm1,
             code_at vm (pc vm) = Ok b /\
             get_int (registers vm) (Z.shiftr b 4) = Ok v /\
             write_reg vm (Z.land b 0xF) (VInt r) = Ok vm1 /\
             vm' = set_pc vm1 (pc vm1 + 1) /\
             r = match n with
                 | ToByte => let x := Z.land v 0xFF in if 127 <? x then x - 256 else x
                 | ToChar => Z.land v 0xFFFF
                 | ToShort => let x := Z.land v 0xFFFF in if 32767 <? x then x - 65536 else x
                 | ToInt => let x := Z.land v 0xFFFFFFFF in
                            if 0x7FFFFFFF <? x then x - 0x100000000 else x
                 end).
  { destruct n; simpl in H;
      [unfold execute_int_to_byte in H | unfold execute_int_to_char in H
       | unfold execute_int_to_short in H | unfold execute_long_to_int in H];
      apply bind_Ok in H as (b & Hb & H); apply bind_Ok in H as (v & Hv & H);
      apply bind_Ok in H as (vm1 & Hw & H); injection H as <-;
      exists b, v; eexists; exists vm1; repeat split; eassumption || reflexivity. }
  destruct Hshape as (b & v & r & vm1 & Hb & Hv & Hw & -> & Hr).
  pose proof (code_at_range _ _ _ Hb) as Hbr.
  destruct (nibbles_range b ltac:(lia)) as [Hdst _].
  destruct (write_reg_run _ _ _ _ (proj1 Hdst) Hw) as (Hget & _ & Hpc & _).
  exists b, v, r. split; [exact Hb | split; [exact Hv | split; [exact Hget |]]].
  split; [| split; [| simpl; lia]].
  - destruct n; subst r; cbv zeta; unfold narrowing_min, narrowing_bits.
    + pose proof (land_ones_range v 8 ltac:(lia)) as Hl.
      change (2 ^ 8 - 1) with 255 in Hl. change (2 ^ 8) with 256 in *.
      change (2 ^ (8 - 1)) with 128.
      destruct (Z.ltb_spec 127 (Z.land v 255)); lia.
    + pose proof (land_ones_range v 16 ltac:(lia)) as Hl.
      change (2 ^ 16 - 1) with 65535 in Hl. change (2 ^ 16) with 65536 in *. lia.
    + pose proof (land_ones_range v 16 ltac:(lia)) as Hl.
      change (2 ^ 16 - 1) with 65535 in Hl. change (2 ^ 16) with 65536 in *.
      change (2 ^ (16 - 1)) with 32768.
      destruct (Z.ltb_spec 32767 (Z.land v 65535)); lia.
    + pose proof (land_ones_range v 32 ltac:(lia)) as Hl.
      change (2 ^ 32 - 1) with 4294967295 in Hl. change (2 ^ 32) with 4294967296 in *.
      change (2 ^ (32 - 1)) with 2147483648.
      destruct (Z.ltb_spec 2147483647 (Z.land v 4294967295)); lia.
  - destruct n; subst r; cbv zeta; unfold narrowing_bits.
    + change 255 with (2 ^ 8 - 1). rewrite land_ones_mod by lia.
      change 256 with (2 ^ 8).
      destruct (127 <? v mod 2 ^ 8); [apply mod_fold_high | apply mod_fold_low]; lia.
    + change 65535 with (2 ^ 16 - 1). rewrite land_ones_mod by lia.
      apply mod_fold_low. lia.
    + change 65535 with (2 ^ 16 - 1). rewrite land_ones_mod by lia.
      change 65536 with (2 ^ 16).
      destruct (32767 <? v mod 2 ^ 16); [apply mod_fold_high | apply mod_fold_low]; lia.
    + change 4294967295 with (2 ^ 32 - 1). rewrite land_ones_mod by lia.
      change 4294967296 with (2 ^ 32).
      destruct (2147483647 <? v mod 2 ^ 32); [apply mod_fold_high | apply mod_fold_low]; lia.
Qed.

End SimpleHandlers.


Lemma move_copies_or_warns_witness :
  code_at move_oob_vm (pc move_oob_vm) = Ok 0x10 /\
  match registers move_oob_vm !! Z.to_nat (Z.shiftr 0x10 4) with
  | Some rv =>
      exists regs',
        reg_set (registers move_oob_vm) (Z.land 0x10 0xF) rv = Ok regs' /\
        execute_move move_oob_vm empty_world =
          Ok (set_pc (set_registers move_oob_vm regs') (pc move_oob_vm + 1), empty_world)
  | None =>
      execute_move move_oob_vm empty_world =
        Ok (set_pc move_oob_vm (pc move_oob_vm + 1),
            print empty_world (move_warning (Z.land 0x10 0xF) (Z.shiftr 0x10 4)))
  end.
Proof.
  assert (code_at move_oob_vm (pc move_oob_vm) = Ok 0x10) as Hb by reflexivity.
  split; [exact Hb |].
  exact (move_copies_or_warns move_oob_vm empty_world 0x10 Hb).
Defined.

Lemma narrowing_conversions_witness :
  exists vm',
    narrowing_handler ToByte to_byte_vm = Ok vm' /\
    exists b v r,
      code_at to_byte_vm (pc to_byte_vm) = Ok b /\
      get_int (registers to_byte_vm) (Z.shiftr b 4) = Ok v /\
      get_int (registers vm') (Z.land b 0xF) = Ok r /\
      narrowing_min ToByte <= r < narrowing_min ToByte + 2 ^ narrowing_bits ToByte /\
      (r - v) mod 2 ^ narrowing_bits ToByte = 0 /\
      pc vm' = pc to_byte_vm + 1.
Proof.
  destruct (narrowing_handler ToByte to_byte_vm) as [vm' | e] eqn:Hrun;
    [| vm_compute in Hrun; discriminate Hrun].
  exists vm'. split; [reflexivity |].
  exact (narrowing_conversions ToByte to_byte_vm vm' Hrun).
Defined.

Lemma signed_readers_range_witness :
  read_signed_short const4_vm 0 =
    if read_u16 const4_vm 0 <? 32768 then read_u16 const4_vm 0
    else read_u16 const4_vm 0 - 65536.
Proof.
  apply (proj2 (proj2 (proj2 (signed_readers_range const4_vm 0)))).
  - lia.
  - apply Z.leb_le. vm_compute. reflexivity.
Defined.

(* ===================================================================== *)
(** ** Tests and switches *)
(* ===================================================================== *)

Section ControlFlow.

Implicit Types (vm : DalvikVM).

Lemma if_test_opposite (cond cond' : Z -> Z -> bool) vm vm1 :
  (forall a b, cond' a b = negb (cond a b)) ->
  _execute_if_test cond vm = Ok vm1 ->
  exists taken : bool,
    vm1 = set_pc vm (if taken then branch_target vm else pc vm + 3) /\
    _execute_if_test cond' vm =
      Ok (set_pc vm (if taken then pc vm + 3 else branch_target vm)).
Proof.
  intros Hopp. unfold _execute_if_test. intros H.
  apply bind_Ok in H as (b & Hb & H). rewrite Hb.
  apply bind_Ok in H as (va & Ha & H). apply bind_Ok in H as (vb & Hvb & H).
  change (Ok b ≫= _) with
    (v_a ← get_int (registers vm) (Z.land b 0xF);
     v_b ← get_int (registers vm) (Z.shiftr b 4);
     if cond' v_a v_b then Ok (set_pc vm (branch_target vm))
     else Ok (set_pc vm (pc vm + 3))).
  rewrite Ha.
  change (Ok va ≫= _) with
    (v_b ← get_int (registers vm) (Z.shiftr b 4);
     if cond' va v_b then Ok (set_pc vm (branch_target vm))
     else Ok (set_pc vm (pc vm + 3))).
  rewrite Hvb.
  change (Ok vb ≫= _) with
    (if cond' va vb then Ok (set_pc vm (branch_target vm))
     else Ok (set_pc vm (pc vm + 3))).
  rewrite Hopp. exists (cond va vb).
  destruct (cond va vb); injection H as <-; split; reflexivity.
Qed.

Lemma if_testz_opposite (cond cond' : Z -> bool) vm vm1 :
  (forall a, cond' a = negb (cond a)) ->
  _execute_if_testz cond vm = Ok vm1 ->
  exists taken : bool,
    vm1 = set_pc vm (if taken then branch_target vm else pc vm + 3) /\
    _execute_if_testz cond' vm =
      Ok (set_pc vm (if taken then pc vm + 3 else branch_target vm)).
Proof.
  intros Hopp. unfold _execute_if_testz. intros H.
  apply bind_Ok in H as (b & Hb & H). rewrite Hb.
  apply bind_Ok in H as (rv & Hrv & H).
  change (Ok b ≫= _) with
    (rv ← reg_get (registers vm) b;
     if cond' (zero_test_reading (value rv)) then Ok (set_pc vm (branch_target vm))
     else Ok (set_pc vm (pc vm + 3))).
  rewrite Hrv.
  change (Ok rv ≫= _) with
    (if cond' (zero_test_reading (value rv)) then Ok (set_pc vm (branch_target vm))
     else Ok (set_pc vm (pc vm + 3))).
  rewrite Hopp. exists (cond (zero_test_reading (value rv))).
  destruct (cond (zero_test_reading (value rv))); injection H as <-; split; reflexivity.
Qed.

Lemma branch_target_range vm : -65536 <= branch_target vm - (pc vm - 1) <= 65534.
Proof.
  unfold branch_target, branch_offset.
  assert (-32768 <= Py.from_bytes (Py.slice (bytecode vm) (pc vm + 1) (pc vm + 3)) true
          < 32768).
  { apply (from_bytes_signed_range _ 2); [lia |].
    replace (pc vm + 3) with (pc vm + 1 + 2) by lia. apply slice_length_le. lia. }
  lia.
Qed.

(** X9.  Each test and its opposite (if-eq/if-ne, if-lt/if-ge,
    if-gt/if-le and the three pairs against zero) decide the same
    instruction in opposite ways: when one of them takes the branch the
    other falls through to the next instruction, three bytes on, and
    conversely.  The branch lands an even number of bytes, between -65536
    and 65534, from the opcode. *)
Theorem opposite_tests_complementary (p : test_pair) (vm vm1 : DalvikVM) :
  test_handler p vm = Ok vm1 ->
  exists taken : bool,
    vm1 = set_pc vm (if taken then branch_target vm else pc vm + 3) /\
    opposite_handler p vm =
      Ok (set_pc vm (if taken then pc vm + 3 else branch_target vm)) /\
    -65536 <= branch_target vm - (pc vm - 1) <= 65534 /\
    Z.even (branch_target vm - (pc vm - 1)) = true.
Proof.
  intros H.
  assert (Hpair : exists taken : bool,
             vm1 = set_pc vm (if taken then branch_target vm else pc vm + 3) /\
             opposite_handler p vm =
               Ok (set_pc vm (if taken then pc vm + 3 else branch_target vm))).
  { destruct p; simpl in *.
    - apply (if_test_opposite (fun a b => a =? b)); [reflexivity | exact H].
    - apply (if_test_opposite (fun a b => a <? b)); [| exact H].
      intros a b. rewrite Z.geb_leb. apply Z.leb_antisym.
    - apply (if_test_opposite (fun a b => a >? b)); [| exact H].
      intros a b. rewrite Z.gtb_ltb. apply Z.leb_antisym.
    - apply (if_testz_opposite (fun v => v =? 0)); [reflexivity | exact H].
    - apply (if_testz_opposite (fun v => v <? 0)); [| exact H].
      intros a. rewrite Z.geb_leb. apply Z.leb_antisym.
    - apply (if_testz_opposite (fun v => v >? 0)); [| exact H].
      intros a. rewrite Z.gtb_ltb. apply Z.leb_antisym. }
  destruct Hpair as (taken & Hvm & Hopp). exists taken.
  split; [exact Hvm | split; [exact Hopp | split; [apply branch_target_range |]]].
  unfold branch_target. replace (pc vm - 1 + branch_offset vm * 2 - (pc vm - 1))
    with (2 * branch_offset vm) by lia.
  rewrite Z.even_mul. reflexivity.
Qed.

(** X10.  The tests against zero read [None] as 0 and every other
    value that is not an integer (an object, an array, a string, a
    float, whatever its value) as 1: on such a register if-eqz branches
    exactly on [None], if-nez exactly on the others, and if-ltz never.  A
    register past the end of the file makes them raise [IndexError]. *)
Theorem zero_tests_on_references (vm : DalvikVM) (reg : Z) :
  code_at vm (pc vm) = Ok reg ->
  match registers vm !! Z.to_nat reg with
  | Some rv =>
      is_int (value rv) = false ->
      execute_if_eqz vm =
        Ok (set_pc vm (if is_none (value rv) then branch_target vm else pc vm + 3)) /\
      execute_if_nez vm =
        Ok (set_pc vm (if is_none (value rv) then pc vm + 3 else branch_target vm)) /\
      execute_if_ltz vm = Ok (set_pc vm (pc vm + 3))
  | None =>
      execute_if_eqz vm = Raise IndexError /\
      execute_if_nez vm = Raise IndexError /\
      execute_if_ltz vm = Raise IndexError
  end.
Proof.
  intros Hb. pose proof (code_at_range _ _ _ Hb) as Hbr.
  unfold execute_if_eqz, execute_if_nez, execute_if_ltz, _execute_if_testz.
  rewrite Hb.
  change (Ok reg ≫= ?k) with (k reg). cbv beta.
  rewrite reg_get_nonneg by lia.
  destruct (registers vm !! Z.to_nat reg) as [rv |]; simpl.
  - intros Hint. destruct (value rv); try discriminate; simpl; repeat split; reflexivity.
  - repeat split; reflexivity.
Qed.

(** X11.  On a well-formed payload that lies inside the code,
    packed-switch jumps to the target stored for the value when the value
    is one of the [size] consecutive keys from [first_key] on, and
    falls through to the next instruction, five bytes on, for every
    other value. *)
Theorem packed_switch_selects (vm : DalvikVM) (reg v : Z) :
  code_at vm (pc vm) = Ok reg ->
  get_int (registers vm) reg = Ok v ->
  code_int vm (switch_payload vm) 2 false = 0x0100 ->
  switch_payload vm + 8 + 4 * code_int vm (switch_payload vm + 2) 2 false
    <= Z.of_nat (length (bytecode vm)) ->
  execute_packed_switch vm =
    Ok (set_pc vm
          (let first_key := code_int vm (switch_payload vm + 4) 4 true in
           let size := code_int vm (switch_payload vm + 2) 2 false in
           if (first_key <=? v) && (v <? first_key + size)
           then (pc vm - 1) + packed_target vm (switch_payload vm) (v - first_key) * 2
           else pc vm + 5)).
Proof.
  intros Hb Hv Hident Hlen.
  pose proof (code_int_unsigned_range vm (switch_payload vm + 2) 2 ltac:(lia)) as Hsize.
  unfold execute_packed_switch. rewrite Hb.
  change (Ok reg ≫= ?k) with (k reg). cbv beta. rewrite Hv.
  change (Ok v ≫= ?k) with (k v). cbv beta zeta.
  fold (switch_payload vm). rewrite Hident.
  destruct (Z.ltb_spec (Z.of_nat (length (bytecode vm))) (switch_payload vm + 8)); [lia |].
  simpl negb. cbv iota.
  set (first_key := code_int vm (switch_payload vm + 4) 4 true).
  set (size := code_int vm (switch_payload vm + 2) 2 false) in *.
  destruct (Z.leb_spec first_key v), (Z.ltb_spec v (first_key + size)); simpl andb;
    cbv iota; try reflexivity.
  destruct (Z.leb_spec (switch_payload vm + 8 + (v - first_key) * 4 + 4)
              (Z.of_nat (length (bytecode vm)))); [reflexivity | lia].
Qed.

Lemma sparse_search_none vm keys_start targets_start v n : forall i,
  (forall j, i <= j < i + Z.of_nat n -> code_int vm (keys_start + j * 4) 4 true <> v) ->
  sparse_search vm keys_start targets_start v n i = None.
Proof.
  induction n as [| n IH]; intros i Hno; [reflexivity |].
  simpl sparse_search.
  destruct (Z.of_nat (length (bytecode vm)) <? keys_start + i * 4 + 4); [reflexivity |].
  destruct (Z.eqb_spec (code_int vm (keys_start + i * 4) 4 true) v) as [Heq | _].
  - exfalso. apply (Hno i); [lia | exact Heq].
  - apply IH. intros j Hj. apply Hno. lia.
Qed.

Lemma sparse_search_first vm keys_start targets_start v n : forall i0 i,
  i0 <= i < i0 + Z.of_nat n ->
  keys_start + i * 4 + 4 <= Z.of_nat (length (bytecode vm)) ->
  targets_start + i * 4 + 4 <= Z.of_nat (length (bytecode vm)) ->
  0 <= i0 ->
  code_int vm (keys_start + i * 4) 4 true = v ->
  (forall j, i0 <= j < i -> code_int vm (keys_start + j * 4) 4 true <> v) ->
  sparse_search vm keys_start targets_start v n i0 =
    Some (code_int vm (targets_start + i * 4) 4 true).
Proof.
  induction n as [| n IH]; intros i0 i Hi Hkey Htarget Hi0 Heq Hfirst; [lia |].
  simpl sparse_search.
  destruct (Z.ltb_spec (Z.of_nat (length (bytecode vm))) (keys_start + i0 * 4 + 4)); [lia |].
  destruct (Z.eq_dec i0 i) as [-> | Hne].
  - rewrite Heq, Z.eqb_refl.
    destruct (Z.leb_spec (targets_start + i * 4 + 4) (Z.of_nat (length (bytecode vm))));
      [reflexivity | lia].
  - destruct (Z.eqb_spec (code_int vm (keys_start + i0 * 4) 4 true) v) as [Hbad | _].
    + exfalso. apply (Hfirst i0); [lia | exact Hbad].
    + apply IH; try assumption; try lia. intros j Hj. apply Hfirst. lia.
Qed.

(** X12.  On a well-formed payload that lies inside the code,
    sparse-switch jumps to the target of the first key equal to the
    value, and falls through to the next instruction, five bytes on, when
    no key equals it. *)
Theorem sparse_switch_first_match (vm : DalvikVM) (reg v : Z) :
  code_at vm (pc vm) = Ok reg ->
  get_int (registers vm) reg = Ok v ->
  code_int vm (switch_payload vm) 2 false = 0x0200 ->
  switch_payload vm + 4 + 8 * code_int vm (switch_payload vm + 2) 2 false
    <= Z.of_nat (length (bytecode vm)) ->
  let size := code_int vm (switch_payload vm + 2) 2 false in
  (forall i, 0 <= i < size ->
     sparse_key vm (switch_payload vm) i = v ->
     (forall j, 0 <= j < i -> sparse_key vm (switch_payload vm) j <> v) ->
     execute_sparse_switch vm =
       Ok (set_pc vm ((pc vm - 1) + sparse_target vm (switch_payload vm) size i * 2))) /\
  ((forall j, 0 <= j < size -> sparse_key vm (switch_payload vm) j <> v) ->
   execute_sparse_switch vm = Ok (set_pc vm (pc vm + 5))).
Proof.
  intros Hb Hv Hident Hlen size.
  pose proof (code_int_unsigned_range vm (switch_payload vm + 2) 2 ltac:(lia)) as Hsize.
  fold size in Hsize, Hlen.
  assert (Hrun : execute_sparse_switch vm =
                 match sparse_search vm (switch_payload vm + 4)
                         (switch_payload vm + 4 + size * 4) v (Z.to_nat size) 0 with
                 | Some target_offset => Ok (set_pc vm (pc vm - 1 + target_offset * 2))
                 | None => Ok (set_pc vm (pc vm + 5))
                 end).
  { unfold execute_sparse_switch. rewrite Hb.
    change (Ok reg ≫= ?k) with (k reg). cbv beta. rewrite Hv.
    change (Ok v ≫= ?k) with (k v). cbv beta zeta.
    fold (switch_payload vm). rewrite Hident. fold size.
    destruct (Z.ltb_spec (Z.of_nat (length (bytecode vm))) (switch_payload vm + 4)); [lia |].
    reflexivity. }
  split.
  - intros i Hi Hkey Hfirst. rewrite Hrun.
    rewrite (sparse_search_first vm _ _ v (Z.to_nat size) 0 i); try lia.
    + reflexivity.
    + replace (switch_payload vm + 4 + i * 4) with (switch_payload vm + 4 + i * 4) by lia.
      exact Hkey.
    + intros j Hj. apply Hfirst. lia.
  - intros Hnone. rewrite Hrun.
    rewrite sparse_search_none; [reflexivity |].
    intros j Hj. apply Hnone. lia.
Qed.

End ControlFlow.

Lemma opposite_tests_complementary_witness :
  exists vm1,
    test_handler LtGe if_lt_vm = Ok vm1 /\
    exists taken : bool,
      vm1 = set_pc if_lt_vm (if taken then branch_target if_lt_vm else pc if_lt_vm + 3) /\
      opposite_handler LtGe if_lt_vm =
        Ok (set_pc if_lt_vm (if taken then pc if_lt_vm + 3 else branch_target if_lt_vm)) /\
      -65536 <= branch_target if_lt_vm - (pc if_lt_vm - 1) <= 65534 /\
      Z.even (branch_target if_lt_vm - (pc if_lt_vm - 1)) = true.
Proof.
  destruct (test_handler LtGe if_lt_vm) as [vm1 | e] eqn:Hrun;
    [| vm_compute in Hrun; discriminate Hrun].
  exists vm1. split; [reflexivity |].
  exact (opposite_tests_complementary LtGe if_lt_vm vm1 Hrun).
Defined.

Lemma zero_tests_on_references_witness :
  code_at if_eqz_vm (pc if_eqz_vm) = Ok 0 /\
  match registers if_eqz_vm !! Z.to_nat 0 with
  | Some rv =>
      is_int (value rv) = false ->
      execute_if_eqz if_eqz_vm =
        Ok (set_pc if_eqz_vm
              (if is_none (value rv) then branch_target if_eqz_vm else pc if_eqz_vm + 3)) /\
      execute_if_nez if_eqz_vm =
        Ok (set_pc if_eqz_vm
              (if is_none (value rv) then pc if_eqz_vm + 3 else branch_target if_eqz_vm)) /\
      execute_if_ltz if_eqz_vm = Ok (set_pc if_eqz_vm (pc if_eqz_vm + 3))
  | None =>
      execute_if_eqz if_eqz_vm = Raise IndexError /\
      execute_if_nez if_eqz_vm = Raise IndexError /\
      execute_if_ltz if_eqz_vm = Raise IndexError
  end.
Proof.
  assert (code_at if_eqz_vm (pc if_eqz_vm) = Ok 0) as Hb by reflexivity.
  split; [exact Hb |].
  exact (zero_tests_on_references if_eqz_vm 0 Hb).
Defined.

Lemma packed_switch_selects_witness :
  code_at packed_switch_vm (pc packed_switch_vm) = Ok 0 /\
  get_int (registers packed_switch_vm) 0 = Ok 11 /\
  execute_packed_switch packed_switch_vm =
    Ok (set_pc packed_switch_vm
          (let first_key := code_int packed_switch_vm (switch_payload packed_switch_vm + 4) 4 true in
           let size := code_int packed_switch_vm (switch_payload packed_switch_vm + 2) 2 false in
           if (first_key <=? 11) && (11 <? first_key + size)
           then (pc packed_switch_vm - 1) +
                packed_target packed_switch_vm (switch_payload packed_switch_vm)
                  (11 - first_key) * 2
           else pc packed_switch_vm + 5)).
Proof.
  assert (code_at packed_switch_vm (pc packed_switch_vm) = Ok 0) as Hb by reflexivity.
  assert (get_int (registers packed_switch_vm) 0 = Ok 11) as Hv by reflexivity.
  split; [exact Hb | split; [exact Hv |]].
  apply (packed_switch_selects packed_switch_vm 0 11 Hb Hv).
  - reflexivity.
  - apply Z.leb_le. vm_compute. reflexivity.
Defined.

Lemma sparse_switch_first_match_witness :
  code_at sparse_switch_vm (pc sparse_switch_vm) = Ok 0 /\
  get_int (registers sparse_switch_vm) 0 = Ok 7 /\
  execute_sparse_switch sparse_switch_vm = Ok (set_pc sparse_switch_vm 10).
Proof.
  assert (code_at sparse_switch_vm (pc sparse_switch_vm) = Ok 0) as Hb by reflexivity.
  assert (get_int (registers sparse_switch_vm) 0 = Ok 7) as Hv by reflexivity.
  split; [exact Hb | split; [exact Hv |]].
  assert (code_int sparse_switch_vm (switch_payload sparse_switch_vm) 2 false = 0x0200)
    as Hident by reflexivity.
  assert (switch_payload sparse_switch_vm + 4 +
          8 * code_int sparse_switch_vm (switch_payload sparse_switch_vm + 2) 2 false
          <= Z.of_nat (length (bytecode sparse_switch_vm))) as Hlen
    by (apply Z.leb_le; vm_compute; reflexivity).
  destruct (sparse_switch_first_match sparse_switch_vm 0 7 Hb Hv Hident Hlen) as [Hfirst _].
  rewrite (Hfirst 1).
  - reflexivity.
  - vm_compute. split; [discriminate | reflexivity].
  - reflexivity.
  - intros j Hj. assert (j = 0) as -> by lia. vm_compute. discriminate.
Defined.

(* ===================================================================== *)
(** ** Arrays: allocation, element round trip, bulk fill *)
(* ===================================================================== *)

Section ArrayComposition.

Implicit Types (vm : DalvikVM) (w : World) (arr : DalvikArray).

Lemma reg_value_written vm idx v vm1 :
  0 <= idx -> write_reg vm idx v = Ok vm1 -> reg_value vm1 idx = Ok v.
Proof.
  intros Hi Hw. destruct (write_reg_nonneg vm idx v Hi) as (regs' & Hw' & Hset).
  rewrite Hw' in Hw. injection Hw as <-.
  apply (reg_value_lookup _ idx (mkRegisterValue v) Hi). simpl.
  eapply reg_set_lookup; eassumption.
Qed.

(** X13.  [new-array] never refuses a size: it appends a fresh array
    of the requested size to the heap, with a buffer of that many zeros
    (an empty buffer when the size is negative), and writes its handle to
    the destination; [array-length] on any register holding that handle
    then returns the requested size, negative sizes included. *)
Theorem new_array_then_length (vm vm1 : DalvikVM) (w w1 : World) :
  execute_new_array vm w = Ok (vm1, w1) ->
  exists b sz arr,
    code_at vm (pc vm) = Ok b /\
    get_int (registers vm) (Z.shiftr b 4) = Ok sz /\
    reg_value vm1 (Z.land b 0xF) = Ok (VArr (length (arrays w))) /\
    arrays w1 = arrays w ++ [arr] /\
    size arr = sz /\ data arr = replicate (Z.to_nat sz) (VInt 0) /\
    (forall vm2 b2,
       code_at vm2 (pc vm2) = Ok b2 ->
       reg_value vm2 (Z.shiftr b2 4) = Ok (VArr (length (arrays w))) ->
       exists vm3,
         execute_array_length vm2 w1 = Ok (vm3, w1) /\
         get_int (registers vm3) (Z.land b2 0xF) = Ok sz /\
         pc vm3 = pc vm2 + 1).
Proof.
  unfold execute_new_array. intros H.
  apply bind_Ok in H as (b & Hb & H). apply bind_Ok in H as (sz & Hsz & H).
  unfold alloc_array in H. apply bind_Ok in H as (vm' & Hw & H).
  injection H as <- <-.
  pose proof (code_at_range _ _ _ Hb) as Hbr.
  destruct (nibbles_range b ltac:(lia)) as [Hdst _].
  exists b, sz, (new_DalvikArray (TypeIdx (read_u16 vm (pc vm + 1))) sz).
  split; [exact Hb | split; [exact Hsz |]].
  split; [apply (reg_value_written _ _ _ _ (proj1 Hdst) Hw) |].
  split; [reflexivity | split; [reflexivity | split; [reflexivity |]]].
  intros vm2 b2 Hb2 Harr.
  pose proof (code_at_range _ _ _ Hb2) as Hb2r.
  destruct (nibbles_range b2 ltac:(lia)) as [Hdst2 _].
  unfold execute_array_length. rewrite Hb2.
  change (Ok b2 ≫= ?k) with (k b2). cbv beta zeta. rewrite Harr.
  change (Ok (VArr ?h) ≫= ?k) with (k (VArr h)). cbv beta iota.
  unfold array_at. simpl arrays.
  rewrite lookup_app_r by lia. rewrite Nat.sub_diag. simpl.
  destruct (write_reg_nonneg vm2 (Z.land b2 15) (VInt sz) (proj1 Hdst2))
    as (regs' & Hw2 & Hset).
  rewrite Hw2. simpl. eexists. split; [reflexivity |].
  split; [| reflexivity]. simpl.
  apply (get_int_reg_set_eq _ _ _ _ (proj1 Hdst2) Hset).
Qed.

(** X14.  An element written by [aput] at an index inside the array is
    what [aget] reads back at that index, as an integer, from any
    register holding the same array; at every other index inside the
    array [aget] still reads the old element. *)
Theorem aput_then_aget (vm vm2 : DalvikVM) (w : World) (src dst : Z) (h : nat)
    (arr : DalvikArray) (idx idx2 val : Z) :
  dest_reg F23x vm = Ok src -> get_int (registers vm) src = Ok val ->
  first_value F23x vm = Ok (VArr h) -> second_int F23x vm = Ok idx ->
  arrays w !! h = Some arr -> buffer_covers_size arr -> 0 <= idx < size arr ->
  dest_reg F23x vm2 = Ok dst -> first_value F23x vm2 = Ok (VArr h) ->
  second_int F23x vm2 = Ok idx2 -> 0 <= idx2 < size arr ->
  exists vm1 w1 vm3,
    execute_aput vm w = Ok (vm1, w1) /\
    execute_aget vm2 w1 = Ok (vm3, w1) /\
    reg_value vm3 dst =
      Ok (if decide (idx2 = idx) then VInt val
          else default (VInt 0) (data arr !! Z.to_nat idx2)).
Proof.
  intros Hsrc Hval Harr Hidx Hl Hcov Hin Hdst Harr2 Hidx2 Hin2.
  destruct (aput_run vm w src h arr idx Hsrc Harr Hidx Hl Hcov) as (vm1 & w1 & Hput & Hout).
  unfold access_outcome in Hout. rewrite decide_True in Hout by assumption.
  destruct Hout as (val' & Hval' & ->).
  assert (val' = val) as -> by congruence.
  set (arr1 := with_element arr idx (VInt val)).
  set (w1 := set_arrays w (<[h := arr1]> (arrays w))).
  assert (Hl1 : arrays w1 !! h = Some arr1).
  { simpl. apply list_lookup_insert_eq. eapply lookup_lt_Some. eassumption. }
  assert (Hcov1 : buffer_covers_size arr1).
  { unfold buffer_covers_size, arr1, with_element. simpl. rewrite length_insert.
    exact Hcov. }
  destruct (aget_run vm2 w1 dst h arr1 idx2 Hdst Harr2 Hidx2 Hl1 Hcov1)
    as (vm3 & w3 & Hget & Hout).
  unfold access_outcome in Hout. simpl size in Hout.
  rewrite decide_True in Hout by assumption.
  destruct Hout as (-> & v & Hv & Hreg).
  exists vm1, w1, vm3. split; [exact Hput | split; [exact Hget |]].
  rewrite Hreg. f_equal. unfold arr1, with_element in Hv. simpl in Hv.
  unfold buffer_covers_size in Hcov.
  destruct (decide (idx2 = idx)) as [-> | Hne].
  - rewrite list_lookup_insert_eq in Hv by lia. congruence.
  - rewrite list_lookup_insert_ne in Hv by lia. rewrite Hv. reflexivity.
Qed.

(** A byte inside the code is its own one-byte unsigned reading. *)
Lemma code_at_code_int vm a :
  0 <= a < Z.of_nat (length (bytecode vm)) -> code_at vm a = Ok (code_int vm a 1 false).
Proof.
  intros Ha. destruct (index_in_range (bytecode vm) a Ha) as (b & Hb & Hl).
  unfold code_at. rewrite Hb. simpl. f_equal. unfold code_int.
  destruct (slice_inside (bytecode vm) a 1 ltac:(lia) ltac:(lia) ltac:(lia)) as [-> _].
  rewrite (drop_S _ _ _ Hl). simpl. unfold Py.from_bytes. simpl. lia.
Qed.

(** The payload element [k] of a fill, by element width: unsigned for
    the widths 1 and 2, signed for the width 4. *)
Lemma fill_element_run vm w h arr width data_start i :
  (width = 1 \/ width = 2 \/ width = 4) ->
  arrays w !! h = Some arr -> 0 <= i < Z.of_nat (length (data arr)) ->
  0 <= data_start + i * width < Z.of_nat (length (bytecode vm)) ->
  fill_element vm h width data_start i w =
    Ok (set_arrays w
          (<[h := with_element arr i
                    (VInt (code_int vm (data_start + i * width) width (width =? 4)))]>
             (arrays w))).
Proof.
  intros Hwd Hl Hi Hcode. unfold fill_element.
  destruct Hwd as [-> | [-> | ->]]; simpl Z.eqb; cbv iota.
  - replace (data_start + i * 1) with (data_start + i) in * by lia.
    rewrite (code_at_code_int vm _ Hcode). simpl.
    apply array_store_run; assumption.
  - apply array_store_run; assumption.
  - apply array_store_run; assumption.
Qed.

Lemma fill_loop_run vm h width data_start (n : nat) : forall i w arr,
  (width = 1 \/ width = 2 \/ width = 4) ->
  arrays w !! h = Some arr -> 0 <= i ->
  i + Z.of_nat n <= Z.of_nat (length (data arr)) ->
  0 <= data_start ->
  data_start + (i + Z.of_nat n) * width <= Z.of_nat (length (bytecode vm)) ->
  exists arr',
    fill_loop vm h width data_start n i w = Ok (set_arrays w (<[h := arr']> (arrays w))) /\
    size arr' = size arr /\ type_desc arr' = type_desc arr /\
    length (data arr') = length (data arr) /\
    forall k, 0 <= k ->
      data arr' !! Z.to_nat k =
        if (i <=? k) && (k <? i + Z.of_nat n)
        then Some (VInt (code_int vm (data_start + k * width) width (width =? 4)))
        else data arr !! Z.to_nat k.
Proof.
  induction n as [| n IH]; intros i w arr Hwd Hl Hi Hlen Hds Hcode.
  - exists arr. simpl fill_loop. rewrite list_insert_id by assumption.
    split; [destruct w; reflexivity |].
    split; [reflexivity | split; [reflexivity | split; [reflexivity |]]].
    intros k Hk. destruct (Z.leb_spec i k), (Z.ltb_spec k (i + Z.of_nat 0)); simpl;
      try reflexivity; lia.
  - simpl fill_loop.
    rewrite (fill_element_run vm w h arr width data_start i Hwd Hl) by nia.
    set (arr1 := with_element arr i
                   (VInt (code_int vm (data_start + i * width) width (width =? 4)))).
    set (w1 := set_arrays w (<[h := arr1]> (arrays w))).
    change (Ok w1 ≫= ?k) with (k w1). cbv beta.
    assert (Hl1 : arrays w1 !! h = Some arr1).
    { simpl. apply list_lookup_insert_eq. eapply lookup_lt_Some. eassumption. }
    assert (Hlen1 : length (data arr1) = length (data arr))
      by (unfold arr1, with_element; simpl; apply length_insert).
    destruct (IH (i + 1) w1 arr1 Hwd Hl1 ltac:(lia) ltac:(lia) Hds ltac:(nia))
      as (arr' & Hrun & Hsz & Htd & Hdl & Hdata).
    exists arr'. rewrite Hrun.
    split.
    { unfold w1. simpl. rewrite list_insert_insert_eq. reflexivity. }
    split; [exact Hsz | split; [exact Htd | split; [lia |]]].
    intros k Hk. rewrite (Hdata k Hk).
    unfold arr1, with_element. simpl data.
    destruct (Z.eq_dec k i) as [-> | Hne].
    + destruct (Z.leb_spec (i + 1) i); [lia |]. simpl andb. cbv iota.
      destruct (Z.leb_spec i i); [| lia].
      destruct (Z.ltb_spec i (i + Z.of_nat (S n))); [| lia]. simpl.
      apply list_lookup_insert_eq. lia.
    + rewrite list_lookup_insert_ne by lia.
      destruct (Z.leb_spec (i + 1) k), (Z.ltb_spec k (i + 1 + Z.of_nat n)),
               (Z.leb_spec i k), (Z.ltb_spec k (i + Z.of_nat (S n)));
        simpl; try reflexivity; lia.
Qed.

(** X15.  For a payload of element width 1, 2 or 4 whose header and
    elements lie inside the code, [fill-array-data] replaces the first [min(count, size)]
    elements of the array by the payload elements, read as unsigned
    integers for the widths 1 and 2 and as signed integers for the
    width 4; the later elements, the size of the array and every other
    array stay as they were. *)
Theorem fill_array_data_elements (vm : DalvikVM) (w : World) (reg : Z) (h : nat)
    (arr : DalvikArray) :
  code_at vm (pc vm) = Ok reg ->
  reg_value vm reg = Ok (VArr h) ->
  arrays w !! h = Some arr ->
  buffer_covers_size arr ->
  let payload := switch_payload vm in
  let width := read_u16 vm (payload + 2) in
  let count := code_int vm (payload + 4) 4 false in
  0 <= payload -> payload + 8 <= Z.of_nat (length (bytecode vm)) ->
  read_u16 vm payload = 0x0300 ->
  (width = 1 \/ width = 2 \/ width = 4) ->
  payload + 8 + width * Z.min count (size arr) <= Z.of_nat (length (bytecode vm)) ->
  exists arr',
    execute_fill_array_data vm w =
      Ok (set_pc vm (pc vm + 5), set_arrays w (<[h := arr']> (arrays w))) /\
    size arr' = size arr /\
    length (data arr') = length (data arr) /\
    forall k, 0 <= k ->
      data arr' !! Z.to_nat k =
        if k <? Z.min count (size arr)
        then Some (VInt (code_int vm (payload + 8 + k * width) width (width =? 4)))
        else data arr !! Z.to_nat k.
Proof.
  intros Hreg Harr Hl Hcov payload width count Hpos Hhead Hident Hwd Hlen.
  pose proof (code_int_unsigned_range vm (payload + 4) 4 ltac:(lia)) as Hcount.
  fold count in Hcount.
  assert (Hwpos : 1 <= width) by (destruct Hwd as [-> | [-> | ->]]; lia).
  unfold buffer_covers_size in Hcov.
  assert (Hpa : pc vm - 1 +
                Py.from_bytes (Py.slice (bytecode vm) (pc vm + 1) (pc vm + 5)) true * 2
                = payload).
  { unfold payload, switch_payload, code_int.
    replace (pc vm + 1 + 4) with (pc vm + 5) by lia. reflexivity. }
  assert (Hcnt : Py.from_bytes (Py.slice (bytecode vm) (payload + 4) (payload + 8)) false
                 = count).
  { unfold count, code_int. replace (payload + 4 + 4) with (payload + 8) by lia.
    reflexivity. }
  unfold execute_fill_array_data. rewrite Hreg.
  change (Ok reg ≫= ?k) with (k reg). cbv beta zeta. rewrite Harr.
  change (Ok (VArr h) ≫= ?k) with (k (VArr h)). cbv beta iota.
  rewrite (array_at_lookup _ _ _ Hl).
  change (Ok arr ≫= ?k) with (k arr). cbv beta zeta.
  rewrite Hpa, Hcnt. fold width.
  destruct (Z.ltb_spec (Z.of_nat (length (bytecode vm))) (payload + 8)) as [Hshort | _];
    [lia |].
  rewrite Hident. simpl negb. cbv iota.
  destruct (Z.le_gt_cases 0 (Z.min count (size arr))) as [Hnn | Hneg].
  - destruct (fill_loop_run vm h width (payload + 8) (Z.to_nat (Z.min count (size arr)))
                0 w arr Hwd Hl ltac:(lia) ltac:(lia) ltac:(lia) ltac:(nia))
      as (arr' & Hrun & Hsz & _ & Hdl & Hdata).
    exists arr'. rewrite Hrun. split; [reflexivity |].
    split; [exact Hsz | split; [exact Hdl |]].
    intros k Hk. rewrite (Hdata k Hk).
    rewrite Z2Nat.id by assumption.
    destruct (Z.leb_spec 0 k); [| lia]. reflexivity.
  - exists arr. replace (Z.to_nat (Z.min count (size arr))) with 0%nat by lia.
    simpl fill_loop. rewrite list_insert_id by assumption.
    split; [destruct w; reflexivity |].
    split; [reflexivity | split; [reflexivity |]].
    intros k Hk. destruct (Z.ltb_spec k (Z.min count (size arr))); [lia | reflexivity].
Qed.

End ArrayComposition.

Lemma new_array_then_length_witness :
  exists vm1 w1,
    execute_new_array new_array_vm empty_world = Ok (vm1, w1) /\
    exists b sz arr,
      code_at new_array_vm (pc new_array_vm) = Ok b /\
      get_int (registers new_array_vm) (Z.shiftr b 4) = Ok sz /\
      reg_value vm1 (Z.land b 0xF) = Ok (VArr (length (arrays empty_world))) /\
      arrays w1 = arrays empty_world ++ [arr] /\
      size arr = sz /\ data arr = replicate (Z.to_nat sz) (VInt 0) /\
      (forall vm2 b2,
         code_at vm2 (pc vm2) = Ok b2 ->
         reg_value vm2 (Z.shiftr b2 4) = Ok (VArr (length (arrays empty_world))) ->
         exists vm3,
           execute_array_length vm2 w1 = Ok (vm3, w1) /\
           get_int (registers vm3) (Z.land b2 0xF) = Ok sz /\
           pc vm3 = pc vm2 + 1).
Proof.
  destruct (execute_new_array new_array_vm empty_world) as [[vm1 w1] | e] eqn:Hrun;
    [| vm_compute in Hrun; discriminate Hrun].
  exists vm1, w1. split; [reflexivity |].
  exact (new_array_then_length new_array_vm vm1 empty_world w1 Hrun).
Defined.

Lemma aput_then_aget_witness :
  exists vm1 w1 vm3,
    execute_aput aput_vm heap3 = Ok (vm1, w1) /\
    execute_aget aget_vm w1 = Ok (vm3, w1) /\
    reg_value vm3 3 =
      Ok (if decide (1 = 1) then VInt 42
          else default (VInt 0)
                 (data (mkDalvikArray (TypeIdx 0) 3 [VInt 7; VInt 8; VInt 9]) !! Z.to_nat 1)).
Proof.
  apply (aput_then_aget aput_vm aget_vm heap3 2 3 0
           (mkDalvikArray (TypeIdx 0) 3 [VInt 7; VInt 8; VInt 9]) 1 1 42);
    try reflexivity; try (unfold buffer_covers_size; simpl; lia); simpl; lia.
Defined.

Lemma fill_array_data_elements_witness :
  exists arr',
    execute_fill_array_data fill_vm heap3 =
      Ok (set_pc fill_vm (pc fill_vm + 5), set_arrays heap3 (<[0%nat := arr']> (arrays heap3))) /\
    size arr' = 3 /\
    length (data arr') = 3%nat /\
    forall k, 0 <= k ->
      data arr' !! Z.to_nat k =
        if k <? Z.min (code_int fill_vm (switch_payload fill_vm + 4) 4 false) 3
        then Some (VInt (code_int fill_vm
                           (switch_payload fill_vm + 8 +
                            k * read_u16 fill_vm (switch_payload fill_vm + 2))
                           (read_u16 fill_vm (switch_payload fill_vm + 2))
                           (read_u16 fill_vm (switch_payload fill_vm + 2) =? 4)))
        else [VInt 7; VInt 8; VInt 9] !! Z.to_nat k.
Proof.
  apply (fill_array_data_elements fill_vm heap3 0 0%nat
           (mkDalvikArray (TypeIdx 0) 3 [VInt 7; VInt 8; VInt 9])).
  - reflexivity.
  - reflexivity.
  - reflexivity.
  - unfold buffer_covers_size. simpl. lia.
  - apply Z.leb_le. vm_compute. reflexivity.
  - apply Z.leb_le. vm_compute. reflexivity.
  - reflexivity.
  - right. left. reflexivity.
  - apply Z.leb_le. vm_compute. reflexivity.
Defined.

(* ===================================================================== *)
(** ** ULEB128 and the unified method index *)
(* ===================================================================== *)

Section Uleb128.

Implicit Types (dex_data : list byte).

Lemma index_raises {A} (l : list A) (i : Z) (e : exn) : Py.index l i = Raise e -> e = IndexError.
Proof.
  unfold Py.index.
  destruct (0 <=? i); [| destruct (- Z.of_nat (length l) <=? i)].
  - destruct (l !! Z.to_nat i); simpl; congruence.
  - destruct (l !! _); simpl; congruence.
  - congruence.
Qed.

Lemma index_beyond {A} (l : list A) (i : Z) :
  Z.of_nat (length l) <= i -> Py.index l i = Raise IndexError.
Proof.
  intros Hi. rewrite index_nonneg by lia.
  rewrite lookup_ge_None_2 by lia. reflexivity.
Qed.

Lemma byte_top_bit (b : byte) :
  (Z.land (byte_val b) 0x80 =? 0) = (byte_val b <? 128).
Proof. destruct b; reflexivity. Qed.

Lemma lor_shiftl_add a x s :
  0 <= s -> 0 <= a < 2 ^ s -> Z.lor a (Z.shiftl x s) = a + x * 2 ^ s.
Proof.
  intros Hs Ha. rewrite <- Z.shiftl_mul_pow2 by assumption.
  assert (Hdisj : Z.land a (Z.shiftl x s) = 0).
  { apply Z.bits_inj'. intros n Hn. rewrite Z.land_spec, Z.bits_0.
    destruct (Z.lt_ge_cases n s) as [Hlt | Hge].
    - rewrite (Z.shiftl_spec_low x s n Hlt). apply andb_false_r.
    - rewrite <- (Z.mod_small a (2 ^ s)) by assumption.
      rewrite Z.mod_pow2_bits_high by lia. reflexivity. }
  rewrite <- (Z.lxor_lor _ _ Hdisj). symmetry. apply Z.add_nocarry_lxor. exact Hdisj.
Qed.

Lemma pow128 count : 0 <= count -> 2 ^ (7 * count) = 128 ^ count.
Proof. intros Hc. rewrite Z.pow_mul_r by lia. reflexivity. Qed.

Lemma base128_range (bs : list byte) : 0 <= base128 bs < 128 ^ Z.of_nat (length bs).
Proof.
  induction bs as [| b bs IH]; simpl base128.
  - simpl. lia.
  - rewrite length_cons, Nat2Z.inj_succ, Z.pow_succ_r by lia.
    pose proof (Z.mod_pos_bound (byte_val b) 128 ltac:(lia)). lia.
Qed.

(** The loop, from [count] bytes already read. *)
Lemma uleb128_loop_value dex_data offset fuel : forall result count r c,
  0 <= offset -> 0 <= count -> 0 <= result < 128 ^ count ->
  uleb128_loop dex_data offset fuel result (7 * count) count = Ok (r, c) ->
  count < c /\ offset + c <= Z.of_nat (length dex_data) /\
  r = result + 128 ^ count *
        base128 (take (Z.to_nat (c - count)) (drop (Z.to_nat (offset + count)) dex_data)) /\
  (forall k, count <= k < c ->
     exists b, dex_data !! Z.to_nat (offset + k) = Some b /\
               (byte_val b < 128 <-> k = c - 1)).
Proof.
  induction fuel as [| fuel IH]; intros result count r c Ho Hc Hres Hrun;
    [discriminate Hrun |].
  simpl uleb128_loop in Hrun.
  apply bind_Ok in Hrun as (b & Hb & Hrun).
  rewrite index_nonneg in Hb by lia.
  destruct (dex_data !! Z.to_nat (offset + count)) as [b' |] eqn:Hl; [| discriminate Hb].
  injection Hb as ->.
  pose proof (lookup_lt_Some _ _ _ Hl) as Hlen.
  pose proof (byte_val_range b) as Hbr.
  change 127 with (2 ^ 7 - 1) in Hrun. rewrite land_ones_mod in Hrun by lia.
  change (2 ^ 7) with 128 in Hrun.
  rewrite lor_shiftl_add in Hrun by (rewrite ?pow128; lia).
  rewrite pow128 in Hrun by assumption.
  rewrite byte_top_bit in Hrun.
  pose proof (Z.mod_pos_bound (byte_val b) 128 ltac:(lia)) as Hm.
  rewrite (drop_S _ _ _ Hl).
  destruct (Z.ltb_spec (byte_val b) 128) as [Hlast | Hmore].
  - injection Hrun as <- <-.
    split; [lia |]. split; [lia |]. split.
    + replace (Z.to_nat (count + 1 - count)) with 1%nat by lia.
      simpl. lia.
    + intros k Hk. assert (k = count) as -> by lia.
      exists b. split; [exact Hl |]. split; intros _; lia.
  - replace (7 * count + 7) with (7 * (count + 1)) in Hrun by lia.
    apply IH in Hrun; try lia.
    2:{ rewrite Z.pow_add_r by lia. change (128 ^ 1) with 128. nia. }
    destruct Hrun as (Hcount & Hend & Hr & Hbytes).
    split; [lia |]. split; [exact Hend |]. split.
    + rewrite Hr.
      replace (Z.to_nat (c - count)) with (S (Z.to_nat (c - (count + 1)))) by lia.
      replace (Z.to_nat (offset + (count + 1))) with (S (Z.to_nat (offset + count))) by lia.
      simpl take. simpl base128.
      rewrite Z.pow_add_r by lia. change (128 ^ 1) with 128. ring.
    + intros k Hk. destruct (Z.eq_dec k count) as [-> | Hne].
      * exists b. split; [exact Hl |]. split; intros; lia.
      * apply Hbytes. lia.
Qed.

(** X16.  A ULEB128 read at a non-negative offset consumes the bytes
    up to and including the first one below 128, all of them inside the
    data, and returns, with their number, the little-endian base-128
    value of their low seven bits, which is below 128 to the power of
    that number. *)
Theorem read_uleb128_value (dex_data : list byte) (offset r c : Z) :
  0 <= offset ->
  _read_uleb128 dex_data offset = Ok (r, c) ->
  1 <= c /\ offset + c <= Z.of_nat (length dex_data) /\
  r = base128 (take (Z.to_nat c) (drop (Z.to_nat offset) dex_data)) /\
  0 <= r < 128 ^ c /\
  (forall k, 0 <= k < c ->
     exists b, dex_data !! Z.to_nat (offset + k) = Some b /\
               (byte_val b < 128 <-> k = c - 1)).
Proof.
  intros Ho Hrun. unfold _read_uleb128 in Hrun. cbv zeta in Hrun.
  change 0 with (7 * 0) in Hrun at 3.
  apply uleb128_loop_value in Hrun; try lia.
  destruct Hrun as (Hc & Hend & Hr & Hbytes).
  rewrite Z.add_0_r, Z.sub_0_r in Hr. simpl in Hr.
  assert (Hval : r = base128 (take (Z.to_nat c) (drop (Z.to_nat offset) dex_data))).
  { rewrite Hr. destruct (base128 _); reflexivity. }
  split; [lia |]. split; [exact Hend |]. split; [exact Hval |]. split.
  - rewrite Hval.
    pose proof (base128_range (take (Z.to_nat c) (drop (Z.to_nat offset) dex_data))) as Hb.
    rewrite length_take, length_drop in Hb.
    replace (Z.of_nat (Z.to_nat c `min` (length dex_data - Z.to_nat offset))) with c in Hb
      by lia.
    exact Hb.
  - exact Hbytes.
Qed.

Lemma uleb128_loop_ends dex_data offset fuel : forall result shift count,
  Z.of_nat (length dex_data) <= offset + count + Z.of_nat fuel ->
  match uleb128_loop dex_data offset (S fuel) result shift count with
  | Ok _ => True
  | Raise e => e = IndexError
  end.
Proof.
  induction fuel as [| fuel IH]; intros result shift count Hfuel.
  - simpl uleb128_loop. rewrite index_beyond by lia. reflexivity.
  - change (uleb128_loop dex_data offset (S (S fuel)) result shift count) with
      (b ← Py.index dex_data (offset + count);
       let byte := byte_val b in
       let result := Z.lor result (Z.shiftl (Z.land byte 0x7f) shift) in
       let count := count + 1 in
       if Z.land byte 0x80 =? 0 then Ok (result, count)
       else uleb128_loop dex_data offset (S fuel) result (shift + 7) count).
    destruct (Py.index dex_data (offset + count)) as [b | e] eqn:Hb.
    + change (Ok b ≫= ?k) with (k b). cbv beta zeta.
      destruct (Z.land (byte_val b) 128 =? 0); [exact I |].
      apply IH. lia.
    + apply (index_raises _ _ _ Hb).
Qed.

(** X17.  A ULEB128 read always ends: it returns a value, or it
    raises [IndexError] because the data ended (or the offset lay outside
    it) before a byte below 128 was found. *)
Theorem read_uleb128_ends (dex_data : list byte) (offset : Z) :
  match _read_uleb128 dex_data offset with
  | Ok _ => True
  | Raise e => e = IndexError
  end.
Proof.
  unfold _read_uleb128. cbv zeta. apply uleb128_loop_ends. lia.
Qed.

End Uleb128.

Section UnifiedIndex.

Implicit Types (dexes rest : list SingleDexData) (p : DexParser).

Lemma method_count_nil : method_count [] = 0.
Proof. reflexivity. Qed.

Lemma method_count_cons dex rest :
  method_count (dex :: rest) = Z.of_nat (length (dex_methods dex)) + method_count rest.
Proof. unfold method_count. simpl. rewrite length_app. lia. Qed.

Lemma method_count_nonneg dexes : 0 <= method_count dexes.
Proof. unfold method_count. lia. Qed.

Lemma method_count_take_le dexes : forall k,
  method_count (take k dexes) <= method_count dexes.
Proof.
  induction dexes as [| d dexes IH]; intros [| k]; simpl take;
    rewrite ?method_count_nil, ?method_count_cons; try lia.
  - pose proof (method_count_nonneg dexes). lia.
  - specialize (IH k). lia.
Qed.

Lemma method_count_take_S dexes : forall k dex,
  dexes !! k = Some dex ->
  method_count (take (S k) dexes) =
    method_count (take k dexes) + Z.of_nat (length (dex_methods dex)).
Proof.
  induction dexes as [| d dexes IH]; intros [| k] dex Hl; try discriminate Hl.
  - injection Hl as ->. simpl take. rewrite method_count_cons.
    destruct dexes; simpl take; rewrite method_count_nil; lia.
  - simpl in Hl. change (take (S (S k)) (d :: dexes)) with (d :: take (S k) dexes).
    change (take (S k) (d :: dexes)) with (d :: take k dexes).
    rewrite !method_count_cons, (IH k dex Hl). lia.
Qed.

Lemma index_methods_lookup dex_idx global_offset (n : nat) (m : gmap Z (Z * Z)) g :
  index_methods dex_idx global_offset n m !! g =
    if (global_offset <=? g) && (g <? global_offset + Z.of_nat n)
    then Some (dex_idx, g - global_offset)
    else m !! g.
Proof.
  unfold index_methods. induction n as [| n IH].
  - simpl. destruct (Z.leb_spec global_offset g), (Z.ltb_spec g (global_offset + Z.of_nat 0));
      simpl; try reflexivity; lia.
  - rewrite seqZ_S, foldl_snoc, lookup_insert, IH.
    destruct (decide (global_offset + (0 + Z.of_nat n) = g)) as [<- | Hne].
    + destruct (Z.leb_spec global_offset (global_offset + (0 + Z.of_nat n))); [| lia].
      destruct (Z.ltb_spec (global_offset + (0 + Z.of_nat n))
                  (global_offset + Z.of_nat (S n))); [| lia].
      simpl. do 2 f_equal. lia.
    + destruct (Z.leb_spec global_offset g), (Z.ltb_spec g (global_offset + Z.of_nat n)),
               (Z.ltb_spec g (global_offset + Z.of_nat (S n))); simpl; try reflexivity; lia.
Qed.

(** What the loop of [_build_unified_index] adds to the parser. *)
Lemma build_index_loop_spec rest : forall dex_idx global_offset p,
  let b := build_index_loop rest dex_idx global_offset p in
  dex_files b = dex_files p /\
  all_methods b = all_methods p ++ concat (map dex_methods rest) /\
  length (_dex_method_offsets b) = (length (_dex_method_offsets p) + length rest)%nat /\
  (forall k, (k < length (_dex_method_offsets p))%nat ->
     _dex_method_offsets b !! k = _dex_method_offsets p !! k) /\
  (forall k dex, rest !! k = Some dex ->
     _dex_method_offsets b !! (length (_dex_method_offsets p) + k)%nat =
       Some (global_offset + method_count (take k rest))) /\
  (forall g,
     _method_index_map b !! g =
       match locate rest (g - global_offset) with
       | Some (k, l) => Some (dex_idx + Z.of_nat k, l)
       | None => _method_index_map p !! g
       end).
Proof.
  induction rest as [| dex rest IH]; intros dex_idx global_offset p; cbv zeta.
  - simpl build_index_loop. split; [reflexivity |].
    split; [simpl; rewrite app_nil_r; reflexivity |].
    split; [simpl; lia |]. split; [reflexivity |].
    split; [intros k d Hk; discriminate Hk | reflexivity].
  - simpl build_index_loop.
    match goal with |- context [build_index_loop rest ?i ?o ?q] =>
      destruct (IH i o q) as (Hfiles & Hall & Hlen & Hold & Hoffs & Hmap) end.
    simpl in Hfiles, Hall, Hlen, Hold, Hoffs, Hmap.
    rewrite length_app in Hlen, Hold, Hoffs. simpl length in Hlen, Hold, Hoffs.
    split; [exact Hfiles |].
    split; [rewrite Hall; simpl; rewrite <- app_assoc; reflexivity |].
    split; [simpl length; lia |].
    split.
    { intros k Hk. rewrite Hold by lia. apply lookup_app_l. exact Hk. }
    split.
    { intros [| k] d Hk.
      - rewrite Nat.add_0_r. rewrite Hold by lia.
        rewrite lookup_app_r by lia. rewrite Nat.sub_diag. simpl.
        rewrite method_count_nil. f_equal. lia.
      - simpl in Hk. replace (length (_dex_method_offsets p) + S k)%nat
          with (length (_dex_method_offsets p) + 1 + k)%nat by lia.
        rewrite (Hoffs k d Hk). f_equal.
        change (take (S k) (dex :: rest)) with (dex :: take k rest).
        rewrite method_count_cons. lia. }
    intros g. rewrite Hmap. simpl locate.
    replace (g - (global_offset + Z.of_nat (length (dex_methods dex))))
      with (g - global_offset - Z.of_nat (length (dex_methods dex))) by lia.
    destruct (g - global_offset <? Z.of_nat (length (dex_methods dex))) eqn:Hlt.
    + apply Z.ltb_lt in Hlt.
      assert (Hnone : locate rest (g - global_offset - Z.of_nat (length (dex_methods dex)))
                      = None).
      { clear -Hlt. destruct rest as [| d r]; [reflexivity |]. simpl.
        destruct (Z.ltb_spec (g - global_offset - Z.of_nat (length (dex_methods dex)))
                    (Z.of_nat (length (dex_methods d)))); [| lia].
        destruct (Z.leb_spec 0 (g - global_offset - Z.of_nat (length (dex_methods dex))));
          [lia | reflexivity]. }
      rewrite Hnone, index_methods_lookup.
      destruct (Z.leb_spec 0 (g - global_offset)).
      * destruct (Z.leb_spec global_offset g); [| lia].
        destruct (Z.ltb_spec g (global_offset + Z.of_nat (length (dex_methods dex))));
          [| lia].
        simpl. do 2 f_equal. lia.
      * destruct (Z.leb_spec global_offset g); [lia |]. reflexivity.
    + apply Z.ltb_ge in Hlt.
      destruct (locate rest _) as [[k l] |].
      * do 2 f_equal. lia.
      * rewrite index_methods_lookup.
        destruct (Z.leb_spec global_offset g),
                 (Z.ltb_spec g (global_offset + Z.of_nat (length (dex_methods dex))));
          simpl; try reflexivity; lia.
Qed.

Lemma locate_Some dexes : forall n k l,
  locate dexes n = Some (k, l) ->
  exists dex,
    dexes !! k = Some dex /\ 0 <= l < Z.of_nat (length (dex_methods dex)) /\
    n = method_count (take k dexes) + l /\
    concat (map dex_methods dexes) !! Z.to_nat n = dex_methods dex !! Z.to_nat l.
Proof.
  induction dexes as [| d dexes IH]; intros n k l Hloc; [discriminate Hloc |].
  simpl in Hloc.
  destruct (Z.ltb_spec n (Z.of_nat (length (dex_methods d)))) as [Hlt | Hge].
  - destruct (Z.leb_spec 0 n); [| discriminate Hloc]. injection Hloc as <- <-.
    exists d. split; [reflexivity |]. split; [lia |].
    split; [simpl; rewrite method_count_nil; lia |].
    simpl. apply lookup_app_l. lia.
  - destruct (locate dexes (n - Z.of_nat (length (dex_methods d)))) as [[k' l'] |] eqn:Hrec;
      [| discriminate Hloc].
    injection Hloc as <- <-.
    destruct (IH _ _ _ Hrec) as (dex & Hk & Hl & Hn & Hconcat).
    exists dex. split; [exact Hk |]. split; [exact Hl |].
    split.
    + change (take (S k') (d :: dexes)) with (d :: take k' dexes).
      rewrite method_count_cons. lia.
    + simpl. rewrite lookup_app_r by lia. rewrite <- Hconcat. f_equal. lia.
Qed.

Lemma locate_in_range dexes : forall n,
  0 <= n < method_count dexes -> exists k l, locate dexes n = Some (k, l).
Proof.
  induction dexes as [| d dexes IH]; intros n Hn.
  - rewrite method_count_nil in Hn. lia.
  - rewrite method_count_cons in Hn. simpl.
    destruct (Z.ltb_spec n (Z.of_nat (length (dex_methods d)))) as [Hlt | Hge].
    + destruct (Z.leb_spec 0 n); [| lia]. eauto.
    + destruct (IH (n - Z.of_nat (length (dex_methods d))) ltac:(lia)) as (k & l & ->).
      eauto.
Qed.

Lemma locate_outside dexes : forall n,
  n < 0 \/ method_count dexes <= n -> locate dexes n = None.
Proof.
  induction dexes as [| d dexes IH]; intros n Hn; [reflexivity |].
  rewrite method_count_cons in Hn. simpl.
  destruct (Z.ltb_spec n (Z.of_nat (length (dex_methods d)))) as [Hlt | Hge].
  - destruct (Z.leb_spec 0 n); [| reflexivity].
    pose proof (method_count_nonneg dexes). lia.
  - rewrite IH; [reflexivity |]. right. destruct Hn; lia.
Qed.

Lemma resolve_fallback_beyond p g : forall offs (i : nat),
  (forall j off, offs !! j = Some off ->
     exists dex, dex_files p !! (i + j)%nat = Some dex /\
                 off + Z.of_nat (length (dex_methods dex)) <= g) ->
  resolve_fallback p g offs (Z.of_nat i) = Raise ValueError.
Proof.
  induction offs as [| off offs IH]; intros i Hall; [reflexivity |].
  simpl resolve_fallback.
  destruct (Hall O off eq_refl) as (dex & Hdex & Hle).
  rewrite Nat.add_0_r in Hdex.
  rewrite index_nonneg by lia. rewrite Nat2Z.id, Hdex. simpl.
  destruct (Z.ltb_spec g (off + Z.of_nat (length (dex_methods dex)))); [lia |].
  replace (Z.of_nat i + 1) with (Z.of_nat (S i)) by lia.
  apply IH. intros j off' Hj.
  destruct (Hall (S j) off' Hj) as (dex' & Hdex' & Hle').
  exists dex'. split; [| exact Hle'].
  replace (S i + j)%nat with (i + S j)%nat by lia. exact Hdex'.
Qed.

(** X18.  After [_build_unified_index], a unified method index inside
    the tables resolves to the DEX file and the local index that hold
    the method: the file's offset plus the local index is the unified
    index, the unified method table has the same method at the unified
    index, and [get_method_name] names that method.  An index at or past
    the number of methods is refused with [ValueError] and named
    [method_N].  A negative index is not refused when there is a DEX
    file: it resolves to the first file with the negative number as
    local index. *)
Theorem unified_index_resolves (dexes : list SingleDexData) (g : Z) :
  let p := _build_unified_index (parsed dexes) in
  (0 <= g < method_count dexes ->
   exists k dex l m,
     dexes !! k = Some dex /\
     0 <= l /\ dex_methods dex !! Z.to_nat l = Some m /\
     _dex_method_offsets p !! k = Some (g - l) /\
     _resolve_method_idx p g = Ok (dex, l) /\
     all_methods p !! Z.to_nat g = Some m /\
     method_name_of p g = Ok (m_class m +:+ "->" +:+ m_name m)) /\
  (method_count dexes <= g ->
   _resolve_method_idx p g = Raise ValueError /\
   method_name_of p g = Ok ("method_" +:+ PyStr.str_of_int g)) /\
  (g < 0 ->
   _resolve_method_idx p g =
     match dexes with
     | [] => Raise ValueError
     | dex :: _ => Ok (dex, g)
     end).
Proof.
  intros p.
  destruct (build_index_loop_spec dexes 0 0 (parsed dexes))
    as (Hfiles & Hall & Hlen & _ & Hoffs & Hmap).
  change (build_index_loop dexes 0 0 (parsed dexes)) with p
    in Hfiles, Hall, Hlen, Hoffs, Hmap.
  simpl in Hfiles, Hall, Hlen, Hoffs.
  assert (Hmap' : forall g, _method_index_map p !! g =
                    match locate dexes g with
                    | Some (k, l) => Some (Z.of_nat k, l)
                    | None => None
                    end).
  { intros g'. rewrite Hmap, Z.sub_0_r. destruct (locate dexes g') as [[k l] |];
      [reflexivity | apply lookup_empty]. }
  assert (Hcount : Z.of_nat (length (all_methods p)) = method_count dexes)
    by (rewrite Hall; reflexivity).
  split; [| split].
  - intros Hg. destruct (locate_in_range dexes g Hg) as (k & l & Hloc).
    destruct (locate_Some _ _ _ _ Hloc) as (dex & Hk & Hl & Hn & Hconcat).
    destruct (lookup_lt_is_Some_2 (dex_methods dex) (Z.to_nat l) ltac:(lia)) as [m Hm].
    exists k, dex, l, m.
    split; [exact Hk |]. split; [lia |]. split; [exact Hm |].
    split; [rewrite (Hoffs k dex Hk); f_equal; lia |].
    assert (Hgm : all_methods p !! Z.to_nat g = Some m)
      by (rewrite Hall, Hconcat; exact Hm).
    split; [| split; [exact Hgm |]].
    + unfold _resolve_method_idx. rewrite Hmap', Hloc.
      rewrite index_nonneg by lia. rewrite Nat2Z.id, Hfiles, Hk. reflexivity.
    + unfold method_name_of.
      destruct (Z.leb_spec (Z.of_nat (length (all_methods p))) g); [lia |].
      rewrite index_nonneg by lia. rewrite Hgm. reflexivity.
  - intros Hg. split.
    + unfold _resolve_method_idx. rewrite Hmap', locate_outside by (right; exact Hg).
      apply (resolve_fallback_beyond p g _ O).
      intros j off Hj.
      assert (Hjlt : (j < length dexes)%nat).
      { apply lookup_lt_Some in Hj. lia. }
      destruct (lookup_lt_is_Some_2 dexes j Hjlt) as [dex Hdex].
      exists dex. rewrite Hfiles. split; [exact Hdex |].
      rewrite (Hoffs j dex Hdex) in Hj. injection Hj as <-.
      pose proof (method_count_take_S dexes j dex Hdex) as HS.
      pose proof (method_count_take_le dexes (S j)). lia.
    + unfold method_name_of.
      destruct (Z.leb_spec (Z.of_nat (length (all_methods p))) g); [reflexivity | lia].
  - intros Hg. unfold _resolve_method_idx.
    rewrite Hmap', locate_outside by (left; exact Hg).
    destruct dexes as [| dex rest].
    + reflexivity.
    + pose proof (Hoffs O dex eq_refl) as Hoff0. simpl in Hoff0.
      rewrite method_count_nil in Hoff0.
      destruct (_dex_method_offsets p) as [| off offs]; [discriminate Hoff0 |].
      injection Hoff0 as ->. simpl resolve_fallback.
      rewrite index_nonneg by lia. rewrite Hfiles. simpl.
      destruct (Z.ltb_spec g (0 + 0 + Z.of_nat (length (dex_methods dex)))); [| lia].
      do 2 f_equal. lia.
Qed.

End UnifiedIndex.

Lemma read_uleb128_value_witness :
  _read_uleb128 (bytes_of [0xE5; 0x8E; 0x26]) 0 = Ok (624485, 3) /\
  1 <= 3 /\ 0 + 3 <= Z.of_nat (length (bytes_of [0xE5; 0x8E; 0x26])) /\
  624485 = base128 (take (Z.to_nat 3) (drop (Z.to_nat 0) (bytes_of [0xE5; 0x8E; 0x26]))) /\
  0 <= 624485 < 128 ^ 3 /\
  (forall k, 0 <= k < 3 ->
     exists b, bytes_of [0xE5; 0x8E; 0x26] !! Z.to_nat (0 + k) = Some b /\
               (byte_val b < 128 <-> k = 3 - 1)).
Proof.
  assert (_read_uleb128 (bytes_of [0xE5; 0x8E; 0x26]) 0 = Ok (624485, 3)) as Hrun
    by reflexivity.
  split; [exact Hrun |].
  apply (read_uleb128_value (bytes_of [0xE5; 0x8E; 0x26]) 0 624485 3); [lia | exact Hrun].
Defined.

Lemma unified_index_resolves_witness :
  exists k dex l m,
    example_dexes !! k = Some dex /\
    0 <= l /\ dex_methods dex !! Z.to_nat l = Some m /\
    _dex_method_offsets (_build_unified_index (parsed example_dexes)) !! k = Some (2 - l) /\
    _resolve_method_idx (_build_unified_index (parsed example_dexes)) 2 = Ok (dex, l) /\
    all_methods (_build_unified_index (parsed example_dexes)) !! Z.to_nat 2 = Some m /\
    method_name_of (_build_unified_index (parsed example_dexes)) 2
      = Ok (m_class m +:+ "->" +:+ m_name m).
Proof.
  apply (proj1 (unified_index_resolves example_dexes 2)).
  split; [lia | apply Z.ltb_lt; vm_compute; reflexivity].
Defined.

(* ===================================================================== *)
(** ** The MUTF-8 decoder on arbitrary bytes *)
(* ===================================================================== *)

Section DecodeRobust.

Implicit Types (data rest : list byte).

Lemma chr_in_range code : 0 <= code < 0x110000 -> chr code = Ok code.
Proof.
  intros Hc. unfold chr.
  destruct (Z.leb_spec 0 code); [| lia]. destruct (Z.ltb_spec code 0x110000); [| lia].
  reflexivity.
Qed.

Lemma chr_result code : chr code = Ok code /\ 0 <= code < 0x110000 \/ chr code = Raise ValueError.
Proof.
  unfold chr. destruct (Z.leb_spec 0 code), (Z.ltb_spec code 0x110000); simpl; auto.
Qed.

Lemma lor_below a b n :
  0 < n -> 0 <= a < 2 ^ n -> 0 <= b < 2 ^ n -> 0 <= Z.lor a b < 2 ^ n.
Proof.
  intros Hn Ha Hb.
  assert (Hnn : 0 <= Z.lor a b) by (apply Z.lor_nonneg; lia).
  split; [exact Hnn |].
  destruct (Z.eq_dec (Z.lor a b) 0) as [-> | Hne]; [apply Z.pow_pos_nonneg; lia |].
  apply Z.log2_lt_pow2; [lia |].
  rewrite Z.log2_lor by lia.
  assert (Hlog : forall x, 0 <= x < 2 ^ n -> Z.log2 x < n).
  { intros x Hx. destruct (Z.eq_dec x 0) as [-> | Hx0]; [simpl; lia |].
    apply Z.log2_lt_pow2; lia. }
  pose proof (Hlog a Ha). pose proof (Hlog b Hb). lia.
Qed.

Lemma shiftl_below x k s :
  0 <= k -> 0 <= s -> 0 <= x < 2 ^ k -> 0 <= Z.shiftl x s < 2 ^ (k + s).
Proof.
  intros Hk Hs Hx. rewrite Z.shiftl_mul_pow2, Z.pow_add_r by lia.
  assert (0 < 2 ^ s) by (apply Z.pow_pos_nonneg; lia). nia.
Qed.

Lemma below_mono x k n : k <= n -> 0 <= x < 2 ^ k -> 0 <= x < 2 ^ n.
Proof.
  intros Hkn Hx. assert (2 ^ k <= 2 ^ n) by (apply Z.pow_le_mono_r; lia). lia.
Qed.

Lemma two_byte_code b1 b2 :
  0 <= Z.lor (Z.shiftl (Z.land b1 0x1F) 6) (Z.land b2 0x3F) < 0x110000.
Proof.
  pose proof (land_ones_range b1 5 ltac:(lia)) as H1.
  pose proof (land_ones_range b2 6 ltac:(lia)) as H2.
  change (2 ^ 5 - 1) with 0x1F in H1. change (2 ^ 6 - 1) with 0x3F in H2.
  pose proof (lor_below _ _ 11 ltac:(lia)
                (shiftl_below _ 5 6 ltac:(lia) ltac:(lia) H1)
                (below_mono _ 6 11 ltac:(lia) H2)) as H.
  change (2 ^ 11) with 2048 in H. lia.
Qed.

Lemma three_byte_code b1 b2 b3 :
  0 <= Z.lor (Z.lor (Z.shiftl (Z.land b1 0x0F) 12) (Z.shiftl (Z.land b2 0x3F) 6))
             (Z.land b3 0x3F) < 0x110000.
Proof.
  pose proof (land_ones_range b1 4 ltac:(lia)) as H1.
  pose proof (land_ones_range b2 6 ltac:(lia)) as H2.
  pose proof (land_ones_range b3 6 ltac:(lia)) as H3.
  change (2 ^ 4 - 1) with 0x0F in H1. change (2 ^ 6 - 1) with 0x3F in H2, H3.
  pose proof (lor_below _ _ 16 ltac:(lia)
                (lor_below _ _ 16 ltac:(lia)
                   (shiftl_below _ 4 12 ltac:(lia) ltac:(lia) H1)
                   (below_mono _ 12 16 ltac:(lia)
                      (shiftl_below _ 6 6 ltac:(lia) ltac:(lia) H2)))
                (below_mono _ 6 16 ltac:(lia) H3)) as H.
  change (2 ^ 16) with 65536 in H. lia.
Qed.

Lemma decode_outcome_cons data (c : Z) (skipped : list byte) rest :
  data = skipped ++ rest -> (1 <= length skipped)%nat -> is_code_point c ->
  decode_outcome rest (_decode_mutf8 rest) ->
  decode_outcome data (r ← _decode_mutf8 rest; Ok (c :: r)).
Proof.
  intros -> Hskip Hc Hrest. unfold decode_outcome in *.
  destruct (_decode_mutf8 rest) as [s | e]; simpl.
  - destruct Hrest as [Hlen Hall]. split.
    + rewrite length_app. lia.
    + constructor; assumption.
  - destruct Hrest as (-> & b & Hb & Hhigh). split; [reflexivity |].
    exists b. split; [| exact Hhigh]. apply elem_of_app. right. exact Hb.
Qed.

Lemma decode_outcome_chr data code (skipped : list byte) rest b1 :
  data = skipped ++ rest -> (1 <= length skipped)%nat ->
  b1 ∈ data -> (chr code = Raise ValueError -> 0xF0 <= byte_val b1) ->
  decode_outcome rest (_decode_mutf8 rest) ->
  decode_outcome data (c ← chr code; r ← _decode_mutf8 rest; Ok (c :: r)).
Proof.
  intros Hdata Hskip Hb1 Hhigh Hrest.
  destruct (chr_result code) as [[Hc Hrange] | Hc]; rewrite Hc.
  - apply (decode_outcome_cons data code skipped rest Hdata Hskip Hrange Hrest).
  - split; [reflexivity |]. exists b1. split; [exact Hb1 | exact (Hhigh Hc)].
Qed.

Lemma decode_cons b1 rest :
  _decode_mutf8 (b1 :: rest) =
    (let b1' := byte_val b1 in
     let raw := (c ← chr b1'; r ← _decode_mutf8 rest; Ok (c :: r)) in
     if b1' =? 0 then Ok []
     else if b1' <? 0x80 then raw
     else if b1' <? 0xC0 then raw
     else if b1' <? 0xE0 then
       match rest with
       | b2 :: rest2 =>
           let b2 := byte_val b2 in
           c ← (if (b1' =? 0xC0) && (b2 =? 0x80) then Ok 0
                else chr (Z.lor (Z.shiftl (Z.land b1' 0x1F) 6) (Z.land b2 0x3F)));
           r ← _decode_mutf8 rest2;
           Ok (c :: r)
       | [] => raw
       end
     else if b1' <? 0xF0 then
       match rest with
       | b2 :: b3 :: rest3 =>
           let b2 := byte_val b2 in
           let b3 := byte_val b3 in
           c ← chr (Z.lor (Z.lor (Z.shiftl (Z.land b1' 0x0F) 12)
                                 (Z.shiftl (Z.land b2 0x3F) 6))
                          (Z.land b3 0x3F));
           r ← _decode_mutf8 rest3;
           Ok (c :: r)
       | _ => raw
       end
     else
       match rest with
       | b2 :: b3 :: b4 :: rest4 =>
           let b2 := byte_val b2 in
           let b3 := byte_val b3 in
           let b4 := byte_val b4 in
           c ← chr (Z.lor (Z.lor (Z.lor (Z.shiftl (Z.land b1' 0x07) 18)
                                        (Z.shiftl (Z.land b2 0x3F) 12))
                                 (Z.shiftl (Z.land b3 0x3F) 6))
                          (Z.land b4 0x3F));
           r ← _decode_mutf8 rest4;
           Ok (c :: r)
       | _ => raw
       end).
Proof. destruct rest as [| b2 [| b3 [| b4 rest4]]]; reflexivity. Qed.

Lemma decode_outcome_bounded (n : nat) : forall data,
  (length data <= n)%nat -> decode_outcome data (_decode_mutf8 data).
Proof.
  induction n as [| n IH]; intros data Hlen.
  - destruct data; [| simpl in Hlen; lia]. simpl. split; [lia | constructor].
  - destruct data as [| b1 rest]; [simpl; split; [lia | constructor] |].
    simpl in Hlen. rewrite decode_cons. cbv zeta.
    pose proof (byte_val_range b1) as Hb1.
    assert (Hin1 : b1 ∈ b1 :: rest) by (apply elem_of_cons; left; reflexivity).
    assert (Hraw : decode_outcome (b1 :: rest)
                     (c ← chr (byte_val b1); r ← _decode_mutf8 rest; Ok (c :: r))).
    { apply (decode_outcome_chr (b1 :: rest) _ [b1] rest b1 eq_refl).
      - simpl. lia.
      - exact Hin1.
      - intros Hc. rewrite chr_in_range in Hc by lia. discriminate Hc.
      - apply IH. lia. }
    destruct (byte_val b1 =? 0); [simpl; split; [lia | constructor] |].
    destruct (byte_val b1 <? 0x80); [exact Hraw |].
    destruct (byte_val b1 <? 0xC0); [exact Hraw |].
    destruct (byte_val b1 <? 0xE0).
    { destruct rest as [| b2 rest2]; [exact Hraw |].
      destruct ((byte_val b1 =? 0xC0) && (byte_val b2 =? 0x80)).
      - apply (decode_outcome_cons (b1 :: b2 :: rest2) 0 [b1; b2] rest2 eq_refl).
        + simpl. lia.
        + unfold is_code_point. lia.
        + apply IH. simpl in Hlen. lia.
      - apply (decode_outcome_chr (b1 :: b2 :: rest2) _ [b1; b2] rest2 b1 eq_refl).
        + simpl. lia.
        + exact Hin1.
        + intros Hc. rewrite chr_in_range in Hc by apply two_byte_code. discriminate Hc.
        + apply IH. simpl in Hlen. lia. }
    destruct (Z.ltb_spec (byte_val b1) 0xF0) as [_ | Hhigh].
    { destruct rest as [| b2 [| b3 rest3]]; try exact Hraw.
      apply (decode_outcome_chr (b1 :: b2 :: b3 :: rest3) _ [b1; b2; b3] rest3 b1 eq_refl).
      - simpl. lia.
      - exact Hin1.
      - intros Hc. rewrite chr_in_range in Hc by apply three_byte_code. discriminate Hc.
      - apply IH. simpl in Hlen. lia. }
    destruct rest as [| b2 [| b3 [| b4 rest4]]]; try exact Hraw.
    apply (decode_outcome_chr (b1 :: b2 :: b3 :: b4 :: rest4) _ [b1; b2; b3; b4] rest4 b1
             eq_refl).
    + simpl. lia.
    + exact Hin1.
    + intros _. exact Hhigh.
    + apply IH. simpl in Hlen. lia.
Qed.

(** X19.  The MUTF-8 decoder accepts every byte sequence that has no
    byte from [0xF0] up: it returns a string of code points that is no
    longer than the data, whatever the bytes are (stray continuation
    bytes and truncated sequences are taken as single characters).  The
    only failure it has is the [ValueError] of [chr], and only on data
    with a byte from [0xF0] up. *)
Theorem mutf8_decode_outcome (data : list byte) :
  match _decode_mutf8 data with
  | Ok s => (length s <= length data)%nat /\ Forall is_code_point s
  | Raise e => e = ValueError /\ exists b, b ∈ data /\ 0xF0 <= byte_val b
  end.
Proof. apply (decode_outcome_bounded (length data) data). lia. Qed.

End DecodeRobust.

(* ===================================================================== *)
(** ** The slicer: what else is in the slice, and what is not *)
(* ===================================================================== *)

Section WalkMore.

Variable info : Z -> res instr_info.

Implicit Types (l : list Z) (needed deps : gset Z).

Local Arguments absorb : simpl never.

Lemma absorb_monotone p i n1 d1 n2 d2 :
  n1 ⊆ n2 -> d1 ⊆ d2 ->
  (absorb p i (n1, d1)).1 ⊆ (absorb p i (n2, d2)).1 /\
  (absorb p i (n1, d1)).2 ⊆ (absorb p i (n2, d2)).2.
Proof.
  intros Hn Hd. unfold absorb.
  assert (Hlook : d1 ∪ list_to_set (looked_up i) ⊆ d2 ∪ list_to_set (looked_up i)).
  { intros x. rewrite !elem_of_union. pose proof (Hd x). tauto. }
  destruct (written_reg i) as [wr |]; simpl; [| split; assumption].
  destruct (bool_decide (wr ∈ n1)) eqn:Hf1, (bool_decide (wr ∈ n2)) eqn:Hf2; simpl.
  - split; intros x; pose proof (Hn x); pose proof (Hlook x);
      rewrite ?elem_of_union, ?elem_of_difference in *; tauto.
  - apply bool_decide_eq_true in Hf1. apply bool_decide_eq_false in Hf2.
    exfalso. apply Hf2, Hn, Hf1.
  - apply bool_decide_eq_false in Hf1. split.
    + intros x Hx. apply elem_of_union. left. apply elem_of_difference.
      split; [apply Hn, Hx |]. intros Heq. apply elem_of_singleton in Heq. subst x.
      contradiction.
    + intros x Hx. apply elem_of_union. left. apply Hlook, Hx.
  - split; assumption.
Qed.

Lemma walk_monotone l : forall n1 d1 n2 d2 st1,
  n1 ⊆ n2 -> d1 ⊆ d2 -> walk info l (n1, d1) = Ok st1 ->
  exists st2, walk info l (n2, d2) = Ok st2 /\ st1.1 ⊆ st2.1 /\ st1.2 ⊆ st2.2.
Proof.
  induction l as [| p rest IH]; intros n1 d1 n2 d2 st1 Hn Hd Hw; simpl in *.
  - injection Hw as <-. eexists. split; [reflexivity |]. split; assumption.
  - apply bind_Ok in Hw as (i & Hi & Hw). rewrite Hi.
    change (Ok i ≫= ?k) with (k i). cbv beta.
    destruct (absorb_monotone p i n1 d1 n2 d2 Hn Hd) as [Hn' Hd'].
    destruct (absorb p i (n1, d1)) as [a1 b1]. destruct (absorb p i (n2, d2)) as [a2 b2].
    apply (IH a1 b1 a2 b2 st1 Hn' Hd' Hw).
Qed.

Lemma absorb_lookups p i needed deps q :
  q ∈ looked_up i -> q ∈ (absorb p i (needed, deps)).2.
Proof.
  intros Hq. unfold absorb.
  assert (q ∈ deps ∪ list_to_set (looked_up i))
    by (apply elem_of_union; right; apply elem_of_list_to_set; exact Hq).
  destruct (written_reg i) as [wr |]; simpl; [| assumption].
  destruct (bool_decide (wr ∈ needed)); simpl; [| assumption].
  apply elem_of_union. left. assumption.
Qed.

Lemma walk_lookups l : forall needed deps st,
  walk info l (needed, deps) = Ok st ->
  forall p i q, p ∈ l -> info p = Ok i -> q ∈ looked_up i -> q ∈ st.2.
Proof.
  induction l as [| p0 rest IH]; intros needed deps st Hw p i q Hp Hi Hq; simpl in Hw.
  - apply elem_of_nil in Hp. contradiction.
  - apply bind_Ok in Hw as (i0 & Hi0 & Hw).
    destruct (absorb p0 i0 (needed, deps)) as [n1 d1] eqn:Ha.
    apply elem_of_cons in Hp as [-> | Hp].
    + assert (i0 = i) as -> by congruence.
      pose proof (absorb_lookups p0 i needed deps q Hq) as Hin. rewrite Ha in Hin.
      apply (walk_mono info _ _ _ _ Hw). exact Hin.
    + apply (IH _ _ _ Hw p i q Hp Hi Hq).
Qed.

(** One step of the walk, seen from what is reached afterwards. *)
Lemma reach_back p rest needed deps i q :
  info p = Ok i ->
  reach info (absorb p i (needed, deps)).1 rest q ->
  reach info needed (p :: rest) q.
Proof.
  intros Hi Hr.
  assert (Hwrites : forall r, writes info p r -> written_reg i = Some r).
  { intros r (i' & Hi' & Hw). congruence. }
  assert (Hlater : forall r q', first_writer info rest r q' -> ~ writes info p r ->
                                first_writer info (p :: rest) r q').
  { intros r q' (l1 & l2 & -> & Hw & Hnone) Hnot.
    exists (p :: l1), l2. split; [reflexivity |]. split; [exact Hw |].
    intros x Hx. apply elem_of_cons in Hx as [-> | Hx]; [exact Hnot | apply Hnone; exact Hx]. }
  induction Hr as [r q Hneed Hf | p0 r q l1 l2 _ IH Hl Hrd Hf].
  - unfold absorb in Hneed. destruct (written_reg i) as [wr |] eqn:Hwr.
    + destruct (bool_decide (wr ∈ needed)) eqn:Hfire; simpl in Hneed.
      * apply bool_decide_eq_true in Hfire.
        apply elem_of_union in Hneed as [Hkeep | Hread].
        -- apply elem_of_difference in Hkeep as [Hin Hne].
           apply (reach_seed info _ _ r); [exact Hin |].
           apply Hlater; [exact Hf |].
           intros Hw. apply Hwrites in Hw. apply Hne. apply elem_of_singleton. congruence.
        -- apply elem_of_list_to_set in Hread.
           apply (reach_step info _ _ p r q [] rest).
           ++ apply (reach_seed info _ _ wr); [exact Hfire |].
              exists [], rest. split; [reflexivity |].
              split; [exists i; split; assumption |].
              intros x Hx. apply elem_of_nil in Hx. contradiction.
           ++ reflexivity.
           ++ exists i. split; assumption.
           ++ exact Hf.
      * apply bool_decide_eq_false in Hfire.
        apply (reach_seed info _ _ r); [exact Hneed |].
        apply Hlater; [exact Hf |].
        intros Hw. apply Hwrites in Hw. apply Hfire. congruence.
    + apply (reach_seed info _ _ r); [exact Hneed |].
      apply Hlater; [exact Hf |].
      intros Hw. apply Hwrites in Hw. congruence.
  - apply (reach_step info _ _ p0 r q (p :: l1) l2); try assumption.
    rewrite Hl. reflexivity.
Qed.

Lemma walk_only l : forall needed deps st,
  walk info l (needed, deps) = Ok st ->
  forall q, q ∈ st.2 ->
    q ∈ deps \/ reach info needed l q \/
    exists p i, p ∈ l /\ info p = Ok i /\ q ∈ looked_up i.
Proof.
  induction l as [| p rest IH]; intros needed deps st Hw q Hq; simpl in Hw.
  - injection Hw as <-. left. exact Hq.
  - apply bind_Ok in Hw as (i & Hi & Hw).
    pose proof (reach_back p rest needed deps i) as Hback.
    destruct (absorb p i (needed, deps)) as [n1 d1] eqn:Ha. simpl in Hback.
    destruct (IH _ _ _ Hw q Hq) as [Hd | [Hr | (p' & i' & Hp' & Hi' & Hlk)]].
    + unfold absorb in Ha. destruct (written_reg i) as [wr |] eqn:Hwr.
      * destruct (bool_decide (wr ∈ needed)) eqn:Hfire; injection Ha as _ <-.
        -- apply bool_decide_eq_true in Hfire.
           apply elem_of_union in Hd as [Hd | Hd];
             [apply elem_of_union in Hd as [Hd | Hd] |].
           ++ left. exact Hd.
           ++ right. right. exists p, i. apply elem_of_list_to_set in Hd.
              split; [apply elem_of_cons; left; reflexivity | split; assumption].
           ++ apply elem_of_singleton in Hd as ->. right. left.
              apply (reach_seed info _ _ wr); [exact Hfire |].
              exists [], rest. split; [reflexivity |].
              split; [exists i; split; assumption |].
              intros x Hx. apply elem_of_nil in Hx. contradiction.
        -- apply elem_of_union in Hd as [Hd | Hd]; [left; exact Hd |].
           right. right. exists p, i. apply elem_of_list_to_set in Hd.
           split; [apply elem_of_cons; left; reflexivity | split; assumption].
      * injection Ha as _ <-.
        apply elem_of_union in Hd as [Hd | Hd]; [left; exact Hd |].
        right. right. exists p, i. apply elem_of_list_to_set in Hd.
        split; [apply elem_of_cons; left; reflexivity | split; assumption].
    + right. left. apply Hback; assumption.
    + right. right. exists p', i'.
      split; [apply elem_of_cons; right; exact Hp' | split; assumption].
Qed.

End WalkMore.

Section SlicerMore.

Implicit Types (tm : gmap Z (string * Z)).

Lemma first_writer_defines tm target_pc r q :
  first_writer (info_of tm target_pc) (reverse (sorted_pcs_of tm target_pc)) r q ->
  defines tm target_pc r target_pc q.
Proof.
  intros (l1 & l2 & HL & Hw & Hnone).
  pose proof (descending_sorted_pcs tm target_pc) as Hs. rewrite HL in Hs.
  apply StronglySorted_app in Hs as (_ & _ & Hs2).
  apply StronglySorted_cons in Hs2 as [Hbelow _]. rewrite Forall_forall in Hbelow.
  assert (Hmem : forall x, x ∈ reverse (sorted_pcs_of tm target_pc) <->
                           x ∈ dom tm /\ x < target_pc).
  { intros x. rewrite elem_of_reverse. apply elem_sorted_pcs. }
  assert (Hq : q ∈ reverse (sorted_pcs_of tm target_pc)).
  { rewrite HL. apply elem_of_app. right. apply elem_of_cons. left. reflexivity. }
  apply Hmem in Hq as [Hdom Hlt].
  split; [exact Hdom |]. split; [exact Hlt |]. split; [exact Hw |].
  intros q' Hdom' Hbetween.
  assert (Hq' : q' ∈ reverse (sorted_pcs_of tm target_pc)) by (apply Hmem; split; [assumption | lia]).
  rewrite HL in Hq'. apply elem_of_app in Hq' as [Hin | Hin].
  - apply Hnone. exact Hin.
  - apply elem_of_cons in Hin as [-> | Hin]; [lia |].
    specialize (Hbelow q' Hin). unfold flip in Hbelow. lia.
Qed.

Lemma first_writer_below_defines tm target_pc r p q l1 l2 :
  reverse (sorted_pcs_of tm target_pc) = l1 ++ p :: l2 ->
  first_writer (info_of tm target_pc) l2 r q ->
  defines tm target_pc r p q.
Proof.
  intros HL (m1 & m2 & Hl2 & Hw & Hnone).
  pose proof (descending_sorted_pcs tm target_pc) as Hs.
  pose proof (NoDup_walk_order tm target_pc) as Hnd.
  rewrite HL in Hs, Hnd.
  apply StronglySorted_app in Hs as (Hcross & _ & Hs2).
  apply StronglySorted_cons in Hs2 as [Hbelow Hs2]. rewrite Forall_forall in Hbelow.
  apply NoDup_app in Hnd as (_ & _ & Hnd2). apply NoDup_cons in Hnd2 as [Hp2 _].
  rewrite Hl2 in Hs2. apply StronglySorted_app in Hs2 as (_ & _ & Hs3).
  apply StronglySorted_cons in Hs3 as [Hbelow3 _]. rewrite Forall_forall in Hbelow3.
  assert (Hmem : forall x, x ∈ reverse (sorted_pcs_of tm target_pc) <->
                           x ∈ dom tm /\ x < target_pc).
  { intros x. rewrite elem_of_reverse. apply elem_sorted_pcs. }
  assert (Hq2 : q ∈ l2).
  { rewrite Hl2. apply elem_of_app. right. apply elem_of_cons. left. reflexivity. }
  assert (Hp : p ∈ reverse (sorted_pcs_of tm target_pc)).
  { rewrite HL. apply elem_of_app. right. apply elem_of_cons. left. reflexivity. }
  assert (Hq : q ∈ reverse (sorted_pcs_of tm target_pc)).
  { rewrite HL. apply elem_of_app. right. apply elem_of_cons. right. exact Hq2. }
  apply Hmem in Hp as [Hpdom Hplt]. apply Hmem in Hq as [Hdom Hlt].
  pose proof (Hbelow q Hq2) as Hqp. unfold flip in Hqp.
  assert (q <> p) by (intros ->; contradiction).
  split; [exact Hdom |]. split; [lia |]. split; [exact Hw |].
  intros q' Hdom' Hbetween.
  assert (Hq' : q' ∈ reverse (sorted_pcs_of tm target_pc))
    by (apply Hmem; split; [assumption | lia]).
  rewrite HL in Hq'. apply elem_of_app in Hq' as [Hin | Hin].
  - assert (flip Z.le q' p) as Hle.
    { apply Hcross; [exact Hin | apply elem_of_cons; left; reflexivity]. }
    unfold flip in Hle. lia.
  - apply elem_of_cons in Hin as [-> | Hin]; [lia |].
    rewrite Hl2 in Hin. apply elem_of_app in Hin as [Hin | Hin].
    + apply Hnone. exact Hin.
    + apply elem_of_cons in Hin as [-> | Hin]; [lia |].
      specialize (Hbelow3 q' Hin). unfold flip in Hbelow3. lia.
Qed.

Lemma reach_in_slice tm target_pc arg_regs q :
  reach (info_of tm target_pc) (list_to_set arg_regs)
        (reverse (sorted_pcs_of tm target_pc)) q ->
  in_slice tm target_pc arg_regs q.
Proof.
  induction 1 as [r q Hr Hf | p r q l1 l2 _ IH HL Hrd Hf].
  - apply (slice_arg _ _ _ r); [apply elem_of_list_to_set in Hr; exact Hr |].
    apply first_writer_defines. exact Hf.
  - apply (slice_dep _ _ _ p r); [exact IH | exact Hrd |].
    apply (first_writer_below_defines _ _ _ _ _ l1 l2 HL Hf).
Qed.

(** The walk that [build_register_dependencies] makes, when there is
    one. *)
Lemma build_walk tm target_pc arg_regs deps :
  build_register_dependencies tm target_pc arg_regs = Ok deps ->
  (sorted_pcs_of tm target_pc = [] /\ deps = ∅) \/
  exists st,
    walk (info_of tm target_pc) (reverse (sorted_pcs_of tm target_pc))
         (list_to_set arg_regs, ∅) = Ok st /\ deps = st.2.
Proof.
  unfold build_register_dependencies. intros Hb.
  destruct (sorted_pcs_of tm target_pc) as [| p0 rest] eqn:Hsorted.
  - left. injection Hb as <-. auto.
  - rewrite <- Hsorted in Hb |- *. right.
    apply bind_Ok in Hb as (st & Hwalk & Hb). injection Hb as <-.
    exists st. split; [exact Hwalk | reflexivity].
Qed.

Lemma build_of_walk tm target_pc arg_regs st :
  walk (info_of tm target_pc) (reverse (sorted_pcs_of tm target_pc))
       (list_to_set arg_regs, ∅) = Ok st ->
  build_register_dependencies tm target_pc arg_regs = Ok st.2.
Proof.
  intros Hwalk. unfold build_register_dependencies. unfold info_of in Hwalk.
  remember (sorted_pcs_of tm target_pc) as s eqn:Hs.
  destruct s as [| p0 rest].
  - simpl in Hwalk. injection Hwalk as <-. reflexivity.
  - rewrite Hwalk. reflexivity.
Qed.

(** X20.  The slice grows with the argument registers: when the
    slicer returns a set for some registers, it also returns one for
    every larger list of registers, and the second set contains the
    first. *)
Theorem slice_monotone (tm : gmap Z (string * Z)) (target_pc : Z)
    (arg_regs arg_regs' : list Z) (deps : gset Z) :
  build_register_dependencies tm target_pc arg_regs = Ok deps ->
  (forall r, r ∈ arg_regs -> r ∈ arg_regs') ->
  exists deps',
    build_register_dependencies tm target_pc arg_regs' = Ok deps' /\ deps ⊆ deps'.
Proof.
  intros Hb Hsub. destruct (build_walk _ _ _ _ Hb) as [[Hempty ->] | (st & Hwalk & ->)].
  - exists ∅. unfold build_register_dependencies. rewrite Hempty. split; reflexivity.
  - assert (Hn : (list_to_set arg_regs : gset Z) ⊆ list_to_set arg_regs').
    { intros r Hr. apply elem_of_list_to_set. apply Hsub.
      apply elem_of_list_to_set in Hr. exact Hr. }
    destruct (walk_monotone _ _ _ _ _ _ st Hn (reflexivity ∅) Hwalk)
      as (st' & Hwalk' & _ & Hdeps).
    exists st'.2. split; [apply build_of_walk; exact Hwalk' | exact Hdeps].
Qed.

(** X21.  The lookups do not wait for a need: for every instruction of
    the trace map below the target, the PCs that its lookup finds (the
    constructor call after a new-instance, the fill after a new-array,
    the invoke before a move-result) are in the slice, whether or not
    the register that the instruction writes is needed, and also for an
    empty list of argument registers. *)
Theorem slice_holds_every_lookup (tm : gmap Z (string * Z)) (target_pc : Z)
    (arg_regs : list Z) (deps : gset Z) (p q : Z) (i : instr_info) :
  build_register_dependencies tm target_pc arg_regs = Ok deps ->
  p ∈ dom tm -> p < target_pc ->
  info_of tm target_pc p = Ok i -> q ∈ looked_up i ->
  q ∈ deps.
Proof.
  intros Hb Hdom Hlt Hi Hq.
  assert (Hp : p ∈ reverse (sorted_pcs_of tm target_pc)).
  { rewrite elem_of_reverse. apply elem_sorted_pcs. split; assumption. }
  destruct (build_walk _ _ _ _ Hb) as [[Hempty ->] | (st & Hwalk & ->)].
  - rewrite Hempty in Hp. apply elem_of_nil in Hp. contradiction.
  - apply (walk_lookups _ _ _ _ _ Hwalk p i q Hp Hi Hq).
Qed.

(** X22.  Nothing else is in the slice: every PC that the slicer
    returns is a read-write dependency of the argument registers or a PC
    found by the lookup of an instruction of the trace map below the
    target. *)
Theorem slice_has_nothing_else (tm : gmap Z (string * Z)) (target_pc : Z)
    (arg_regs : list Z) (deps : gset Z) (q : Z) :
  build_register_dependencies tm target_pc arg_regs = Ok deps ->
  q ∈ deps ->
  in_slice tm target_pc arg_regs q \/
  exists p i,
    p ∈ dom tm /\ p < target_pc /\ info_of tm target_pc p = Ok i /\ q ∈ looked_up i.
Proof.
  intros Hb Hq.
  destruct (build_walk _ _ _ _ Hb) as [[Hempty ->] | (st & Hwalk & ->)].
  - apply elem_of_empty in Hq. contradiction.
  - destruct (walk_only _ _ _ _ _ Hwalk q Hq) as [Hin | [Hr | (p & i & Hp & Hi & Hlk)]].
    + apply elem_of_empty in Hin. contradiction.
    + left. apply reach_in_slice. exact Hr.
    + right. exists p, i. rewrite elem_of_reverse in Hp. apply elem_sorted_pcs in Hp.
      destruct Hp as [Hdom Hlt]. repeat split; assumption.
Qed.

End SlicerMore.

Lemma slice_monotone_witness :
  exists deps deps',
    build_register_dependencies example_trace 20 [3] = Ok deps /\
    build_register_dependencies example_trace 20 [0; 3] = Ok deps' /\
    deps ⊆ deps'.
Proof.
  destruct (build_register_dependencies example_trace 20 [3]) as [deps | e] eqn:Hb;
    [| vm_compute in Hb; discriminate Hb].
  destruct (slice_monotone example_trace 20 [3] [0; 3] deps Hb) as (deps' & Hb' & Hsub).
  { intros r Hr. apply elem_of_cons. right. exact Hr. }
  exists deps, deps'. split; [reflexivity | split; [exact Hb' | exact Hsub]].
Defined.

Lemma slice_holds_every_lookup_witness :
  exists deps,
    build_register_dependencies example_trace 20 [] = Ok deps /\ 6 ∈ deps.
Proof.
  destruct (build_register_dependencies example_trace 20 []) as [deps | e] eqn:Hb;
    [| vm_compute in Hb; discriminate Hb].
  exists deps. split; [reflexivity |].
  eapply (slice_holds_every_lookup example_trace 20 [] deps 0 6 _ Hb).
  - apply example_in_dom. apply elem_of_cons. left. reflexivity.
  - lia.
  - vm_compute. reflexivity.
  - apply elem_of_cons. left. reflexivity.
Defined.

Lemma slice_has_nothing_else_witness :
  build_register_dependencies example_trace 20 [0; 3] = Ok example_slice /\
  (in_slice example_trace 20 [0; 3] 16 \/
   exists p i,
     p ∈ dom example_trace /\ p < 20 /\ info_of example_trace 20 p = Ok i /\
     16 ∈ looked_up i).
Proof.
  assert (build_register_dependencies example_trace 20 [0; 3] = Ok example_slice) as Hb
    by (vm_compute; reflexivity).
  split; [exact Hb |].
  apply (slice_has_nothing_else example_trace 20 [0; 3] example_slice 16 Hb).
  unfold example_slice. apply elem_of_list_to_set.
  do 4 (apply elem_of_cons; right). apply elem_of_cons. left. reflexivity.
Defined.

(* ===================================================================== *)
(** ** The class loader: arguments and classes without initializer code *)
(* ===================================================================== *)

Section LoaderFacts.

Implicit Types (regs : list RegisterValue) (args : list RegisterValue).

Lemma reg_set_inside regs idx v :
  0 <= idx < Z.of_nat (length regs) ->
  reg_set regs idx v = Ok (<[Z.to_nat idx := v]> regs).
Proof.
  intros Hi. rewrite reg_set_nonneg by lia. unfold extended.
  destruct (Z.leb_spec (Z.of_nat (length regs)) idx); [lia | reflexivity].
Qed.

Lemma reg_set_empty_negative idx v :
  idx < 0 -> reg_set [] idx v = Raise IndexError.
Proof.
  intros Hi. assert (E : (0 <=? idx) = false) by (apply Z.leb_gt; lia).
  unfold reg_set. simpl length. change (Z.of_nat 0) with 0. rewrite E.
  simpl length. change (- Z.of_nat 0) with 0. rewrite E. reflexivity.
Qed.

Lemma load_args_inside args : forall regs start,
  0 <= start -> start + Z.of_nat (length args) <= Z.of_nat (length regs) ->
  load_args regs start args =
    Ok (take (Z.to_nat start) regs ++ args ++
        drop (Z.to_nat start + length args) regs).
Proof.
  induction args as [| a args IH]; intros regs start Hs Hlen.
  - simpl. rewrite Nat.add_0_r, take_drop. reflexivity.
  - simpl length in *. simpl load_args.
    rewrite reg_set_inside by lia.
    change (Ok ?r ≫= ?k) with (k r). cbv beta.
    rewrite IH by (rewrite ?length_insert; lia).
    f_equal.
    destruct (lookup_lt_is_Some_2 regs (Z.to_nat start) ltac:(lia)) as [old Hold].
    replace (Z.to_nat (start + 1)) with (S (Z.to_nat start)) by lia.
    rewrite (take_S_r (<[Z.to_nat start := a]> regs) (Z.to_nat start) a)
      by (apply list_lookup_insert_eq; lia).
    rewrite take_insert_ge by lia.
    rewrite drop_insert_lt by lia.
    rewrite <- app_assoc. simpl.
    replace (S (Z.to_nat start + length args)) with (Z.to_nat start + S (length args))%nat
      by lia.
    reflexivity.
Qed.

(** X23.  A method is entered with its arguments in the last
    registers of its frame: when the frame has room for them, loading
    the arguments leaves [None] in the lower registers and the arguments,
    in order, in the upper ones, and the frame keeps its size.  A frame
    without registers cannot take an argument: the load raises
    [IndexError]. *)
Theorem arguments_fill_last_registers (regs_size : Z) (args : list RegisterValue) :
  (Z.of_nat (length args) <= regs_size ->
   load_args (new_Registers regs_size) (regs_size - Z.of_nat (length args)) args =
     Ok (replicate (Z.to_nat (regs_size - Z.of_nat (length args))) (mkRegisterValue VNone)
         ++ args)) /\
  (regs_size <= 0 -> args <> [] ->
   load_args (new_Registers regs_size) (regs_size - Z.of_nat (length args)) args =
     Raise IndexError).
Proof.
  split.
  - intros Hroom. unfold new_Registers.
    rewrite load_args_inside by (rewrite ?length_replicate; lia).
    f_equal. rewrite take_replicate, drop_replicate.
    replace (Z.to_nat regs_size - (Z.to_nat (regs_size - Z.of_nat (length args)) + length args))%nat
      with 0%nat by lia.
    simpl. rewrite app_nil_r. f_equal. f_equal. lia.
  - intros Hnone Hargs. destruct args as [| a args]; [congruence |].
    unfold new_Registers. replace (Z.to_nat regs_size) with 0%nat by lia.
    simpl replicate. simpl load_args.
    rewrite reg_set_empty_negative by (simpl length; lia). reflexivity.
Qed.

End LoaderFacts.

Section ClinitFacts.

Variable H : Hooks.
Variable cl : LazyClassLoader.
Variable nested : loader_call.

Lemma store_set_initialized st c f v :
  _initialized_classes (store_set st c f v) = _initialized_classes st.
Proof. reflexivity. Qed.

Lemma load_static_initialized cls st :
  _initialized_classes (_load_static_field_values cl cls st) = _initialized_classes st.
Proof.
  unfold _load_static_field_values.
  destruct (_is_external_sdk_class cls); [reflexivity |].
  destruct (List.find _ (dx_classes cl)) as [ca |]; [| reflexivity].
  generalize (cd_fields ca) st. clear.
  intros fields. induction fields as [| [f [v |]] fields IH]; intros st; simpl.
  - reflexivity.
  - rewrite IH. reflexivity.
  - apply IH.
Qed.

Lemma run_clinit_initialized cls w :
  is_class_initialized (store w) cls = true -> _run_clinit H cl nested cls w = Ok w.
Proof.
  intros Hinit. unfold _run_clinit, _run_clinit_steps. rewrite Hinit. reflexivity.
Qed.

(** X24.  For a class whose [<clinit>] is absent or has no code,
    [_run_clinit] does not fail: it marks the class, and only that class,
    as initialized, leaves the heap and the output alone, leaves the
    static fields alone as well when the class was already initialized or
    is an SDK class, and a second run changes nothing. *)
Theorem clinit_without_code_marks_class (cls : string) (w : World) :
  match find_method cl cls "<clinit>" with
  | Some m => get_method_bytecode m = None
  | None => True
  end ->
  exists w',
    _run_clinit H cl nested cls w = Ok w' /\
    is_class_initialized (store w') cls = true /\
    (forall c, c <> cls ->
       is_class_initialized (store w') c = is_class_initialized (store w) c) /\
    arrays w' = arrays w /\ objects w' = objects w /\ stdout w' = stdout w /\
    (is_class_initialized (store w) cls = true \/ _is_external_sdk_class cls = true ->
     _fields (store w') = _fields (store w)) /\
    _run_clinit H cl nested cls w' = Ok w'.
Proof.
  intros Hnocode.
  destruct (is_class_initialized (store w) cls) eqn:Hinit.
  - exists w. rewrite (run_clinit_initialized cls w Hinit). repeat split; auto.
  - set (st1 := _load_static_field_values cl cls (store w)).
    set (w' := set_store (set_store w st1) (mark_class_initialized st1 cls)).
    assert (Hmarked : is_class_initialized (store w') cls = true).
    { unfold is_class_initialized. apply bool_decide_eq_true. simpl.
      apply elem_of_union. left. apply elem_of_singleton. reflexivity. }
    assert (Hfirst : _run_clinit H cl nested cls w = Ok w').
    { unfold _run_clinit, _run_clinit_steps. rewrite Hinit. cbv zeta. fold st1.
      destruct (find_method cl cls "<clinit>") as [m |]; [| reflexivity].
      rewrite Hnocode. reflexivity. }
    exists w'. split; [exact Hfirst |]. split; [exact Hmarked |].
    split.
    { intros c Hc. unfold is_class_initialized. simpl.
      unfold st1. rewrite load_static_initialized.
      apply bool_decide_ext. rewrite elem_of_union, elem_of_singleton. tauto. }
    split; [reflexivity |]. split; [reflexivity |]. split; [reflexivity |].
    split; [| apply run_clinit_initialized; exact Hmarked].
    intros [Habs | Hext]; [discriminate Habs |].
    simpl. unfold st1, _load_static_field_values. rewrite Hext. reflexivity.
Qed.

End ClinitFacts.

Lemma arguments_fill_last_registers_witness :
  load_args (new_Registers 3)
    (3 - Z.of_nat (length [mkRegisterValue (VInt 1); mkRegisterValue (VInt 2)]))
    [mkRegisterValue (VInt 1); mkRegisterValue (VInt 2)] =
  Ok (replicate
        (Z.to_nat (3 - Z.of_nat (length [mkRegisterValue (VInt 1); mkRegisterValue (VInt 2)])))
        (mkRegisterValue VNone)
      ++ [mkRegisterValue (VInt 1); mkRegisterValue (VInt 2)]).
Proof.
  apply (proj1 (arguments_fill_last_registers 3
                  [mkRegisterValue (VInt 1); mkRegisterValue (VInt 2)])).
  simpl. lia.
Defined.

Lemma clinit_without_code_marks_class_witness :
  exists w',
    _run_clinit no_hooks empty_loader no_calls "LA;" empty_world = Ok w' /\
    is_class_initialized (store w') "LA;" = true /\
    (forall c, c <> "LA;" ->
       is_class_initialized (store w') c = is_class_initialized (store empty_world) c) /\
    arrays w' = arrays empty_world /\ objects w' = objects empty_world /\
    stdout w' = stdout empty_world /\
    (is_class_initialized (store empty_world) "LA;" = true \/
     _is_external_sdk_class "LA;" = true ->
     _fields (store w') = _fields (store empty_world)) /\
    _run_clinit no_hooks empty_loader no_calls "LA;" w' = Ok w'.
Proof.
  apply (clinit_without_code_marks_class no_hooks empty_loader no_calls "LA;" empty_world).
  simpl. exact I.
Defined.

(* ===================================================================== *)
(** ** Static fields through the handlers; the arguments of an invoke *)
(* ===================================================================== *)

Section StaticFields.

Implicit Types (vm : DalvikVM) (w : World) (st : StaticFieldStore).

Lemma get_by_idx_trace_field st i t d :
  get_by_idx st i t d =
    (fld ← trace_field t;
     Ok (match fld with
         | Some (c, f) => store_get st c f d
         | None => d
         end)).
Proof.
  unfold get_by_idx, trace_field.
  destruct (PyStr.contains "->" t); [| reflexivity].
  destruct (2 <=? Z.of_nat (length (PyStr.split_on "->" t))); [| reflexivity].
  destruct (Py.index (PyStr.split_on "->" t) 0) as [p0 |]; [| reflexivity]. simpl.
  destruct (Py.index (PyStr.split p0) (-1)) as [c |]; [| reflexivity]. simpl.
  destruct (Py.index (PyStr.split_on "->" t) 1) as [p1 |]; [| reflexivity]. simpl.
  destruct (Py.index (PyStr.split p1) 0) as [f |]; reflexivity.
Qed.

Lemma set_by_idx_trace_field st i v t :
  set_by_idx st i v t =
    (fld ← trace_field t;
     Ok (match fld with
         | Some (c, f) => store_set st c f v
         | None => st
         end)).
Proof.
  unfold set_by_idx, trace_field.
  destruct (PyStr.contains "->" t); [| reflexivity].
  destruct (2 <=? Z.of_nat (length (PyStr.split_on "->" t))); [| reflexivity].
  destruct (Py.index (PyStr.split_on "->" t) 0) as [p0 |]; [| reflexivity]. simpl.
  destruct (Py.index (PyStr.split p0) (-1)) as [c |]; [| reflexivity]. simpl.
  destruct (Py.index (PyStr.split_on "->" t) 1) as [p1 |]; [| reflexivity]. simpl.
  destruct (Py.index (PyStr.split p1) 0) as [f |]; reflexivity.
Qed.

(** X25.  A static field written by [sput] is what [sget] reads back:
    when the trace strings of the two instructions name the same class
    and field and the field is not one of the mocked framework fields,
    the destination of the [sget] receives the value that the source of
    the [sput] held, of whatever kind, and nothing but the store has
    changed in between. *)
Theorem sput_then_sget (vm1 vm2 : DalvikVM) (w : World) (src dst : Z) (v : pyval)
    (cls fld : string) :
  code_at vm1 (pc vm1) = Ok src -> reg_value vm1 src = Ok v ->
  trace_field (trace_str_of vm1) = Ok (Some (cls, fld)) ->
  code_at vm2 (pc vm2) = Ok dst ->
  trace_field (trace_str_of vm2) = Ok (Some (cls, fld)) ->
  sget_mock (PyStr.split (trace_str_of vm2)) = None ->
  exists w1 vm2',
    execute_sput vm1 w = Ok (set_pc vm1 (pc vm1 + 3), w1) /\
    execute_sget vm2 w1 = Ok (vm2', w1) /\
    reg_value vm2' dst = Ok v /\ pc vm2' = pc vm2 + 3 /\
    arrays w1 = arrays w /\ objects w1 = objects w /\ stdout w1 = stdout w.
Proof.
  intros Hsrc Hv Ht1 Hdst Ht2 Hmock.
  pose proof (code_at_range _ _ _ Hdst) as Hdr.
  set (w1 := set_store w (store_set (store w) cls fld v)).
  assert (Hput : execute_sput vm1 w = Ok (set_pc vm1 (pc vm1 + 3), w1)).
  { unfold execute_sput. rewrite Hsrc.
    change (Ok src ≫= ?k) with (k src). cbv beta zeta. rewrite Hv.
    change (Ok v ≫= ?k) with (k v). cbv beta.
    rewrite set_by_idx_trace_field, Ht1. reflexivity. }
  destruct (write_reg_nonneg vm2 dst v ltac:(lia)) as (regs' & Hw & Hset).
  exists w1, (set_pc (set_registers vm2 regs') (pc vm2 + 3)).
  split; [exact Hput |]. split; [| split; [| repeat split]].
  - unfold execute_sget. rewrite Hdst.
    change (Ok dst ≫= ?k) with (k dst). cbv beta zeta. rewrite Hmock.
    assert (Hnone : (if PyStr.contains "->" (trace_str_of vm2) then None
                     else @None mock_static) = None)
      by (destruct (PyStr.contains "->" (trace_str_of vm2)); reflexivity).
    rewrite Hnone. rewrite get_by_idx_trace_field, Ht2.
    change (Ok (Some (cls, fld)) ≫= ?k) with (k (Some (cls, fld))). cbv beta iota.
    assert (Hread : store_get (store w1) cls fld (VInt 0) = v).
    { unfold w1. simpl. unfold store_get, store_set. simpl.
      rewrite lookup_insert_eq, lookup_insert_eq. reflexivity. }
    rewrite Hread.
    change (Ok v ≫= ?k) with (k v). cbv beta. rewrite Hw. reflexivity.
  - apply (reg_value_lookup _ dst (mkRegisterValue v) ltac:(lia)). simpl.
    eapply reg_set_lookup; [| eassumption]. lia.
Qed.

End StaticFields.

Section InvokeArguments.

Implicit Types (vm : DalvikVM).

Lemma mapM_res_Ok {A B} (f : A -> res B) (l : list A) : forall ys,
  mapM f l = Ok ys -> Forall2 (fun x y => f x = Ok y) l ys.
Proof.
  induction l as [| x l IH]; intros ys Hm; simpl in Hm.
  - injection Hm as <-. constructor.
  - apply bind_Ok in Hm as (y & Hy & Hm). apply bind_Ok in Hm as (k & Hk & Hm).
    injection Hm as <-. constructor; [exact Hy | apply IH; exact Hk].
Qed.

(** X26.  The arguments that an invoke passes are register contents:
    [decode_invoke_args] returns a method index of 16 bits and as many
    arguments as the count in the instruction says, but never more than
    five, each one the content of one of the registers v0 to v15 (it
    raises when such a register lies past the end of the file). *)
Theorem invoke_args_decoded (vm : DalvikVM) (method_idx : Z)
    (args : list RegisterValue) :
  decode_invoke_args vm = Ok (method_idx, args) ->
  exists byte1,
    code_at vm (pc vm) = Ok byte1 /\
    0 <= method_idx < 65536 /\
    Z.of_nat (length args) = Z.min (Z.land (Z.shiftr byte1 4) 0xF) 5 /\
    Forall (fun a => exists r, 0 <= r < 16 /\ registers vm !! Z.to_nat r = Some a) args.
Proof.
  unfold decode_invoke_args. intros Hd.
  apply bind_Ok in Hd as (b1 & Hb1 & Hd). apply bind_Ok in Hd as (b2 & Hb2 & Hd).
  apply bind_Ok in Hd as (b3 & Hb3 & Hd). apply bind_Ok in Hd as (b4 & Hb4 & Hd).
  apply bind_Ok in Hd as (e & He & Hd). apply bind_Ok in Hd as (f & Hf & Hd).
  apply bind_Ok in Hd as (args' & Hargs & Hd). injection Hd as <- <-.
  pose proof (code_at_range _ _ _ Hb1) as Hr1.
  pose proof (code_at_range _ _ _ Hb2) as Hr2.
  pose proof (code_at_range _ _ _ Hb3) as Hr3.
  pose proof (land_ones_range (Z.shiftr b1 4) 4 ltac:(lia)) as Hcount.
  change (2 ^ 4 - 1) with 15 in Hcount. change (2 ^ 4) with 16 in Hcount.
  assert (Hnib : forall x, 0 <= Z.land x 15 < 16).
  { intros x. apply (land_ones_range x 4). lia. }
  assert (He' : 0 <= e < 16).
  { destruct (pc vm + 4 <? Z.of_nat (length (bytecode vm))).
    - apply bind_Ok in He as (b & _ & He). injection He as <-. apply Hnib.
    - injection He as <-. lia. }
  assert (Hf' : 0 <= f < 16).
  { destruct (pc vm + 4 <? Z.of_nat (length (bytecode vm))).
    - apply bind_Ok in Hf as (b & _ & Hf). injection Hf as <-. apply Hnib.
    - injection Hf as <-. lia. }
  exists b1. split; [exact Hb1 |]. split; [| split].
  - assert (0 <= Z.lor b2 (Z.shiftl b3 8) < 2 ^ 16) as Hidx.
    { apply lor_below; [lia | | ].
      - change (2 ^ 16) with 65536. lia.
      - apply (shiftl_below b3 8 8); [lia | lia |]. change (2 ^ 8) with 256. lia. }
    change (2 ^ 16) with 65536 in Hidx. exact Hidx.
  - apply mapM_res_Ok in Hargs. apply Forall2_length in Hargs. rewrite <- Hargs.
    rewrite length_take. simpl length. lia.
  - apply mapM_res_Ok in Hargs.
    assert (Hregs : Forall (fun r => 0 <= r < 16)
                      (take (Z.to_nat (Z.land (Z.shiftr b1 4) 15))
                         [Z.land b4 15; Z.land (Z.shiftr b4 4) 15; e; f; Z.land b1 15])).
    { apply Forall_take. repeat constructor; try apply Hnib; lia. }
    revert Hregs. induction Hargs as [| r a rs args' Hra _ IH]; intros Hregs.
    + constructor.
    + apply Forall_cons in Hregs as [Hr Hrs]. constructor; [| apply IH; exact Hrs].
      exists r. split; [exact Hr |].
      unfold reg_get in Hra. rewrite index_nonneg in Hra by lia.
      destruct (registers vm !! Z.to_nat r) as [a' |]; [| discriminate Hra].
      injection Hra as ->. reflexivity.
Qed.

End InvokeArguments.

Lemma sput_then_sget_witness :
  exists w1 vm2',
    execute_sput sput_vm empty_world = Ok (set_pc sput_vm (pc sput_vm + 3), w1) /\
    execute_sget sget_vm w1 = Ok (vm2', w1) /\
    reg_value vm2' 1 = Ok (VInt 5) /\ pc vm2' = pc sget_vm + 3 /\
    arrays w1 = arrays empty_world /\ objects w1 = objects empty_world /\
    stdout w1 = stdout empty_world.
Proof.
  apply (sput_then_sget sput_vm sget_vm empty_world 0 1 (VInt 5) "LFoo;" "bar");
    vm_compute; reflexivity.
Defined.

Lemma invoke_args_decoded_witness :
  exists byte1,
    code_at invoke_args_vm (pc invoke_args_vm) = Ok byte1 /\
    0 <= 7 < 65536 /\
    Z.of_nat (length [mkRegisterValue (VInt 11); mkRegisterValue (VInt 10)])
      = Z.min (Z.land (Z.shiftr byte1 4) 0xF) 5 /\
    Forall (fun a => exists r, 0 <= r < 16 /\
                               registers invoke_args_vm !! Z.to_nat r = Some a)
           [mkRegisterValue (VInt 11); mkRegisterValue (VInt 10)].
Proof.
  apply (invoke_args_decoded invoke_args_vm 7
           [mkRegisterValue (VInt 11); mkRegisterValue (VInt 10)]).
  vm_compute. reflexivity.
Defined.
